(** * Ingestion orchestration fabric: status store, claim protocol,
      work queues, stage workers and supervisor.

    A shallow embedding of the Python sources
    - [document_ingestion_platform/db/db_handler.py]
    - [document_ingestion_platform/ingest_tools/extraction_manager.py]
    - [document_ingestion_platform/ingest_tools/extraction.py]
    - [document_ingestion_platform/ingest_tools/chunking.py]
    - [document_ingestion_platform/ingest_tools/embedding.py]
    - [document_ingestion_platform/ingest_tools/run_platform.py]
    - [platform/db/mongodb_helper.py]

    SQLite tables are lists of rows in rowid order, Redis lists are Rocq
    lists whose head is the left end, Redis keys / JSON objects / the Mongo
    collection are finite maps, clock readings are integers supplied by the
    caller, and the external collaborators (converter, chunker, embedding
    model, the interpreter's string hash) are parameters. *)

From stdpp Require Import gmap strings list fin_maps.
From Stdlib Require Import ZArith Lia Ascii String DecimalString DecimalN.
From Stdlib Require DecimalPos DecimalZ.

Open Scope string_scope.

(** Python truthiness of an optional string: [None] and [''] are falsy. *)
Definition truthy (o : option string) : bool :=
  match o with
  | Some s => negb (String.eqb s "")
  | None => false
  end.

(** ** The status store ([db_handler.py]) *)

Module DocumentDBHandler.

(** One row of the [documents] table, columns in declaration order. *)
Record row := Row {
  id : Z;
  filename : string;
  filepath : string;
  status : string;
  trace_id : option string;
  error_message : option string;
  processed_date : option Z;
  created_date : Z
}.

(** The [documents] table (rowid order) with the AUTOINCREMENT counter
    that SQLite keeps in [sqlite_sequence]. *)
Record documents := Db { rows : list row; autoinc : Z }.

(** [create_tables] on a new database file. *)
Definition create_tables : documents := Db [] 0.

(** [add_document]: INSERT OR IGNORE.  The only uniqueness constraint of
    the schema besides the primary key is [filename TEXT NOT NULL UNIQUE];
    a conflict on it skips the insertion.  The engine takes the next
    AUTOINCREMENT value before it checks the constraint, so a skipped
    insertion consumes a value of the counter too.  Always answers
    [True]. *)
Definition add_document (now : Z) (d : documents)
    (fname fpath st : string) (tr : option string) : documents * bool :=
  if bool_decide (fname ∈ filename <$> rows d)
  then (Db (rows d) (autoinc d + 1), true)
  else (Db (rows d ++ [Row (autoinc d + 1) fname fpath st tr None None now])
           (autoinc d + 1), true).

(** The SET clause of [update_document_status] applied to one row: the
    [error_message] column is written only in the branch taken for a
    truthy argument. *)
Definition set_status (now : Z) (st : string) (err : option string)
    (r : row) : row :=
  if truthy err
  then Row (id r) (filename r) (filepath r) st (trace_id r) err
           (Some now) (created_date r)
  else Row (id r) (filename r) (filepath r) st (trace_id r)
           (error_message r) (Some now) (created_date r).

(** [update_document_status]: UPDATE ... WHERE filepath = ?.  Always
    answers [True], whatever the number of rows matched. *)
Definition update_document_status (now : Z) (d : documents)
    (fpath st : string) (err : option string) : documents * bool :=
  (Db ((λ r, if bool_decide (filepath r = fpath)
             then set_status now st err r else r) <$> rows d)
      (autoinc d), true).

(** [get_document_status]: SELECT status ... ; fetchone(). *)
Definition get_document_status (d : documents) (fpath : string) : option string :=
  status ∘ snd <$> list_find (λ r, filepath r = fpath) (rows d).

(** [get_pending_documents]. *)
Definition get_pending_documents (d : documents) : list string :=
  filepath <$> filter (λ r, status r = "pending") (rows d).

(** [flush_db]: DELETE FROM documents, only when confirmed. *)
Definition flush_db (d : documents) (confirm : bool) : documents * bool :=
  if confirm then (Db [] (autoinc d), true) else (d, false).

(** A call on the handler, and the store after a sequence of calls. *)
Inductive call :=
| Add (now : Z) (fname fpath st : string) (tr : option string)
| Update (now : Z) (fpath st : string) (err : option string)
| Flush (confirm : bool).

Definition exec (d : documents) (c : call) : documents :=
  match c with
  | Add now fname fpath st tr => fst (add_document now d fname fpath st tr)
  | Update now fpath st err => fst (update_document_status now d fpath st err)
  | Flush confirm => fst (flush_db d confirm)
  end.

Definition run (cs : list call) (d : documents) : documents := foldl exec d cs.

(** The record of a file, looked up by the [filename] key. *)
Definition record_of (d : documents) (fname : string) : option row :=
  snd <$> list_find (λ r, filename r = fname) (rows d).

End DocumentDBHandler.

(** ** Python values and path helpers *)

(** The JSON-like values stored in metadata dictionaries.  A float is kept
    as its binary64 bit pattern (no arithmetic is done on floats here). *)
Inductive pyval :=
| VStr (s : string)
| VInt (n : Z)
| VFloat (bits : Z)
| VVec (v : list Z).

(** [bool(v)]. *)
Definition pytruthy (v : pyval) : bool :=
  match v with
  | VStr s => negb (String.eqb s "")
  | VInt n => negb (n =? 0)%Z
  | VFloat b => negb ((b =? 0) || (b =? 2 ^ 63))%Z
  | VVec v => negb (bool_decide (v = []))
  end.

Module os_path.

Definition sep : ascii := "/"%char.
Definition extsep : ascii := "."%char.

Fixpoint contains (c : ascii) (p : string) : bool :=
  match p with
  | EmptyString => false
  | String a r => Ascii.eqb a c || contains c r
  end.

(** [p.rfind(c)], with [-1] for no occurrence. *)
Fixpoint rfind_from (i : Z) (c : ascii) (p : string) (acc : Z) : Z :=
  match p with
  | EmptyString => acc
  | String a r => rfind_from (i + 1) c r (if Ascii.eqb a c then i else acc)
  end.
Definition rfind (c : ascii) (p : string) : Z := rfind_from 0 c p (-1).

(** [posixpath.basename]: what follows the last separator. *)
Fixpoint basename (p : string) : string :=
  match p with
  | EmptyString => ""
  | String _ r => if contains sep p then basename r else p
  end.

Definition startswith_sep (p : string) : bool :=
  match p with String a _ => Ascii.eqb a sep | EmptyString => false end.

Fixpoint endswith_sep (p : string) : bool :=
  match p with
  | EmptyString => false
  | String a EmptyString => Ascii.eqb a sep
  | String _ r => endswith_sep r
  end.

(** [posixpath.join] of two components. *)
Definition join (a b : string) : string :=
  if startswith_sep b then b
  else if String.eqb a "" || endswith_sep a then a ++ b
  else a ++ "/" ++ b.

(** [posixpath.splitext]: the extension starts at the last dot of the
    last component, unless that component consists of leading dots up
    to it. *)
Definition splitext (p : string) : string * string :=
  let sepIndex := rfind sep p in
  let dotIndex := rfind extsep p in
  if (sepIndex <? dotIndex)%Z then
    let lead := substring (Z.to_nat (sepIndex + 1))
                          (Z.to_nat (dotIndex - sepIndex - 1)) p in
    if existsb (λ a, negb (Ascii.eqb a extsep)) (list_ascii_of_string lead)
    then (substring 0 (Z.to_nat dotIndex) p,
          substring (Z.to_nat dotIndex) (String.length p - Z.to_nat dotIndex) p)
    else (p, "")
  else (p, "").

End os_path.

(** [s.endswith(suffix)]. *)
Definition endswith (s suffix : string) : bool :=
  let n := String.length s in
  let k := String.length suffix in
  (k <=? n)%nat && String.eqb (substring (n - k) k s) suffix.

(** [str(n)] and the format [{n:07d}]: decimal digits, a minus sign for a
    negative number, zero-filled after the sign up to seven characters. *)
Definition py_str_int (n : Z) : string := NilZero.string_of_int (Z.to_int n).

Fixpoint zeros (k : nat) : string :=
  match k with O => "" | S k => String "0" (zeros k) end.

Definition format_07d (n : Z) : string :=
  let digits := NilZero.string_of_uint (N.to_uint (Z.abs_N n)) in
  let sign := if (n <? 0)%Z then "-" else "" in
  sign ++ zeros (7 - String.length sign - String.length digits) ++ digits.

(** ** The queue broker (Redis lists and keys) *)

Module Redis.

(** RPUSH: append at the tail (the right end). *)
Definition rpush {A} (l : list A) (x : A) : list A := l ++ [x].

(** BRPOP on one list: remove and return the element at the tail (the
    right end); no element within the timeout gives [None]. *)
Definition brpop {A} (l : list A) : option (A * list A) :=
  match reverse l with
  | [] => None
  | x :: r => Some (x, reverse r)
  end.

(** BLPOP on one list: remove and return the element at the head. *)
Definition blpop {A} (l : list A) : option (A * list A) :=
  match l with
  | [] => None
  | x :: r => Some (x, r)
  end.

(* String keys are a finite map; a key set with EX carries its
   time-to-live, and its expiry is the environment's [expire]. *)

(** EXISTS: the number of the given keys that exist. *)
Definition exists_ (ks : gmap string (string * Z)) (k : string) : Z :=
  match ks !! k with Some _ => 1 | None => 0 end.

(** SET key value NX EX ttl: sets only when the key is absent, answering
    whether it did. *)
Definition set_nx_ex (ks : gmap string (string * Z)) (k v : string) (ttl : Z)
    : gmap string (string * Z) * bool :=
  match ks !! k with
  | Some _ => (ks, false)
  | None => (<[k := (v, ttl)]> ks, true)
  end.

(** DEL. *)
Definition delete (ks : gmap string (string * Z)) (k : string)
    : gmap string (string * Z) :=
  base.delete k ks.

(** The key's time-to-live elapsing. *)
Definition expire (ks : gmap string (string * Z)) (k : string)
    : gmap string (string * Z) :=
  base.delete k ks.

End Redis.

(** ** Queue payloads, staging files, vector-store records *)

(** The converter's structured document: its metadata attribute (absent or
    a dictionary), its portable dictionary form and its markdown export. *)
Record Document := {
  doc_metadata : option (gmap string pyval);
  export_to_dict : string;
  export_to_markdown : string
}.

(** Payload pushed by [create_extraction_job]. *)
Record extract_job := ExtractJob {
  ej_trace_id : string;
  ej_file_path : string;
  ej_filename : string;
  ej_job_timestamp : Z;
  ej_job_created : Z;
  ej_metadata : gmap string pyval
}.

(** Payload pushed by [process_extraction_job] ([document_json] holds the
    serialized document, whose deserialization gives the document back). *)
Record chunk_job := ChunkJob {
  cj_trace_id : string;
  cj_file_path : string;
  cj_filename : string;
  cj_document_json : option Document;
  cj_markdown_output : string;
  cj_metadata : gmap string pyval;
  cj_format : string;
  cj_extraction_timestamp : Z;
  cj_worker_id : string
}.

(** A chunk of a staging file: the text the chunker serialized, or (legacy
    files) a dictionary. *)
Inductive chunk :=
| ChunkStr (s : string)
| ChunkDict (d : gmap string pyval).

(** The staging artifact [<basename>_chunks.json]. *)
Record chunks_file := ChunksFile {
  cf_chunks : list chunk;
  cf_metadata : gmap string pyval
}.

(** Payload pushed by [add_to_embedding_queue]. *)
Record embed_job := EmbedJob {
  mj_chunks_file : string;
  mj_metadata : gmap string pyval
}.

(** The single element of [embedded_chunks] in a stored record. *)
Record chunk_document := ChunkDocument {
  cd_text : pyval;
  cd_embedding : list Z;
  cd_embedding_model : pyval;
  cd_embedding_timestamp : pyval;
  cd_embedding_date : pyval;
  cd_metadata : gmap string pyval
}.

(** A record of the vector-store collection ([store_embeddings]). *)
Record vector_record := VectorRecord {
  vr_document_id : string;
  vr_metadata : gmap string pyval;
  vr_vectors_count : Z;
  vr_vectors_dimensions : Z;
  vr_vectors_model : pyval;
  vr_embedded_chunks : list chunk_document;
  vr_processing_timestamp : Z;
  vr_storage_type : string
}.

(** ** External collaborators and the shared world *)

(** What the orchestration code calls but does not define: the converter,
    the chunker, the embedding model, the interpreter ([hash], [str] of a
    float, [repr] of a dictionary, [isoformat]), the file system's sizes
    and the constants and the trace-id generator of [globals].  A call that
    can raise answers [inl] with the exception's text. *)
Class Externals := {
  MASTER_LIBRARY : string;
  PROCESSED_DIR : string;
  generate_trace_id : nat → string;
  convert : string → string + option Document;
  convert_markdown : string → string + Document;
  getsize : string → string + Z;
  chunker : Document → string + list string;
  encode : list pyval → list (list Z);
  py_hash : pyval → Z;
  str_float : Z → string;
  repr_dict : gmap string pyval → string;
  isoformat : Z → string;
  strftime : Z → string
}.

(** [str(v)]. *)
Definition py_str `{Externals} (v : pyval) : string :=
  match v with
  | VStr s => s
  | VInt n => py_str_int n
  | VFloat b => str_float b
  | VVec v => "[" ++ String.concat ", " (str_float <$> v) ++ "]"
  end.

(** [if key in src: dst[key] = src[key]]. *)
Definition copy_key (src : gmap string pyval) (dst : gmap string pyval)
    (key : string) : gmap string pyval :=
  match src !! key with
  | Some v => <[key := v]> dst
  | None => dst
  end.

(** Truthiness of a dictionary. *)
Definition nonempty (m : gmap string pyval) : bool := negb (size m =? 0)%nat.

(** The calls that change the broker, the status store, the staging
    directory or the vector store, in the order they were made. *)
Inductive effect :=
| DbAdd (fname fpath st : string) (tr : option string)
| DbUpdate (fpath st : string) (err : option string)
| RedisSetNx (key : string) (claimed : bool)
| RedisDelete (key : string)
| RpushExtraction (j : extract_job)
| BrpopExtraction
| RpushChunking (j : chunk_job)
| BrpopChunking
| RpushEmbedding (j : embed_job)
| BrpopEmbedding
| WriteChunks (path : string)
| MongoUpsert (document_id : string).

(** Everything the processes share: the status store, the broker's keys
    and its three lists (named after the constants that hold their names),
    the staging directory, the vector-store collection, the number of trace
    ids minted so far, and the history of effects. *)
Record world := World {
  db : DocumentDBHandler.documents;
  redis_keys : gmap string (string * Z);
  EXTRACTION_JOBS : list extract_job;
  REDIS_QUEUE : list chunk_job;
  EMBEDDING_QUEUE : list embed_job;
  staging : gmap string chunks_file;
  collection : gmap string vector_record;
  minted : nat;
  history : list effect
}.

Definition log (e : effect) (w : world) : world :=
  World (db w) (redis_keys w) (EXTRACTION_JOBS w) (REDIS_QUEUE w)
        (EMBEDDING_QUEUE w) (staging w) (collection w) (minted w)
        (history w ++ [e]).

Definition set_db (d : DocumentDBHandler.documents) (w : world) : world :=
  World d (redis_keys w) (EXTRACTION_JOBS w) (REDIS_QUEUE w)
        (EMBEDDING_QUEUE w) (staging w) (collection w) (minted w) (history w).

Definition set_redis_keys (ks : gmap string (string * Z)) (w : world) : world :=
  World (db w) ks (EXTRACTION_JOBS w) (REDIS_QUEUE w)
        (EMBEDDING_QUEUE w) (staging w) (collection w) (minted w) (history w).

Definition set_EXTRACTION_JOBS (q : list extract_job) (w : world) : world :=
  World (db w) (redis_keys w) q (REDIS_QUEUE w)
        (EMBEDDING_QUEUE w) (staging w) (collection w) (minted w) (history w).

Definition set_REDIS_QUEUE (q : list chunk_job) (w : world) : world :=
  World (db w) (redis_keys w) (EXTRACTION_JOBS w) q
        (EMBEDDING_QUEUE w) (staging w) (collection w) (minted w) (history w).

Definition set_EMBEDDING_QUEUE (q : list embed_job) (w : world) : world :=
  World (db w) (redis_keys w) (EXTRACTION_JOBS w) (REDIS_QUEUE w)
        q (staging w) (collection w) (minted w) (history w).

Definition set_staging (fs : gmap string chunks_file) (w : world) : world :=
  World (db w) (redis_keys w) (EXTRACTION_JOBS w) (REDIS_QUEUE w)
        (EMBEDDING_QUEUE w) fs (collection w) (minted w) (history w).

Definition set_collection (c : gmap string vector_record) (w : world) : world :=
  World (db w) (redis_keys w) (EXTRACTION_JOBS w) (REDIS_QUEUE w)
        (EMBEDDING_QUEUE w) (staging w) c (minted w) (history w).

Definition set_minted (n : nat) (w : world) : world :=
  World (db w) (redis_keys w) (EXTRACTION_JOBS w) (REDIS_QUEUE w)
        (EMBEDDING_QUEUE w) (staging w) (collection w) n (history w).

(** A world with nothing in it. *)
Definition empty_world : world :=
  World DocumentDBHandler.create_tables ∅ [] [] [] ∅ ∅ 0 [].

(** The key of a file's claim lock. *)
Definition lock_key (filename : string) : string :=
  "lock:extraction:" ++ filename.

(** ** The extraction manager ([extraction_manager.py]) *)

Module ExtractionManager.
Section manager.
Context `{Externals}.

Definition manager_id : string := "extraction-manager".

Definition is_file_locked (w : world) (filename : string) : bool :=
  (0 <? Redis.exists_ (redis_keys w) (lock_key filename))%Z.

(** [status in ["processed", "processing"]]. *)
Definition is_file_processed (w : world) (filepath : string) : bool :=
  match DocumentDBHandler.get_document_status (db w) filepath with
  | Some status => bool_decide (status ∈ ["processed"; "processing"])
  | None => false
  end.

Definition claim_file (lock_ttl : Z) (w : world) (filename : string)
    : world * bool :=
  let '(ks, claimed) :=
    Redis.set_nx_ex (redis_keys w) (lock_key filename) manager_id lock_ttl in
  (log (RedisSetNx (lock_key filename) claimed) (set_redis_keys ks w), claimed).

Definition create_extraction_job (now : Z) (w : world)
    (file_path filename trace_id : string) : world :=
  let job_payload :=
    ExtractJob trace_id file_path filename now now
      (<["source" := VStr "master_library"]>
         (<["manager_id" := VStr manager_id]> ∅)) in
  let w1 :=
    log (DbAdd filename file_path "queued" (Some trace_id))
        (set_db (fst (DocumentDBHandler.add_document now (db w) filename
                        file_path "queued" (Some trace_id))) w) in
  log (RpushExtraction job_payload)
      (set_EXTRACTION_JOBS (Redis.rpush (EXTRACTION_JOBS w1) job_payload) w1).

(** The body of the [for] loop of [scan_master_library] for one
    directory entry; the count is [jobs_created]. *)
Definition scan_file (now lock_ttl : Z) (st : world * Z) (filename : string)
    : world * Z :=
  let '(w, jobs_created) := st in
  if negb (endswith filename ".pdf") then st
  else
    let file_path := os_path.join MASTER_LIBRARY filename in
    if is_file_processed w file_path then st
    else if is_file_locked w filename then st
    else
      let '(w1, claimed) := claim_file lock_ttl w filename in
      if claimed then
        let trace_id := generate_trace_id (minted w1) in
        let w2 := set_minted (S (minted w1)) w1 in
        (create_extraction_job now w2 file_path filename trace_id,
         (jobs_created + 1)%Z)
      else (w1, jobs_created).

(** [scan_master_library]; [listing] is [None] when the library
    directory does not exist and else what [os.listdir] returns. *)
Definition scan_master_library (now lock_ttl : Z)
    (listing : option (list string)) (w : world) : world * Z :=
  match listing with
  | None => (w, 0%Z)
  | Some names => foldl (scan_file now lock_ttl) (w, 0%Z) names
  end.

End manager.
End ExtractionManager.

(** ** Worker code: state with exceptions *)

Inductive outcome (A : Type) :=
| Return (a : A)
| Raise (e : string).
Arguments Return {A} a.
Arguments Raise {A} e.

Definition M (A : Type) : Type := world → outcome A * world.

Definition ret {A} (a : A) : M A := λ w, (Return a, w).

Definition raise {A} (e : string) : M A := λ w, (Raise e, w).

Definition bind {A B} (m : M A) (k : A → M B) : M B :=
  λ w, match m w with
       | (Return a, w') => k a w'
       | (Raise e, w') => (Raise e, w')
       end.

(** [try: m except Exception as e: h(str(e))]. *)
Definition try_except {A} (m : M A) (h : string → M A) : M A :=
  λ w, match m w with
       | (Return a, w') => (Return a, w')
       | (Raise e, w') => h e w'
       end.

(** The result of an external call. *)
Definition external {A} (r : string + A) : M A :=
  match r with
  | inl e => raise e
  | inr a => ret a
  end.

(** A call that changes the world and cannot raise. *)
Definition effectful (f : world → world) : M unit := λ w, (Return tt, f w).

Notation "x <~ m ; k" := (bind m (λ x, k))
  (at level 20, m at level 100, k at level 200, only parsing).

(** [db_handler.update_document_status] on the shared store.  The
    handler catches the engine's errors itself; an engine that fails is
    outside the model, so the update is always made. *)
Definition db_update (now : Z) (fpath st : string) (err : option string)
    : M unit :=
  effectful (λ w,
    log (DbUpdate fpath st err)
        (set_db (fst (DocumentDBHandler.update_document_status
                        now (db w) fpath st err)) w)).

(** [redis_client.delete].  A broker that does not answer is outside the
    model: here, as for the pushes and pops, the call does not raise. *)
Definition redis_delete (key : string) : M unit :=
  effectful (λ w,
    log (RedisDelete key) (set_redis_keys (Redis.delete (redis_keys w) key) w)).

(** ** The extract worker ([extraction.py]) *)

Module extraction.
Section worker.
Context `{Externals}.
Variable worker_id : string.

(** Unused by the worker loop. *)
Definition is_processed (w : world) (file_path : string) : bool :=
  match DocumentDBHandler.get_document_status (db w) file_path with
  | Some status =>
      bool_decide (status = "processed") || bool_decide (status = "error")
  | None => false
  end.

Definition mark_as_processed (now : Z) (file_path status : string)
    (error_message : option string) : M unit :=
  db_update now file_path status error_message.

(** The keys copied from the document's own metadata. *)
Definition doc_meta_keys : list string :=
  ["title"; "author"; "subject"; "keywords"; "creator"; "producer";
   "creation_date"; "modified_date"; "language"].

Definition extract_metadata (now : Z) (document : Document)
    (file_path : string) (trace_id : string) : M (gmap string pyval) :=
  file_size <~ external (getsize file_path) ;
  let metadata : gmap string pyval :=
    <["file_size" := VInt file_size]>
      (<["extraction_date" := VStr (isoformat now)]>
         (<["file_type" :=
              VStr (match snd (os_path.splitext file_path) with
                    | String _ ext => ext
                    | EmptyString => ""
                    end)]>
            (<["file_name" := VStr (os_path.basename file_path)]>
               (<["file_path" := VStr file_path]> ∅)))) in
  let metadata :=
    if truthy (Some trace_id)
    then <["trace_id" := VStr trace_id]> metadata else metadata in
  let metadata :=
    match doc_metadata document with
    | Some doc_meta => foldl (copy_key doc_meta) metadata doc_meta_keys
    | None => metadata
    end in
  let metadata :=
    match metadata !! "title" with
    | Some title =>
        if pytruthy title then metadata
        else <["title" :=
                 VStr (fst (os_path.splitext (os_path.basename file_path)))]>
               metadata
    | None =>
        <["title" :=
            VStr (fst (os_path.splitext (os_path.basename file_path)))]>
          metadata
    end in
  ret metadata.

Definition rpush_REDIS_QUEUE (payload : chunk_job) : M unit :=
  effectful (λ w,
    log (RpushChunking payload)
        (set_REDIS_QUEUE (Redis.rpush (REDIS_QUEUE w) payload) w)).

Definition process_extraction_job (now : Z) (job_data : extract_job)
    : M bool :=
  let trace_id := ej_trace_id job_data in
  let file_path := ej_file_path job_data in
  let filename := ej_filename job_data in
  try_except
    (_ <~ db_update now file_path "processing" None ;
     document <~ external (convert file_path) ;
     match document with
     | None =>
         let error_msg := "Failed to convert document - no document returned" in
         _ <~ db_update now file_path "error" (Some error_msg) ;
         ret false
     | Some document =>
         metadata <~ extract_metadata now document file_path trace_id ;
         let payload :=
           ChunkJob trace_id file_path filename (Some document)
                    (export_to_markdown document) metadata "json" now
                    worker_id in
         _ <~ rpush_REDIS_QUEUE payload ;
         _ <~ db_update now file_path "processed" None ;
         _ <~ redis_delete (lock_key filename) ;
         ret true
     end)
    (λ e,
       let error_msg := "Exception during processing: " ++ e in
       _ <~ db_update now file_path "error" (Some error_msg) ;
       _ <~ redis_delete (lock_key filename) ;
       ret false).

(** One turn of the [while] loop of [process_extraction_queue]: the
    blocking pop, then the job if one was received. *)
Definition process_extraction_queue_turn (now : Z) : M (option bool) :=
  λ w,
    match Redis.brpop (EXTRACTION_JOBS w) with
    | Some (job_data, rest) =>
        bind (process_extraction_job now job_data) (λ b, ret (Some b))
             (log BrpopExtraction (set_EXTRACTION_JOBS rest w))
    | None => (Return None, w)
    end.

End worker.
End extraction.


(** ** The chunk worker ([chunking.py]) *)

Module chunking.
Section worker.
Context `{Externals}.
Variable worker_id : string.

Definition chunk_document (now : Z) (document : Document)
    (file_path trace_id : string) (metadata : gmap string pyval)
    : M (list string * gmap string pyval) :=
  chunks <~ external (chunker document) ;
  let update (m : gmap string pyval) : gmap string pyval :=
    <["chunking_time" := VStr (strftime now)]>
      (<["chunking_timestamp" := VFloat now]>
         (<["chunks_count" := VInt (Z.of_nat (List.length chunks))]> m)) in
  let processed_metadata :=
    if nonempty metadata then update metadata
    else update (<["file_path" := VStr file_path]> ∅) in
  ret (chunks, processed_metadata).

Definition save_chunks (file_path : string) (chunks : list string)
    (metadata : gmap string pyval) (trace_id : string) : M string :=
  let base_filename := os_path.basename file_path in
  let output_file :=
    os_path.join PROCESSED_DIR (base_filename ++ "_chunks.json") in
  _ <~ effectful (λ w,
         log (WriteChunks output_file)
             (set_staging
                (<[output_file := ChunksFile (ChunkStr <$> chunks) metadata]>
                   (staging w)) w)) ;
  ret output_file.

Definition add_to_embedding_queue (chunks_file : string)
    (metadata : gmap string pyval) (trace_id : string) : M unit :=
  let queue_item := EmbedJob chunks_file metadata in
  effectful (λ w,
    log (RpushEmbedding queue_item)
        (set_EMBEDDING_QUEUE (Redis.rpush (EMBEDDING_QUEUE w) queue_item) w)).

Definition process_chunking_job (now : Z) (job_data : chunk_job) : M bool :=
  let trace_id := cj_trace_id job_data in
  let file_path := cj_file_path job_data in
  try_except
    (let metadata := cj_metadata job_data in
     document <~
       match cj_document_json job_data with
       | None => external (convert_markdown (cj_markdown_output job_data))
       | Some document => ret document
       end ;
     chunked <~ chunk_document now document file_path trace_id metadata ;
     chunks_file <~ save_chunks file_path (fst chunked) (snd chunked) trace_id ;
     _ <~ add_to_embedding_queue chunks_file (snd chunked) trace_id ;
     ret true)
    (λ e, ret false).

Definition process_chunking_queue_turn (now : Z) : M (option bool) :=
  λ w,
    match Redis.brpop (REDIS_QUEUE w) with
    | Some (job_data, rest) =>
        bind (process_chunking_job now job_data) (λ b, ret (Some b))
             (log BrpopChunking (set_REDIS_QUEUE rest w))
    | None => (Return None, w)
    end.

End worker.
End chunking.

(** ** The vector store ([mongodb_helper.py]) *)

Module MongoDBHelper.

(** [store_embeddings]: [update_one] with [upsert=True] on the
    [document_id] field, setting every field of the record.  The answer
    stands for the identifier the store reports (the callers only collect
    it). *)
Definition store_embeddings (now : Z) (document_id : string)
    (metadata : gmap string pyval) (embedded_chunks : list chunk_document)
    (count dimensions : Z) (model : pyval) : M string :=
  let document :=
    VectorRecord document_id metadata count dimensions model
                 embedded_chunks now "mongodb" in
  _ <~ effectful (λ w,
         log (MongoUpsert document_id)
             (set_collection (<[document_id := document]> (collection w)) w)) ;
  ret document_id.

End MongoDBHelper.

(** ** The embed worker ([embedding.py]) *)

Module embedding.
Section worker.
Context `{Externals}.
Variable worker_id : string.

(** The default of [Embedder.__init__], used by [process_embedding_queue]. *)
Definition model_name : string := "all-mpnet-base-v2".

(** [f"doc_{hash(doc_path) % 10000000:07d}"]; a list is unhashable. *)
Definition derive_document_id (doc_path : pyval) : M pyval :=
  match doc_path with
  | VVec _ => raise "unhashable type: 'list'"
  | _ => ret (VStr ("doc_" ++ format_07d (py_hash doc_path mod 10000000)))
  end.

(** The text handed to the model for one chunk. *)
Definition chunk_text (c : chunk) : pyval :=
  match c with
  | ChunkDict d =>
      match d !! "text" with
      | Some v => v
      | None => VStr (repr_dict d)
      end
  | ChunkStr s => VStr s
  end.

Definition important_fields : list string :=
  ["file_path"; "title"; "author"; "date"; "source"; "url";
   "doc_type"; "category"; "tags"; "language"].

(** The body of the second loop of [embed_chunks] for chunk [i]. *)
Definition enrich (now : Z) (metadata : gmap string pyval)
    (embeddings : list (list Z)) (i : nat) (c : chunk)
    : M (gmap string pyval) :=
  let enriched_chunk : gmap string pyval :=
    match c with
    | ChunkDict d => d
    | ChunkStr s => <["text" := VStr s]> ∅
    end in
  match embeddings !! i with
  | None => raise "index out of bounds"
  | Some e =>
      let enriched_chunk :=
        <["embedding_date" := VStr (isoformat now)]>
          (<["embedding_timestamp" := VFloat now]>
             (<["embedding_model" := VStr model_name]>
                (<["embedding" := VVec e]> enriched_chunk))) in
      if nonempty metadata then
        let enriched_chunk :=
          foldl (copy_key metadata) enriched_chunk important_fields in
        match metadata !! "document_id" with
        | Some v => ret (<["document_id" := v]> enriched_chunk)
        | None =>
            match metadata !! "file_path" with
            | Some doc_path =>
                v <~ derive_document_id doc_path ;
                ret (<["document_id" := v]> enriched_chunk)
            | None => ret enriched_chunk
            end
        end
      else ret enriched_chunk
  end.

Fixpoint enrich_from (now : Z) (metadata : gmap string pyval)
    (embeddings : list (list Z)) (i : nat) (chunks : list chunk)
    : M (list (gmap string pyval)) :=
  match chunks with
  | [] => ret []
  | c :: rest =>
      e <~ enrich now metadata embeddings i c ;
      es <~ enrich_from now metadata embeddings (S i) rest ;
      ret (e :: es)
  end.

Definition embed_chunks (now : Z) (chunks : list chunk)
    (metadata : gmap string pyval) : M (list (gmap string pyval)) :=
  let texts := chunk_text <$> chunks in
  let embeddings := encode texts in
  enrich_from now metadata embeddings 0 chunks.

(** [load_chunks_file] on a staging file written by the chunk stage. *)
Definition load_chunks_file (chunks_file : string)
    : M (list chunk * gmap string pyval) :=
  λ w,
    match staging w !! chunks_file with
    | None => (Raise "No such file or directory", w)
    | Some data =>
        let metadata := cf_metadata data in
        let metadata :=
          match metadata !! "file_path" with
          | Some _ => metadata
          | None => <["file_path" := VStr chunks_file]> metadata
          end in
        (Return (cf_chunks data, metadata), w)
    end.

(** The record key of chunk [i] of a document. *)
Definition record_key (doc_id : pyval) (i : nat) : string :=
  py_str doc_id ++ "_" ++ py_str_int (Z.of_nat i).

(** The body of the loop of [save_to_mongodb] for chunk [i]. *)
Definition save_chunk (now : Z) (metadata : gmap string pyval)
    (doc_id : pyval) (i : nat) (chunk : gmap string pyval) : M string :=
  let chunk_metadata :=
    <["document_id" := doc_id]>
      (<["chunk_index" := VInt (Z.of_nat i)]> metadata) in
  let embedding_model :=
    default (default (VStr "all-MiniLM-L6-v2") (metadata !! "embedding_model"))
            (chunk !! "embedding_model") in
  match chunk !! "embedding" with
  | Some (VVec embedding) =>
      let chunk_document :=
        ChunkDocument (default (VStr "") (chunk !! "text")) embedding
          embedding_model
          (default (VFloat now) (chunk !! "embedding_timestamp"))
          (default (VStr (isoformat now)) (chunk !! "embedding_date"))
          chunk_metadata in
      MongoDBHelper.store_embeddings now (record_key doc_id i)
        chunk_metadata [chunk_document] 1
        (Z.of_nat (List.length embedding))
        (default (VStr "all-MiniLM-L6-v2") (chunk !! "embedding_model"))
  | _ => raise "'embedding'"
  end.

Fixpoint save_from (now : Z) (metadata : gmap string pyval)
    (doc_id : pyval) (i : nat) (embedded_chunks : list (gmap string pyval))
    : M (list string) :=
  match embedded_chunks with
  | [] => ret []
  | chunk :: rest =>
      r <~ save_chunk now metadata doc_id i chunk ;
      rs <~ save_from now metadata doc_id (S i) rest ;
      ret (r :: rs)
  end.

Definition save_to_mongodb (now : Z)
    (embedded_chunks : list (gmap string pyval))
    (metadata : gmap string pyval) : M (list string) :=
  let file_path := default (VStr "unknown") (metadata !! "file_path") in
  doc_id <~
    match metadata !! "document_id" with
    | None => derive_document_id file_path
    | Some v => ret v
    end ;
  let metadata := <["document_id" := doc_id]> metadata in
  save_from now metadata doc_id 0 embedded_chunks.

(** The metadata the job is processed with. *)
Definition combine_metadata (metadata file_metadata : gmap string pyval)
    : gmap string pyval :=
  let combined_metadata :=
    if nonempty metadata && nonempty file_metadata
    then metadata ∪ file_metadata
    else if nonempty metadata then metadata
    else if nonempty file_metadata then file_metadata
    else ∅ in
  <["embedding_model" := VStr model_name]> combined_metadata.

Definition process_embedding_job (now : Z) (job_data : embed_job) : M bool :=
  let chunks_file := mj_chunks_file job_data in
  let metadata := mj_metadata job_data in
  try_except
    (loaded <~ load_chunks_file chunks_file ;
     let combined_metadata := combine_metadata metadata (snd loaded) in
     embedded_chunks <~ embed_chunks now (fst loaded) combined_metadata ;
     _ <~ save_to_mongodb now embedded_chunks combined_metadata ;
     ret true)
    (λ e, ret false).

Definition process_embedding_queue_turn (now : Z) : M (option bool) :=
  λ w,
    match Redis.brpop (EMBEDDING_QUEUE w) with
    | Some (job_data, rest) =>
        bind (process_embedding_job now job_data) (λ b, ret (Some b))
             (log BrpopEmbedding (set_EMBEDDING_QUEUE rest w))
    | None => (Return None, w)
    end.

End worker.
End embedding.

(** ** The supervisor ([run_platform.py]) *)

Module BackendPipeline.

(** [config/worker_config.py]. *)
Record worker_config := WorkerConfig {
  extraction_workers : nat;
  chunking_workers : nat;
  embedding_workers : nat
}.
Definition WORKER_CONFIG : worker_config := WorkerConfig 3 2 2.
Definition MANAGER_SCAN_INTERVAL : Z := 30.
Definition EXTRACTION_LOCK_TTL : Z := 300.

(** An entry of [self.processes]: the child (its pid), and what is needed
    to start it again. *)
Record proc_info := ProcInfo {
  process : Z;
  name : string;
  worker_id : option string;
  command : string;
  log_file : string
}.

(** What the supervisor does to the outside. *)
Inductive event :=
| Popen (full_command : string) (log : string) (pid : Z)
| ExitWarning (display_name : string) (exit_code : Z)
| LogClosed (log : string)
| Terminate (pid : Z).

(** The supervisor: [self.processes] in insertion order, [self.running],
    the constructor's arguments, the next pid the system hands out, and
    the events so far. *)
Record pipeline := Pipeline {
  processes : list (string * proc_info);
  running : bool;
  base_dir : string;
  venv_path : option string;
  redis_port : Z;
  timestamp : string;
  config : worker_config;
  next_pid : Z;
  events : list event
}.

Definition set_processes (ps : list (string * proc_info)) (p : pipeline)
    : pipeline :=
  Pipeline ps (running p) (base_dir p) (venv_path p) (redis_port p)
           (timestamp p) (config p) (next_pid p) (events p).

Definition set_running (b : bool) (p : pipeline) : pipeline :=
  Pipeline (processes p) b (base_dir p) (venv_path p) (redis_port p)
           (timestamp p) (config p) (next_pid p) (events p).

Definition emit (e : event) (p : pipeline) : pipeline :=
  Pipeline (processes p) (running p) (base_dir p) (venv_path p)
           (redis_port p) (timestamp p) (config p) (next_pid p)
           (events p ++ [e]).

Definition spawned (p : pipeline) : pipeline :=
  Pipeline (processes p) (running p) (base_dir p) (venv_path p)
           (redis_port p) (timestamp p) (config p) (next_pid p + 1)
           (events p).

(** Dictionary operations on an insertion-ordered table. *)
Fixpoint dict_set {V} (k : string) (v : V) (l : list (string * V))
    : list (string * V) :=
  match l with
  | [] => [(k, v)]
  | (k', v') :: r =>
      if String.eqb k k' then (k, v) :: r else (k', v') :: dict_set k v r
  end.

Fixpoint dict_del {V} (k : string) (l : list (string * V))
    : list (string * V) :=
  match l with
  | [] => []
  | (k', v') :: r =>
      if String.eqb k k' then r else (k', v') :: dict_del k r
  end.

Fixpoint dict_get {V} (k : string) (l : list (string * V)) : option V :=
  match l with
  | [] => None
  | (k', v') :: r => if String.eqb k k' then Some v' else dict_get k r
  end.

Definition display_name (name : string) (worker_id : option string)
    : string :=
  match worker_id with
  | Some w => if truthy worker_id then name ++ "[" ++ w ++ "]" else name
  | None => name
  end.

(** The key of a component in [self.processes]. *)
Definition process_key (name : string) (worker_id : option string)
    : string :=
  match worker_id with
  | Some w => if truthy worker_id then name ++ ":" ++ w else name
  | None => name
  end.

Definition log_name (p : pipeline) (name : string)
    (worker_id : option string) : string :=
  match worker_id with
  | Some w =>
      if truthy worker_id then name ++ "_" ++ w ++ "_" ++ timestamp p ++ ".log"
      else name ++ "_" ++ timestamp p ++ ".log"
  | None => name ++ "_" ++ timestamp p ++ ".log"
  end.

Section supervisor.
(** Whether opening the log and spawning the command succeeds. *)
Variable popen_ok : string → bool.

Definition start_component (p : pipeline) (name command : string)
    (worker_id : option string) : pipeline * bool :=
  let component_log := log_name p name worker_id in
  let full_command :=
    match venv_path p with
    | Some v =>
        if truthy (venv_path p)
        then ". " ++ v ++ " && export PYTHONPATH=" ++ base_dir p
                  ++ " && " ++ command
        else command
    | None => command
    end in
  if popen_ok full_command then
    let pid := next_pid p in
    let p1 := spawned (emit (Popen full_command component_log pid) p) in
    (set_processes
       (dict_set (process_key name worker_id)
                 (ProcInfo pid name worker_id command component_log)
                 (processes p1)) p1, true)
  else (p, false).

(** The body of the [for] loop of [monitor] for one entry of the
    snapshot; [poll] is what [process.poll()] answers for a pid. *)
Definition monitor_entry (poll : Z → option Z) (p : pipeline)
    (entry : string * proc_info) : pipeline :=
  let '(key, proc_info) := entry in
  match poll (process proc_info) with
  | None => p
  | Some exit_code =>
      let p :=
        if (exit_code =? 0)%Z then p
        else emit (ExitWarning
                     (display_name (name proc_info) (worker_id proc_info))
                     exit_code) p in
      if String.eqb (name proc_info) "redis" then p
      else
        let p := emit (LogClosed (log_file proc_info)) p in
        let p := set_processes (dict_del key (processes p)) p in
        fst (start_component p (name proc_info) (command proc_info)
                             (worker_id proc_info))
  end.

(** One pass of the [while] loop of [monitor] over
    [list(self.processes.items())]. *)
Definition monitor_pass (poll : Z → option Z) (p : pipeline) : pipeline :=
  foldl (monitor_entry poll) p (processes p).

(** [shutdown]. *)
Definition shutdown (p : pipeline) : pipeline :=
  foldl (λ p (entry : string * proc_info),
           emit (LogClosed (log_file (snd entry)))
                (emit (Terminate (process (snd entry))) p))
        (set_running false p) (processes p).

(** What happens between two sleeps of the monitor: the children are
    polled, or a termination signal arrives. *)
Inductive tick :=
| Poll (poll : Z → option Z)
| Signal.

(** [monitor]: passes while [self.running]; the signal handler runs
    [shutdown] and leaves the program. *)
Fixpoint monitor (ticks : list tick) (p : pipeline) : pipeline :=
  match ticks with
  | [] => p
  | Poll poll :: rest =>
      if running p then monitor rest (monitor_pass poll p) else p
  | Signal :: _ => shutdown p
  end.

Definition start_redis (p : pipeline) : pipeline :=
  let pid := next_pid p in
  let log := "redis_" ++ timestamp p ++ ".log" in
  let p1 :=
    spawned (emit (Popen ("redis-server --port " ++ py_str_int (redis_port p))
                         log pid) p) in
  set_processes
    (dict_set "redis" (ProcInfo pid "redis" None "redis-server" log)
              (processes p1)) p1.

Definition start_extraction_manager (p : pipeline) : pipeline * bool :=
  start_component p "extraction-manager"
    ("python3 document_ingestion_platform/ingest_tools/extraction_manager.py "
     ++ "--scan-interval " ++ py_str_int MANAGER_SCAN_INTERVAL ++ " "
     ++ "--lock-ttl " ++ py_str_int EXTRACTION_LOCK_TTL)
    None.

(** A worker pool: [num_workers] children of one stage. *)
Definition start_workers (stage script : string) (num_workers : nat)
    (p : pipeline) : pipeline :=
  foldl (λ p i,
           let worker_id := stage ++ "-" ++ py_str_int (Z.of_nat i) in
           fst (start_component p stage
                  ("python3 document_ingestion_platform/ingest_tools/"
                   ++ script ++ " --worker-id " ++ worker_id)
                  (Some worker_id)))
        p (seq 0 num_workers).

(** [start_pipeline] with a broker that starts. *)
Definition start_pipeline (p : pipeline) : pipeline * bool :=
  let p := set_running true p in
  let p := start_redis p in
  let '(p, ok) := start_extraction_manager p in
  if ok then
    let p := start_workers "extraction-worker" "extraction.py"
               (extraction_workers (config p)) p in
    let p := start_workers "chunking-worker" "chunking.py"
               (chunking_workers (config p)) p in
    let p := start_workers "embedding-worker" "embedding.py"
               (embedding_workers (config p)) p in
    (p, true)
  else (p, false).

End supervisor.

(** The supervisor as [__init__] leaves it. *)
Definition init (base_dir : string) (venv_path : option string)
    (redis_port : Z) (timestamp : string) : pipeline :=
  Pipeline [] false base_dir venv_path redis_port timestamp WORKER_CONFIG
           1000 [].

End BackendPipeline.

(** ** A concrete set of collaborators

    One library directory, a converter that returns no document for
    [/lib/empty.pdf], raises for [/lib/broken.pdf] and converts anything
    else, a chunker giving two chunks, a three-dimensional embedding model,
    and the given string hash. *)

Definition sample_document : Document :=
  {| doc_metadata := None; export_to_dict := "{}"; export_to_markdown := "# a" |}.

Definition sample_externals (hash : pyval → Z) : Externals := {|
  MASTER_LIBRARY := "/lib";
  PROCESSED_DIR := "/processed";
  generate_trace_id := λ n, "trace-" ++ py_str_int (Z.of_nat n);
  convert := λ p,
    if String.eqb p "/lib/empty.pdf" then inr None
    else if String.eqb p "/lib/broken.pdf" then inl "cannot read"
    else inr (Some sample_document);
  convert_markdown := λ _, inr sample_document;
  getsize := λ _, inr 1024%Z;
  chunker := λ _, inr ["alpha"; "beta"];
  encode := λ texts, (λ _, [0; 0; 0]%Z) <$> texts;
  py_hash := hash;
  str_float := λ _, "0.0";
  repr_dict := λ _, "{}";
  isoformat := λ _, "2024-01-01T00:00:00";
  strftime := λ _, "2024-01-01 00:00:00"
|}.

(** Two interpreters' string hashes, as two worker processes have them. *)
Definition hash_of_process_0 (v : pyval) : Z :=
  match v with VStr s => 1234567 + Z.of_nat (String.length s) | _ => 0 end.

Definition hash_of_process_1 (v : pyval) : Z :=
  match v with VStr s => 7654321 + Z.of_nat (String.length s) | _ => 0 end.

(** * Properties *)

(** ** Dictionaries *)

Lemma copy_fold_other (src dst : gmap string pyval) keys k :
  k ∉ keys → foldl (copy_key src) dst keys !! k = dst !! k.
Proof.
  revert dst. induction keys as [|key keys IH]; intros dst Hk; [done|].
  apply not_elem_of_cons in Hk as [Hne Hk]. cbn. rewrite IH by done.
  unfold copy_key. destruct (src !! key); [|done].
  by rewrite lookup_insert_ne.
Qed.

Lemma title_step_other (m : gmap string pyval) v k :
  k ≠ "title" →
  match m !! "title" with
  | Some title => if pytruthy title then m else <["title" := v]> m
  | None => <["title" := v]> m
  end !! k = m !! k.
Proof.
  intros Hk. destruct (m !! "title") as [title|];
    [destruct (pytruthy title); [done|]|]; by rewrite lookup_insert_ne.
Qed.

Lemma truthy_nonempty t : t ≠ "" → truthy (Some t) = true.
Proof. intros Ht. cbn. by apply String.eqb_neq in Ht as ->. Qed.

Ltac not_among := refine (bool_decide_unpack _ _); vm_compute; exact I.

Lemma nonempty_lookup (m : gmap string pyval) k v :
  m !! k = Some v → nonempty m = true.
Proof.
  intros Hk. unfold nonempty. destruct (size m) eqn:Hs; [|done].
  apply map_size_empty_iff in Hs. subst. by rewrite lookup_empty in Hk.
Qed.

(** ** Decimal formatting *)

(** Reading a string of decimal digits back as a number. *)
Definition decode (s : string) : option N :=
  N.of_uint <$> NilEmpty.uint_of_string s.

Lemma decode_string_of_uint d :
  decode (NilZero.string_of_uint d) = Some (N.of_uint d).
Proof.
  unfold decode. destruct d; try reflexivity;
    unfold NilZero.string_of_uint; by rewrite NilEmpty.usu.
Qed.

Lemma decode_zeros k s : decode (zeros k ++ s) = decode s.
Proof.
  induction k as [|k IH]; [done|]. rewrite <- IH. unfold decode.
  change (zeros (S k) ++ s) with (String "0" (zeros k ++ s)).
  cbn [NilEmpty.uint_of_string].
  by destruct (NilEmpty.uint_of_string (zeros k ++ s)).
Qed.

Lemma format_07d_nonneg n :
  (0 ≤ n)%Z →
  format_07d n
  = zeros (7 - String.length (NilZero.string_of_uint (N.to_uint (Z.abs_N n))))
    ++ NilZero.string_of_uint (N.to_uint (Z.abs_N n)).
Proof.
  intros Hn. unfold format_07d.
  assert ((n <? 0)%Z = false) as -> by lia. reflexivity.
Qed.

Lemma decode_format_07d n : (0 ≤ n)%Z → decode (format_07d n) = Some (Z.to_N n).
Proof.
  intros Hn. rewrite format_07d_nonneg by done.
  rewrite decode_zeros, decode_string_of_uint, Unsigned.of_to.
  f_equal. lia.
Qed.

Lemma format_07d_inj a b :
  (0 ≤ a)%Z → (0 ≤ b)%Z → format_07d a = format_07d b → a = b.
Proof.
  intros Ha Hb Heq.
  pose proof (decode_format_07d a Ha) as Hda.
  rewrite Heq, (decode_format_07d b Hb) in Hda. injection Hda. lia.
Qed.

Lemma digits_no_underscore d :
  os_path.contains "_" (NilZero.string_of_uint d) = false.
Proof.
  assert (os_path.contains "_" (NilEmpty.string_of_uint d) = false) as Hd
    by (induction d; cbn; done).
  by destruct d.
Qed.

Lemma zeros_no_underscore k s :
  os_path.contains "_" (zeros k ++ s) = os_path.contains "_" s.
Proof. induction k as [|k IH]; [done|]. cbn. exact IH. Qed.

Lemma format_07d_no_underscore n :
  (0 ≤ n)%Z → os_path.contains "_" (format_07d n) = false.
Proof.
  intros Hn. rewrite format_07d_nonneg by done.
  rewrite zeros_no_underscore. apply digits_no_underscore.
Qed.

Lemma split_at_underscore s1 s2 t1 t2 :
  os_path.contains "_" s1 = false → os_path.contains "_" s2 = false →
  s1 ++ "_" ++ t1 = s2 ++ "_" ++ t2 → s1 = s2.
Proof.
  revert s2. induction s1 as [|c s1 IH]; intros [|c2 s2] H1 H2 Heq; cbn in *.
  - done.
  - injection Heq as <- _. cbn in H2. done.
  - injection Heq as -> _. cbn in H1. done.
  - injection Heq as -> Heq.
    apply orb_false_iff in H1 as [_ H1]. apply orb_false_iff in H2 as [_ H2].
    f_equal. by apply IH.
Qed.

(** ** Status store *)

Module DocumentDBHandlerFacts.
Import DocumentDBHandler.

Lemma set_status_filename now st err r :
  filename (set_status now st err r) = filename r.
Proof. unfold set_status. by destruct (truthy err). Qed.


Lemma update_filenames now d fpath st err :
  filename <$> rows (fst (update_document_status now d fpath st err))
  = filename <$> rows d.
Proof.
  cbn. rewrite <- list_fmap_compose. apply list_fmap_ext.
  intros i r _. cbn. case_bool_decide; [apply set_status_filename | done].
Qed.

Lemma add_document_known now d fname fpath st tr :
  fname ∈ filename <$> rows d →
  add_document now d fname fpath st tr
  = (Db (rows d) (autoinc d + 1), true).
Proof. intros Hin. unfold add_document. by rewrite bool_decide_eq_true_2. Qed.


Lemma exec_NoDup d c :
  NoDup (filename <$> rows d) → NoDup (filename <$> rows (exec d c)).
Proof.
  intros Hd. destruct c as [now fname fpath st tr|now fpath st err|[|]].
  - cbn. unfold add_document. case_bool_decide as Hin; cbn; [done|].
    rewrite fmap_app. apply NoDup_app. split; [done|]. split.
    + intros x Hx Hx'. cbn in Hx'. apply list_elem_of_singleton in Hx'.
      by subst.
    + apply NoDup_singleton.
  - unfold exec. by rewrite update_filenames.
  - apply NoDup_nil_2.
  - done.
Qed.

Lemma run_NoDup cs d :
  NoDup (filename <$> rows d) → NoDup (filename <$> rows (run cs d)).
Proof.
  revert d. induction cs as [|c cs IH]; intros d Hd; [done|].
  cbn. apply IH. by apply exec_NoDup.
Qed.

Lemma record_of_elem d fname r :
  record_of d fname = Some r → r ∈ rows d ∧ filename r = fname.
Proof.
  unfold record_of. intros Hr.
  destruct (list_find _ (rows d)) as [[i r']|] eqn:Hf; [|done].
  cbn in Hr. injection Hr as ->.
  apply list_find_Some in Hf as (Hi & Hn & _).
  split; [by eapply list_elem_of_lookup_2|done].
Qed.

Lemma record_of_known d fname r :
  record_of d fname = Some r → fname ∈ filename <$> rows d.
Proof.
  intros Hr. apply record_of_elem in Hr as [Hin <-].
  by apply list_elem_of_fmap_2.
Qed.




(** C6, as stated, fails: the uniqueness constraint is on [filename], so
    two additions under different file names give two records with one
    [filepath], and the second addition is not a no-op. *)
Lemma add_document_duplicate_filepath :
  let d1 := fst (add_document 0 create_tables
                   "a.pdf" "/lib/x.pdf" "queued" (Some "t1")) in
  let d2 := fst (add_document 1 d1
                   "b.pdf" "/lib/x.pdf" "queued" (Some "t2")) in
  "/lib/x.pdf" ∈ filepath <$> rows d1
  ∧ d2 ≠ d1
  ∧ ¬ NoDup (filepath <$> rows d2).
Proof.
  cbn. split; [by apply list_elem_of_here|]. split; [done|].
  intros Hnd. apply NoDup_cons in Hnd as [Hnot _].
  apply Hnot. by apply list_elem_of_here.
Qed.

(** C6 (amended): the status store enforces uniqueness on [filename]:
    after every sequence of calls on a new store at most one record
    exists per filename, and an addition under a filename that already
    has a record answers [True] and leaves every row as it was, so the
    earlier record, with its trace id, is the record of that filename
    afterwards; the skipped insertion only consumes a value of the
    AUTOINCREMENT counter. *)
Theorem add_document_unique_filename (cs : list call) :
  let d := run cs create_tables in
  NoDup (filename <$> rows d)
  ∧ ∀ now fname fpath st tr r,
      record_of d fname = Some r →
      let d' := fst (add_document now d fname fpath st tr) in
      snd (add_document now d fname fpath st tr) = true
      ∧ rows d' = rows d
      ∧ autoinc d' = (autoinc d + 1)%Z
      ∧ record_of d' fname = Some r.
Proof.
  cbn zeta. split.
  - apply run_NoDup. cbn. apply NoDup_nil_2.
  - intros now fname fpath st tr r Hr.
    rewrite add_document_known by (by eapply record_of_known).
    cbn [fst snd rows autoinc]. split; [done|]. split; [done|].
    split; [done|]. exact Hr.
Qed.

Lemma add_document_unique_filename_witness :
  let d := run [Add 0 "a.pdf" "/lib/a.pdf" "queued" (Some "t1")]
               create_tables in
  let d' := fst (add_document 5 d "a.pdf" "/other/a.pdf" "queued"
                   (Some "t2")) in
  NoDup (filename <$> rows d)
  ∧ rows d' = rows d
  ∧ autoinc d' = 2%Z
  ∧ trace_id <$> record_of d' "a.pdf" = Some (Some "t1").
Proof.
  pose proof (add_document_unique_filename
                [Add 0 "a.pdf" "/lib/a.pdf" "queued" (Some "t1")]) as [Hnd Hadd].
  split; [exact Hnd|].
  destruct (Hadd 5%Z "a.pdf" "/other/a.pdf" "queued" (Some "t2")
              (Row 1 "a.pdf" "/lib/a.pdf" "queued" (Some "t1") None None 0)
              eq_refl) as (_ & H1 & H2 & H3).
  split; [exact H1|]. split; [exact H2|].
  cbn zeta in H3. by rewrite H3.
Defined.

(** C9, as stated, fails: an update without an error message leaves the
    message of an earlier failure in the record instead of null. *)
Lemma update_keeps_stale_error_message :
  let d := run [Add 0 "a.pdf" "/lib/a.pdf" "queued" (Some "t");
                Update 1 "/lib/a.pdf" "error" (Some "boom")]
               create_tables in
  let d' := fst (update_document_status 2 d "/lib/a.pdf" "processing" None) in
  error_message <$> record_of d' "a.pdf" = Some (Some "boom")
  ∧ error_message <$> record_of d' "a.pdf" ≠ Some None.
Proof. by cbn. Qed.

(** C9 (amended): an update answers [True]; afterwards every record with
    the given filepath has the supplied status and the current time as
    processed_date; its error_message is the supplied one when that is a
    non-empty string and is the record's previous error_message when the
    argument is absent or empty; its other fields, and every other
    record, are unchanged. *)
Theorem update_document_status_effect now d fpath st err :
  let d' := fst (update_document_status now d fpath st err) in
  snd (update_document_status now d fpath st err) = true
  ∧ autoinc d' = autoinc d
  ∧ List.length (rows d') = List.length (rows d)
  ∧ ∀ i r, rows d !! i = Some r →
      ∃ r', rows d' !! i = Some r'
        ∧ (filepath r = fpath →
             status r' = st
             ∧ processed_date r' = Some now
             ∧ error_message r'
               = (if truthy err then err else error_message r)
             ∧ id r' = id r ∧ filename r' = filename r
             ∧ filepath r' = filepath r ∧ trace_id r' = trace_id r
             ∧ created_date r' = created_date r)
        ∧ (filepath r ≠ fpath → r' = r).
Proof.
  cbn. repeat split; [by rewrite length_fmap|].
  intros i r Hi. rewrite list_lookup_fmap, Hi. cbn.
  eexists. split; [done|]. split.
  - intros Hp. rewrite bool_decide_eq_true_2 by done.
    unfold set_status. by destruct (truthy err).
  - intros Hp. by rewrite bool_decide_eq_false_2.
Qed.

Lemma update_document_status_effect_witness :
  let d := run [Add 0 "a.pdf" "/lib/a.pdf" "queued" (Some "t")]
               create_tables in
  ∃ r', rows (fst (update_document_status 7 d "/lib/a.pdf" "error"
                     (Some "boom"))) !! 0%nat = Some r'
        ∧ status r' = "error" ∧ processed_date r' = Some 7%Z
        ∧ error_message r' = Some "boom" ∧ trace_id r' = Some "t".
Proof.
  destruct (update_document_status_effect 7%Z
              (run [Add 0 "a.pdf" "/lib/a.pdf" "queued" (Some "t")]
                   create_tables)
              "/lib/a.pdf" "error" (Some "boom")) as (_ & _ & _ & Hrows).
  destruct (Hrows 0%nat
              (Row 1 "a.pdf" "/lib/a.pdf" "queued" (Some "t") None None 0)
              eq_refl) as (r' & Hr' & Hupd & _).
  destruct (Hupd eq_refl) as (Hs & Hp & He & _ & _ & _ & Ht & _).
  exists r'. repeat split; assumption.
Defined.

(** C10: an update for a filepath that has no record answers [True] and
    leaves the store unchanged. *)
Theorem update_unregistered_is_silent now d fpath st err :
  fpath ∉ filepath <$> rows d →
  update_document_status now d fpath st err = (d, true).
Proof.
  intros Hnot. unfold update_document_status. destruct d as [rs n]. cbn in *.
  f_equal. f_equal.
  induction rs as [|r rs IH]; [done|]. cbn.
  apply not_elem_of_cons in Hnot as [Hr Hrs].
  rewrite bool_decide_eq_false_2 by done. f_equal. by apply IH.
Qed.

Lemma update_unregistered_is_silent_witness :
  let d := run [Add 0 "a.pdf" "/lib/a.pdf" "queued" (Some "t")]
               create_tables in
  update_document_status 3 d "/lib/zzz.pdf" "processing" None = (d, true).
Proof.
  apply (update_unregistered_is_silent 3%Z
           (run [Add 0 "a.pdf" "/lib/a.pdf" "queued" (Some "t")]
                create_tables)
           "/lib/zzz.pdf" "processing" None).
  cbn. intros Hin. apply list_elem_of_singleton in Hin. discriminate.
Defined.

End DocumentDBHandlerFacts.

(** ** Work queues and the extract worker *)

Module ExtractionFacts.
Import ExtractionManager extraction.

Lemma brpop_rpush {A} (l : list A) (x : A) :
  Redis.brpop (Redis.rpush l x) = Some (x, l).
Proof.
  unfold Redis.brpop, Redis.rpush. rewrite reverse_snoc.
  by rewrite reverse_involutive.
Qed.

Lemma blpop_rpush_empty {A} (x y : A) :
  Redis.blpop (Redis.rpush (Redis.rpush [] x) y) = Some (x, [y]).
Proof. done. Qed.

Lemma create_extraction_job_queue `{Externals} now w file_path filename tr :
  EXTRACTION_JOBS (create_extraction_job now w file_path filename tr)
  = Redis.rpush (EXTRACTION_JOBS w)
      (ExtractJob tr file_path filename now now
         (<["source" := VStr "master_library"]>
            (<["manager_id" := VStr manager_id]> ∅))).
Proof. done. Qed.

(** C1 (as the code runs): the manager pushes with RPUSH and the worker
    pops with BRPOP, both at the tail.  When the manager creates the job
    of A and then the job of B, the single extract worker's first turn
    pops and processes the job of B, and its next pop yields the job of A;
    on the same two pushes the pop at the head, which the worker loop's
    documentation names, yields A first. *)
Theorem extract_queue_pops_newest_first `{Externals} (worker_id : string)
    (now now' : Z) (w : world)
    (pathA nameA traceA pathB nameB traceB : string) :
  let meta : gmap string pyval :=
    <["source" := VStr "master_library"]>
      (<["manager_id" := VStr manager_id]> ∅) in
  let jobA := ExtractJob traceA pathA nameA now now meta in
  let jobB := ExtractJob traceB pathB nameB now now meta in
  let w2 := create_extraction_job now
              (create_extraction_job now w pathA nameA traceA)
              pathB nameB traceB in
  Redis.brpop (EXTRACTION_JOBS w2)
  = Some (jobB, (EXTRACTION_JOBS w ++ [jobA])%list)
  ∧ process_extraction_queue_turn worker_id now' w2
    = bind (process_extraction_job worker_id now' jobB) (λ b, ret (Some b))
        (log BrpopExtraction
           (set_EXTRACTION_JOBS (EXTRACTION_JOBS w ++ [jobA])%list w2))
  ∧ Redis.brpop (EXTRACTION_JOBS w ++ [jobA])%list
    = Some (jobA, EXTRACTION_JOBS w)
  ∧ Redis.blpop (Redis.rpush (Redis.rpush [] jobA) jobB)
    = Some (jobA, [jobB]).
Proof.
  cbn zeta.
  assert (Redis.brpop
            (EXTRACTION_JOBS
               (create_extraction_job now
                  (create_extraction_job now w pathA nameA traceA)
                  pathB nameB traceB))
          = Some (ExtractJob traceB pathB nameB now now
                    (<["source" := VStr "master_library"]>
                       (<["manager_id" := VStr manager_id]> ∅)),
                  (EXTRACTION_JOBS w
                   ++ [ExtractJob traceA pathA nameA now now
                         (<["source" := VStr "master_library"]>
                            (<["manager_id" := VStr manager_id]> ∅))])%list))
    as Hpop.
  { rewrite !create_extraction_job_queue. apply brpop_rpush. }
  split; [exact Hpop|]. split; [|split].
  - unfold process_extraction_queue_turn. by rewrite Hpop.
  - apply (brpop_rpush (EXTRACTION_JOBS w)).
  - done.
Qed.

Section worker_facts.
Context `{Externals}.
Variable worker_id : string.

Definition no_document_message : string :=
  "Failed to convert document - no document returned".

(** C2 (as the code runs): when the conversion returns no document the
    worker sets the status to error and answers [False] at once: it
    pushes no chunk job, and it does not delete the claim lock, which
    stays as it was. *)
Theorem no_document_keeps_lock (now : Z) (job : extract_job) (w : world) :
  convert (ej_file_path job) = inr None →
  ∃ w', process_extraction_job worker_id now job w = (Return false, w')
    ∧ history w'
      = (history w
         ++ [DbUpdate (ej_file_path job) "processing" None;
             DbUpdate (ej_file_path job) "error"
                      (Some no_document_message)])%list
    ∧ REDIS_QUEUE w' = REDIS_QUEUE w
    ∧ redis_keys w' = redis_keys w.
Proof.
  intros Hconv. eexists.
  unfold process_extraction_job, try_except, bind, external.
  rewrite Hconv. cbn. split; [reflexivity|]. cbn.
  by rewrite <- app_assoc.
Qed.

(** The sibling path, an exception during the job, does release it. *)
Lemma exception_releases_lock (now : Z) (job : extract_job) (w : world) e :
  convert (ej_file_path job) = inl e →
  ∃ w', process_extraction_job worker_id now job w = (Return false, w')
    ∧ redis_keys w' !! lock_key (ej_filename job) = None.
Proof.
  intros Hconv. eexists.
  unfold process_extraction_job, try_except, bind, external.
  rewrite Hconv. cbn. split; [reflexivity|].
  unfold Redis.delete. apply lookup_delete_eq.
Qed.

Lemma extract_metadata_spec now document file_path tr w size :
  getsize file_path = inr size →
  ∃ metadata,
    extract_metadata now document file_path tr w = (Return metadata, w)
    ∧ metadata !! "file_path" = Some (VStr file_path)
    ∧ (tr ≠ "" → metadata !! "trace_id" = Some (VStr tr)).
Proof.
  intros Hsize. unfold extract_metadata, bind, external. rewrite Hsize.
  unfold ret. cbv zeta. eexists. split; [reflexivity|]. split.
  - rewrite title_step_other by done.
    assert (∀ m : gmap string pyval,
              m !! "file_path" = Some (VStr file_path) →
              match doc_metadata document with
              | Some doc_meta => foldl (copy_key doc_meta) m doc_meta_keys
              | None => m
              end !! "file_path" = Some (VStr file_path)) as Hcopy.
    { intros m Hm. destruct (doc_metadata document); [|done].
      rewrite copy_fold_other; [done|not_among]. }
    apply Hcopy. destruct (truthy (Some tr)); by simplify_map_eq.
  - intros Htr. rewrite title_step_other by done.
    rewrite (truthy_nonempty tr Htr).
    destruct (doc_metadata document);
      [rewrite copy_fold_other; [|not_among]|]; by simplify_map_eq.
Qed.




End worker_facts.

Lemma no_document_keeps_lock_witness :
  let E := sample_externals hash_of_process_0 in
  let job := ExtractJob "trace-0" "/lib/empty.pdf" "empty.pdf" 0 0 ∅ in
  let w := set_redis_keys
             (<[lock_key "empty.pdf" := ("extraction-manager", 300%Z)]> ∅)
             empty_world in
  ∃ w', @process_extraction_job E "extraction-worker-0" 1 job w
        = (Return false, w')
    ∧ redis_keys w' !! lock_key "empty.pdf"
      = Some ("extraction-manager", 300%Z)
    ∧ REDIS_QUEUE w' = [].
Proof.
  intros E job w.
  destruct (@no_document_keeps_lock E "extraction-worker-0" 1%Z job w eq_refl)
    as (w' & Hrun & _ & Hq & Hk).
  exists w'. split; [exact Hrun|]. rewrite Hk, Hq. split; reflexivity.
Defined.




End ExtractionFacts.

(** ** The manager's scan *)

Module ExtractionManagerFacts.
Import ExtractionManager extraction.

Lemma lock_key_inj a b : lock_key a = lock_key b → a = b.
Proof. unfold lock_key. cbn. intros Heq. by simplify_eq. Qed.

Lemma list_find_snoc_Some {A} (P : A → Prop) `{∀ x, Decision (P x)}
    (l : list A) (x : A) r :
  list_find P l = Some r → list_find P (l ++ [x]) = Some r.
Proof.
  revert r. induction l as [|a l IH]; intros r; [done|].
  cbn. case_decide; [done|].
  destruct (list_find P l) as [r'|] eqn:Hf; [|done].
  by rewrite (IH r' eq_refl).
Qed.

Lemma get_document_status_add now d fname fpath st tr fp s :
  DocumentDBHandler.get_document_status d fp = Some s →
  DocumentDBHandler.get_document_status
    (fst (DocumentDBHandler.add_document now d fname fpath st tr)) fp
  = Some s.
Proof.
  unfold DocumentDBHandler.get_document_status,
    DocumentDBHandler.add_document.
  intros Hs. case_bool_decide; cbn; [done|].
  destruct (list_find _ (DocumentDBHandler.rows d)) as [r|] eqn:Hf; [|done].
  by rewrite (list_find_snoc_Some _ _ _ r Hf).
Qed.

(** The effects that make up a dispatch of [filename]: taking its claim
    lock and pushing an extract job for it. *)
Definition dispatches (filename : string) (e : effect) : Prop :=
  match e with
  | RedisSetNx key _ => key = lock_key filename
  | RpushExtraction j => ej_filename j = filename
  | _ => False
  end.

(** What a part of a scan may do while it leaves [filename] alone. *)
Definition leaves_alone `{Externals} (filename : string) (w w' : world)
    : Prop :=
  (∃ jobs, EXTRACTION_JOBS w' = (EXTRACTION_JOBS w ++ jobs)%list
           ∧ Forall (λ j, ej_filename j ≠ filename) jobs)
  ∧ (∃ effects, history w' = (history w ++ effects)%list
                ∧ Forall (λ e, ¬ dispatches filename e) effects)
  ∧ redis_keys w' !! lock_key filename = redis_keys w !! lock_key filename
  ∧ is_file_processed w' (os_path.join MASTER_LIBRARY filename) = true.

Section scan.
Context `{Externals}.

Lemma leaves_alone_refl filename w :
  is_file_processed w (os_path.join MASTER_LIBRARY filename) = true →
  leaves_alone filename w w.
Proof.
  intros Hp. split; [|split; [|split]]; [exists []|exists []|done|done];
    by rewrite app_nil_r.
Qed.

Lemma leaves_alone_trans filename w1 w2 w3 :
  leaves_alone filename w1 w2 → leaves_alone filename w2 w3 →
  leaves_alone filename w1 w3.
Proof.
  intros ((j1 & Hj1 & Fj1) & (e1 & He1 & Fe1) & Hk1 & _)
         ((j2 & Hj2 & Fj2) & (e2 & He2 & Fe2) & Hk2 & Hp).
  repeat split.
  - exists (j1 ++ j2)%list. rewrite Hj2, Hj1, <- app_assoc.
    split; [done|]. by apply Forall_app.
  - exists (e1 ++ e2)%list. rewrite He2, He1, <- app_assoc.
    split; [done|]. by apply Forall_app.
  - by rewrite Hk2.
  - done.
Qed.

Lemma is_file_processed_create now w file_path filename tr fp :
  is_file_processed w fp = true →
  is_file_processed (create_extraction_job now w file_path filename tr) fp
  = true.
Proof.
  unfold is_file_processed. cbn.
  destruct (DocumentDBHandler.get_document_status (db w) fp) as [s|] eqn:Hs;
    [|done].
  intros Hin.
  by rewrite (get_document_status_add _ _ _ _ _ _ _ _ Hs).
Qed.

Lemma scan_file_leaves_alone now ttl filename w c name :
  is_file_processed w (os_path.join MASTER_LIBRARY filename) = true →
  leaves_alone filename w (fst (scan_file now ttl (w, c) name)).
Proof.
  intros Hp. unfold scan_file.
  destruct (endswith name ".pdf"); cbn [negb];
    [|by apply leaves_alone_refl].
  destruct (is_file_processed w (os_path.join MASTER_LIBRARY name)) eqn:Hn;
    [by apply leaves_alone_refl|].
  destruct (is_file_locked w name); [by apply leaves_alone_refl|].
  assert (name ≠ filename) as Hne by (intros ->; congruence).
  assert (lock_key name ≠ lock_key filename) as Hk
    by (intros Heq; by apply lock_key_inj in Heq).
  unfold claim_file, Redis.set_nx_ex.
  destruct (redis_keys w !! lock_key name) eqn:Hl; cbn.
  - split; [|split; [|split]];
      [exists []; by rewrite app_nil_r| |done|done].
    eexists. split; [done|]. apply Forall_singleton. cbn. congruence.
  - split; [|split; [|split]]; [| | |by apply is_file_processed_create];
      unfold create_extraction_job; cbn.
    + eexists. split; [done|]. by apply Forall_singleton.
    + eexists. rewrite <- !app_assoc. split; [done|].
      repeat apply Forall_cons_2; cbn; [congruence|tauto|congruence|].
      apply Forall_nil_2.
    + by rewrite lookup_insert_ne.
Qed.

Lemma scan_fold_leaves_alone now ttl filename names w c :
  is_file_processed w (os_path.join MASTER_LIBRARY filename) = true →
  leaves_alone filename w (fst (foldl (scan_file now ttl) (w, c) names)).
Proof.
  revert w c. induction names as [|name names IH]; intros w c Hp;
    [by apply leaves_alone_refl|].
  cbn [foldl].
  pose proof (scan_file_leaves_alone now ttl filename w c name Hp) as Hstep.
  destruct (scan_file now ttl (w, c) name) as [w1 c1] eqn:Hs.
  cbn [fst] in Hstep.
  eapply leaves_alone_trans; [exact Hstep|].
  apply IH. by destruct Hstep as (_ & _ & _ & Hp1).
Qed.

(** C3 (amended): the manager never dispatches a file whose status
    record is processed or processing: in every scan, for every such
    file, no claim is taken (no SET on its lock key, the key stays as
    it was) and no job for it is pushed on the extract queue. *)
Theorem scan_skips_processed now ttl listing w filename st :
  DocumentDBHandler.get_document_status (db w)
    (os_path.join MASTER_LIBRARY filename) = Some st →
  st = "processed" ∨ st = "processing" →
  let w' := fst (scan_master_library now ttl listing w) in
  (∃ jobs, EXTRACTION_JOBS w' = (EXTRACTION_JOBS w ++ jobs)%list
           ∧ Forall (λ j, ej_filename j ≠ filename) jobs)
  ∧ (∃ effects, history w' = (history w ++ effects)%list
                ∧ Forall (λ e, ¬ dispatches filename e) effects)
  ∧ redis_keys w' !! lock_key filename = redis_keys w !! lock_key filename.
Proof.
  intros Hs Hst. cbn zeta.
  assert (is_file_processed w (os_path.join MASTER_LIBRARY filename) = true)
    as Hp.
  { unfold is_file_processed. rewrite Hs. apply bool_decide_eq_true_2.
    destruct Hst as [-> | ->]; [left|right; left]. }
  assert (leaves_alone filename w
            (fst (scan_master_library now ttl listing w))) as Hl.
  { destruct listing as [names|]; cbn;
      [by apply scan_fold_leaves_alone|by apply leaves_alone_refl]. }
  destruct Hl as (Hj & He & Hk & _). done.
Qed.

(** A file whose record is error and whose lock is absent is claimed
    and dispatched by the scan's turn for it. *)
Lemma scan_file_dispatches_error now ttl w c filename :
  endswith filename ".pdf" = true →
  DocumentDBHandler.get_document_status (db w)
    (os_path.join MASTER_LIBRARY filename) = Some "error" →
  redis_keys w !! lock_key filename = None →
  let r := scan_file now ttl (w, c) filename in
  snd r = (c + 1)%Z
  ∧ is_Some (redis_keys (fst r) !! lock_key filename)
  ∧ ∃ job, EXTRACTION_JOBS (fst r) = (EXTRACTION_JOBS w ++ [job])%list
           ∧ ej_file_path job = os_path.join MASTER_LIBRARY filename.
Proof.
  intros Hpdf Hs Hl. unfold scan_file, is_file_processed, is_file_locked,
    Redis.exists_, claim_file, Redis.set_nx_ex.
  rewrite Hpdf, Hs, Hl.
  assert (bool_decide ("error" ∈ ["processed"; "processing"]) = false)
    as -> by (by vm_compute).
  cbn. split; [done|]. split.
  - rewrite lookup_insert_eq. by eexists.
  - by eexists.
Qed.

End scan.

Lemma scan_skips_processed_witness :
  let E := sample_externals hash_of_process_0 in
  let w := set_db (DocumentDBHandler.run
                     [DocumentDBHandler.Add 0 "a.pdf" "/lib/a.pdf" "queued"
                        (Some "trace-0");
                      DocumentDBHandler.Update 1 "/lib/a.pdf" "processed" None]
                     DocumentDBHandler.create_tables) empty_world in
  let w' := fst (@scan_master_library E 2 300 (Some ["a.pdf"; "b.pdf"]) w) in
  (∃ jobs, EXTRACTION_JOBS w' = jobs
           ∧ Forall (λ j, ej_filename j ≠ "a.pdf") jobs)
  ∧ redis_keys w' !! lock_key "a.pdf" = None.
Proof.
  intros E w.
  destruct (@scan_skips_processed E 2%Z 300%Z (Some ["a.pdf"; "b.pdf"]) w
              "a.pdf" "processed" eq_refl (or_introl eq_refl))
    as ((jobs & Hj & Fj) & _ & Hk).
  split; [exists jobs; split; [exact Hj|exact Fj]|].
  rewrite Hk. reflexivity.
Defined.

(** C3, as stated, fails: a file whose record is error (its job raised,
    and the worker released the lock) is claimed and dispatched again by
    the next scan. *)
Lemma error_file_is_dispatched_again :
  let E := sample_externals hash_of_process_0 in
  let w1 := fst (@scan_master_library E 0 300 (Some ["broken.pdf"])
                   empty_world) in
  let w2 := snd (@process_extraction_queue_turn E "extraction-worker-0" 1 w1) in
  let r3 := @scan_master_library E 2 300 (Some ["broken.pdf"]) w2 in
  DocumentDBHandler.get_document_status (db w2) "/lib/broken.pdf"
  = Some "error"
  ∧ snd r3 = 1%Z
  ∧ ej_file_path <$> EXTRACTION_JOBS (fst r3) = ["/lib/broken.pdf"]
  ∧ redis_keys (fst r3) !! lock_key "broken.pdf"
    = Some ("extraction-manager", 300%Z)
  ∧ ∃ job, last (history (fst r3)) = Some (RpushExtraction job).
Proof. vm_compute. repeat split. by eexists. Qed.

End ExtractionManagerFacts.

(** ** The chunk and embed stages *)

Module PipelineFacts.
Import ExtractionManager extraction chunking embedding.

(** The metadata [load_chunks_file] returns for a staging file. *)
Definition loaded_metadata (path : string) (data : chunks_file)
    : gmap string pyval :=
  match cf_metadata data !! "file_path" with
  | Some _ => cf_metadata data
  | None => <["file_path" := VStr path]> (cf_metadata data)
  end.

(** The document id [embed_chunks] and [save_to_mongodb] work with: the
    supplied one, or the one derived from the hash of the file path. *)
Definition document_id_of `{Externals} (combined : gmap string pyval)
    : option pyval :=
  match combined !! "document_id" with
  | Some v => Some v
  | None =>
      match default (VStr "unknown") (combined !! "file_path") with
      | VVec _ => None
      | p => Some (VStr ("doc_" ++ format_07d (py_hash p mod 10000000)))
      end
  end.

(** The record keys of chunks [i .. i+n-1] of a document. *)
Definition record_keys `{Externals} (doc_id : pyval) (i n : nat)
    : list string :=
  record_key doc_id <$> seq i n.

Definition has_embedding (chunk : gmap string pyval) : Prop :=
  ∃ e, chunk !! "embedding" = Some (VVec e).

Section stages.
Context `{Externals}.


Lemma combine_lookup_job (metadata file_metadata : gmap string pyval) k v :
  metadata !! k = Some v → k ≠ "embedding_model" →
  combine_metadata metadata file_metadata !! k = Some v.
Proof.
  intros Hk Hne. unfold combine_metadata. rewrite lookup_insert_ne by done.
  rewrite (nonempty_lookup _ _ _ Hk). cbn.
  destruct (nonempty file_metadata); [|done].
  by apply lookup_union_Some_l.
Qed.

Lemma combine_nonempty (metadata file_metadata : gmap string pyval) :
  nonempty (combine_metadata metadata file_metadata) = true.
Proof.
  eapply nonempty_lookup. unfold combine_metadata. apply lookup_insert_eq.
Qed.

Lemma enrich_ok now metadata embeddings i c w e d :
  embeddings !! i = Some e →
  document_id_of metadata = Some d →
  ∃ ec, enrich now metadata embeddings i c w = (Return ec, w)
        ∧ has_embedding ec.
Proof.
  intros He Hd. unfold enrich. rewrite He.
  destruct (nonempty metadata).
  - unfold document_id_of in Hd.
    destruct (metadata !! "document_id") as [v|].
    + eexists. split; [reflexivity|]. exists e.
      rewrite lookup_insert_ne by done.
      rewrite copy_fold_other by not_among. by simplify_map_eq.
    + destruct (metadata !! "file_path") as [p|].
      * cbn in Hd. unfold bind, derive_document_id.
        destruct p; try discriminate;
          (eexists; split; [reflexivity|]; exists e;
           rewrite lookup_insert_ne by done;
           rewrite copy_fold_other by not_among; by simplify_map_eq).
      * eexists. split; [reflexivity|]. exists e.
        rewrite copy_fold_other by not_among. by simplify_map_eq.
  - eexists. split; [reflexivity|]. exists e. by simplify_map_eq.
Qed.

Lemma enrich_from_ok now metadata embeddings chunks i w d :
  (∀ j, (j < List.length chunks)%nat → is_Some (embeddings !! (i + j)%nat)) →
  document_id_of metadata = Some d →
  ∃ ecs, enrich_from now metadata embeddings i chunks w = (Return ecs, w)
         ∧ List.length ecs = List.length chunks
         ∧ Forall has_embedding ecs.
Proof.
  revert i. induction chunks as [|c chunks IH]; intros i Hemb Hd.
  - exists []. by repeat split.
  - destruct (Hemb 0%nat) as [e He]; [cbn; lia|].
    rewrite Nat.add_0_r in He.
    destruct (enrich_ok now metadata embeddings i c w e d He Hd)
      as (ec & Hec & Hhas).
    destruct (IH (S i)) as (ecs & Hecs & Hlen & Hall); [|done|].
    { intros j Hj. replace (S i + j)%nat with (i + S j)%nat by lia.
      apply Hemb. cbn. lia. }
    exists (ec :: ecs). cbn [enrich_from]. unfold bind.
    rewrite Hec, Hecs. cbn. repeat split; [by rewrite Hlen|].
    by apply Forall_cons_2.
Qed.

(** What the records written by one run of [save_to_mongodb] carry. *)
Definition written_by (metadata : gmap string pyval) (doc_id : pyval)
    (i n : nat) (k : string) (rec : vector_record) : Prop :=
  k ∈ record_keys doc_id i n
  ∧ vr_document_id rec = k
  ∧ vr_vectors_count rec = 1%Z
  ∧ ∀ field, field ≠ "chunk_index" → field ≠ "document_id" →
      vr_metadata rec !! field = metadata !! field.

Lemma save_from_ok now metadata doc_id ecs i w :
  Forall has_embedding ecs →
  ∃ w' rs,
    save_from now metadata doc_id i ecs w = (Return rs, w')
    ∧ history w'
      = (history w
         ++ (MongoUpsert <$> record_keys doc_id i (List.length ecs)))%list
    ∧ (db w' = db w ∧ staging w' = staging w)
    ∧ dom (collection w')
      = dom (collection w)
        ∪ list_to_set (record_keys doc_id i (List.length ecs))
    ∧ ∀ k rec, collection w' !! k = Some rec →
        collection w !! k = Some rec
        ∨ written_by metadata doc_id i (List.length ecs) k rec.
Proof.
  intros Hall. revert i w.
  induction Hall as [|ec ecs [e He] _ IH]; intros i w.
  - exists w, []. cbn. rewrite app_nil_r.
    repeat split; [by rewrite (right_id_L ∅ (∪))|]. intros k rec Hk. by left.
  - cbn [save_from]. unfold bind at 1.
    unfold save_chunk. rewrite He.
    unfold MongoDBHelper.store_embeddings, bind at 1, effectful, ret.
    match goal with
    | |- context [bind (save_from now metadata doc_id (S i) ecs) _ ?w1] =>
        destruct (IH (S i) w1) as (w' & rs & Hrun & Hh & Hdb & Hdom & Hrec)
    end.
    unfold bind. rewrite Hrun. eexists. eexists. split; [reflexivity|].
    cbn in Hh, Hdb, Hdom, Hrec.
    unfold record_keys in *. cbn [List.length seq fmap list_fmap].
    split; [|split; [done|split]].
    + rewrite Hh, <- app_assoc. done.
    + rewrite Hdom, dom_insert_L. cbn [list_to_set].
      by rewrite (comm_L (∪) {[record_key doc_id i]}), <- (assoc_L (∪)).
    + intros k rec Hk. destruct (Hrec k rec Hk) as [Hold|Hnew].
      * destruct (decide (k = record_key doc_id i)) as [->|Hne].
        -- rewrite lookup_insert_eq in Hold. injection Hold as <-.
           right. split; [by apply list_elem_of_here|]. cbn.
           repeat split. intros field Hf1 Hf2.
           by rewrite !lookup_insert_ne.
        -- rewrite lookup_insert_ne in Hold by done. by left.
      * right. destruct Hnew as (Hin & Hrest).
        split; [by apply list_elem_of_further|done].
Qed.

Lemma process_embedding_job_ok now job w data d :
  staging w !! mj_chunks_file job = Some data →
  let combined :=
    combine_metadata (mj_metadata job)
      (loaded_metadata (mj_chunks_file job) data) in
  document_id_of combined = Some d →
  (List.length (cf_chunks data)
   ≤ List.length (encode (chunk_text <$> cf_chunks data)))%nat →
  let n := List.length (cf_chunks data) in
  ∃ w',
    process_embedding_job now job w = (Return true, w')
    ∧ history w'
      = (history w ++ (MongoUpsert <$> record_keys d 0 n))%list
    ∧ (db w' = db w ∧ staging w' = staging w)
    ∧ dom (collection w')
      = dom (collection w) ∪ list_to_set (record_keys d 0 n)
    ∧ ∀ k rec, collection w' !! k = Some rec →
        collection w !! k = Some rec
        ∨ written_by (<["document_id" := d]> combined) d 0 n k rec.
Proof.
  intros Hfile combined Hd Hlen n.
  unfold process_embedding_job, try_except.
  unfold bind at 1, load_chunks_file. rewrite Hfile.
  cbn [fst snd]. fold (loaded_metadata (mj_chunks_file job) data).
  fold combined. unfold bind at 1, embed_chunks.
  destruct (enrich_from_ok now combined
              (encode (chunk_text <$> cf_chunks data)) (cf_chunks data)
              0%nat w d) as (ecs & -> & Hecs & Hall); [|done|].
  { intros j Hj. apply lookup_lt_is_Some. cbn. lia. }
  unfold bind at 1, save_to_mongodb, bind at 1.
  assert (match combined !! "document_id" with
          | Some v => ret v
          | None => derive_document_id
                      (default (VStr "unknown") (combined !! "file_path"))
          end w = (Return d, w)) as ->.
  { unfold document_id_of in Hd.
    destruct (combined !! "document_id"); [by simplify_eq|].
    unfold derive_document_id.
    destruct (default (VStr "unknown") (combined !! "file_path"));
      by simplify_eq. }
  destruct (save_from_ok now (<["document_id" := d]> combined) d ecs 0%nat w
              Hall) as (w' & rs & -> & Hh & Hdb & Hdom & Hrec).
  exists w'. cbn. subst n. rewrite <- Hecs. done.
Qed.

End stages.
End PipelineFacts.

(** ** Trace identity through the pipeline *)

Module TraceFacts.
Import DocumentDBHandler ExtractionManager extraction chunking embedding.
Import PipelineFacts.








Section continuity.
Context `{Externals}.
Variable worker_id : string.



End continuity.



End TraceFacts.

(** ** Record keys of the embed stage *)

Module EmbeddingFacts.
Import ExtractionManager extraction chunking embedding.
Import PipelineFacts.

(** The keys under which the effects of a history upsert records. *)
Definition upserts (es : list effect) : list string :=
  omap (λ e, match e with MongoUpsert k => Some k | _ => None end) es.

(** [doc_<hash mod 10^7, seven digits>_<i>] for [i] below [n]. *)
Definition derived_keys (hash : Z) (n : nat) : list string :=
  (λ i, "doc_" ++ format_07d (hash mod 10000000) ++ "_"
        ++ py_str_int (Z.of_nat i)) <$> seq 0 n.

Lemma upserts_app es1 es2 : upserts (es1 ++ es2) = (upserts es1 ++ upserts es2)%list.
Proof. unfold upserts. apply omap_app. Qed.

Lemma upserts_fmap ks : upserts (MongoUpsert <$> ks) = ks.
Proof.
  induction ks as [|k ks IH]; [done|]. unfold upserts in *. cbn.
  by rewrite IH.
Qed.

Lemma record_keys_derived `{Externals} hash n :
  record_keys (VStr ("doc_" ++ format_07d (hash mod 10000000))) 0 n
  = derived_keys hash n.
Proof.
  unfold record_keys, derived_keys. apply list_fmap_ext. intros i j _.
  unfold record_key. cbn. done.
Qed.

Lemma combine_lookup_None `{Externals} (metadata file_metadata : gmap string pyval) k :
  metadata !! k = None → file_metadata !! k = None → k ≠ "embedding_model" →
  combine_metadata metadata file_metadata !! k = None.
Proof.
  intros Hm Hf Hk. unfold combine_metadata. rewrite lookup_insert_ne by done.
  destruct (nonempty metadata), (nonempty file_metadata); cbn; try done.
  by apply lookup_union_None.
Qed.

Lemma loaded_metadata_other path data k :
  k ≠ "file_path" →
  loaded_metadata path data !! k = cf_metadata data !! k.
Proof.
  intros Hk. unfold loaded_metadata.
  destruct (cf_metadata data !! "file_path"); [done|].
  by rewrite lookup_insert_ne.
Qed.

(** One run of the embed stage on a job that supplies no document id:
    the keys written are the derived ones, one per chunk, and they are
    what the run adds to the key set of the collection.  The hash is the
    one of the interpreter that runs the job. *)
Lemma process_embedding_job_keys `{Externals} now job w data p :
  staging w !! mj_chunks_file job = Some data →
  mj_metadata job !! "document_id" = None →
  cf_metadata data !! "document_id" = None →
  mj_metadata job !! "file_path" = Some (VStr p) →
  (List.length (cf_chunks data)
   ≤ List.length (encode (chunk_text <$> cf_chunks data)))%nat →
  let keys := derived_keys (py_hash (VStr p)) (List.length (cf_chunks data)) in
  ∃ w', process_embedding_job now job w = (Return true, w')
        ∧ upserts (history w') = (upserts (history w) ++ keys)%list
        ∧ List.length keys = List.length (cf_chunks data)
        ∧ staging w' = staging w
        ∧ dom (collection w') = dom (collection w) ∪ list_to_set keys.
Proof.
  intros Hfile Hjd Hfd Hfp Hlen keys.
  set (combined := combine_metadata (mj_metadata job)
                     (loaded_metadata (mj_chunks_file job) data)).
  assert (document_id_of combined
          = Some (VStr ("doc_" ++ format_07d (py_hash (VStr p) mod 10000000))))
    as Hd.
  { unfold document_id_of, combined.
    rewrite (combine_lookup_None _ _ "document_id") by
      (rewrite ?loaded_metadata_other; done).
    by rewrite (combine_lookup_job _ _ "file_path" (VStr p)). }
  destruct (process_embedding_job_ok now job w data _ Hfile Hd Hlen)
    as (w' & Hrun & Hh & [_ Hst] & Hdom & _).
  rewrite record_keys_derived in Hh, Hdom.
  exists w'. split; [done|]. split; [|split; [|done]].
  - by rewrite Hh, upserts_app, upserts_fmap.
  - unfold keys, derived_keys. by rewrite length_fmap, length_seq.
Qed.

(** Two runs of the embed stage on the same staging file, with their own
    clocks and model outputs, by interpreters whose string hash agrees on
    the file path (the same worker process, or a fixed hash seed): the
    same keys and the same number of records, and the second run adds no
    key to what the first left. *)
Lemma embed_twice_same_hash (E1 E2 : Externals) now1 now2 job w data p :
  staging w !! mj_chunks_file job = Some data →
  mj_metadata job !! "document_id" = None →
  cf_metadata data !! "document_id" = None →
  mj_metadata job !! "file_path" = Some (VStr p) →
  (List.length (cf_chunks data)
   ≤ List.length (@encode E1 (@chunk_text E1 <$> cf_chunks data)))%nat →
  (List.length (cf_chunks data)
   ≤ List.length (@encode E2 (@chunk_text E2 <$> cf_chunks data)))%nat →
  @py_hash E1 (VStr p) = @py_hash E2 (VStr p) →
  ∃ w1 w2 keys,
    @process_embedding_job E1 now1 job w = (Return true, w1)
    ∧ @process_embedding_job E2 now2 job w1 = (Return true, w2)
    ∧ upserts (history w1) = (upserts (history w) ++ keys)%list
    ∧ upserts (history w2) = (upserts (history w1) ++ keys)%list
    ∧ keys = derived_keys (@py_hash E1 (VStr p)) (List.length (cf_chunks data))
    ∧ dom (collection w2) = dom (collection w1).
Proof.
  intros Hfile Hjd Hfd Hfp Hl1 Hl2 Hhash.
  destruct (@process_embedding_job_keys E1 now1 job w data p
              Hfile Hjd Hfd Hfp Hl1) as (w1 & Hrun1 & Hu1 & _ & Hst1 & Hdom1).
  rewrite <- Hst1 in Hfile.
  destruct (@process_embedding_job_keys E2 now2 job w1 data p
              Hfile Hjd Hfd Hfp Hl2) as (w2 & Hrun2 & Hu2 & _ & _ & Hdom2).
  rewrite <- Hhash in Hu2, Hdom2.
  exists w1, w2. eexists. split; [done|]. split; [done|].
  split; [done|]. split; [done|]. split; [done|].
  rewrite Hdom2, Hdom1, <- (assoc_L (∪)). by rewrite (idemp_L (∪)).
Qed.

(** The world after [/lib/a.pdf] went through the manager, the extract
    worker and the chunk worker: its staging file is written and its embed
    job is queued. *)
Definition staged_world : world :=
  let E := sample_externals hash_of_process_0 in
  let w1 := fst (@scan_master_library E 0 300 (Some ["a.pdf"]) empty_world) in
  let w2 := snd (@process_extraction_queue_turn E "extraction-worker-0" 1 w1) in
  snd (@process_chunking_queue_turn E 2 w2).

(** The embed job of [/lib/a.pdf] and its staging file. *)
Definition staged_job : embed_job :=
  default (EmbedJob "" ∅) (head (EMBEDDING_QUEUE staged_world)).

Definition staged_data : chunks_file :=
  default (ChunksFile [] ∅) (staging staged_world !! mj_chunks_file staged_job).

Lemma derived_keys_common h1 h2 n m k :
  k ∈ derived_keys h1 n → k ∈ derived_keys h2 m →
  (h1 mod 10000000 = h2 mod 10000000)%Z.
Proof.
  unfold derived_keys. intros Hin1 Hin2.
  apply list_elem_of_fmap in Hin1 as (i & -> & _).
  apply list_elem_of_fmap in Hin2 as (j & Heq & _).
  cbn in Heq. injection Heq as Heq.
  apply split_at_underscore in Heq;
    [|apply format_07d_no_underscore; by apply Z.mod_pos_bound..].
  apply format_07d_inj in Heq; [done|by apply Z.mod_pos_bound..].
Qed.

(** C5 (as the code runs): the derived document id is built from the
    interpreter's [hash] of the file path, which is particular to the
    process.  When the embed job of an unchanged file, with no document id
    supplied, is run by one embed worker and then again by another whose
    hash of the file path differs modulo 10^7, each run writes one record
    per chunk under its own derived keys, the two runs have no key in
    common, and the second run adds its keys to the collection instead of
    overwriting those of the first. *)
Theorem embed_twice_in_two_processes (E0 E1 : Externals) (now0 now1 : Z)
    (job : embed_job) (w : world) (data : chunks_file) (p : string) :
  staging w !! mj_chunks_file job = Some data →
  mj_metadata job !! "document_id" = None →
  cf_metadata data !! "document_id" = None →
  mj_metadata job !! "file_path" = Some (VStr p) →
  (List.length (cf_chunks data)
   ≤ List.length (@encode E0 (@chunk_text E0 <$> cf_chunks data)))%nat →
  (List.length (cf_chunks data)
   ≤ List.length (@encode E1 (@chunk_text E1 <$> cf_chunks data)))%nat →
  (@py_hash E0 (VStr p) mod 10000000 ≠ @py_hash E1 (VStr p) mod 10000000)%Z →
  let keys0 :=
    derived_keys (@py_hash E0 (VStr p)) (List.length (cf_chunks data)) in
  let keys1 :=
    derived_keys (@py_hash E1 (VStr p)) (List.length (cf_chunks data)) in
  ∃ w1 w2,
    @process_embedding_job E0 now0 job w = (Return true, w1)
    ∧ @process_embedding_job E1 now1 job w1 = (Return true, w2)
    ∧ upserts (history w1) = (upserts (history w) ++ keys0)%list
    ∧ upserts (history w2) = (upserts (history w1) ++ keys1)%list
    ∧ List.length keys0 = List.length (cf_chunks data)
    ∧ List.length keys1 = List.length (cf_chunks data)
    ∧ (∀ k, k ∈ keys0 → k ∉ keys1)
    ∧ dom (collection w2)
      = dom (collection w) ∪ list_to_set keys0 ∪ list_to_set keys1.
Proof.
  intros Hfile Hjd Hfd Hfp Hl0 Hl1 Hhash keys0 keys1.
  destruct (@process_embedding_job_keys E0 now0 job w data p
              Hfile Hjd Hfd Hfp Hl0) as (w1 & Hrun1 & Hu1 & Hn1 & Hst1 & Hdom1).
  rewrite <- Hst1 in Hfile.
  destruct (@process_embedding_job_keys E1 now1 job w1 data p
              Hfile Hjd Hfd Hfp Hl1) as (w2 & Hrun2 & Hu2 & Hn2 & _ & Hdom2).
  exists w1, w2. split; [done|]. split; [done|]. split; [done|].
  split; [done|]. split; [done|]. split; [done|]. split.
  - intros k Hk0 Hk1. apply Hhash. by eapply derived_keys_common.
  - by rewrite Hdom2, Hdom1.
Qed.

Lemma embed_twice_in_two_processes_witness :
  let E0 := sample_externals hash_of_process_0 in
  let E1 := sample_externals hash_of_process_1 in
  ∃ w1 w2,
    @process_embedding_job E0 3 staged_job staged_world = (Return true, w1)
    ∧ @process_embedding_job E1 4 staged_job w1 = (Return true, w2)
    ∧ upserts (history w1) = ["doc_1234577_0"; "doc_1234577_1"]
    ∧ upserts (history w2)
      = ["doc_1234577_0"; "doc_1234577_1"; "doc_7654331_0"; "doc_7654331_1"].
Proof.
  intros E0 E1.
  assert (staging staged_world !! mj_chunks_file staged_job = Some staged_data)
    as Hfile by (vm_compute; reflexivity).
  assert (mj_metadata staged_job !! "document_id" = None) as Hjd
    by (vm_compute; reflexivity).
  assert (cf_metadata staged_data !! "document_id" = None) as Hfd
    by (vm_compute; reflexivity).
  assert (mj_metadata staged_job !! "file_path" = Some (VStr "/lib/a.pdf"))
    as Hfp by (vm_compute; reflexivity).
  assert ((List.length (cf_chunks staged_data)
           ≤ List.length (@encode E0 (@chunk_text E0 <$> cf_chunks staged_data)))%nat)
    as Hl0 by (vm_compute; lia).
  assert ((List.length (cf_chunks staged_data)
           ≤ List.length (@encode E1 (@chunk_text E1 <$> cf_chunks staged_data)))%nat)
    as Hl1 by (vm_compute; lia).
  assert ((@py_hash E0 (VStr "/lib/a.pdf") mod 10000000
           ≠ @py_hash E1 (VStr "/lib/a.pdf") mod 10000000)%Z) as Hhash
    by (vm_compute; discriminate).
  destruct (embed_twice_in_two_processes E0 E1 3%Z 4%Z staged_job staged_world
              staged_data "/lib/a.pdf" Hfile Hjd Hfd Hfp Hl0 Hl1 Hhash)
    as (w1 & w2 & Hrun1 & Hrun2 & Hu1 & Hu2 & _).
  exists w1, w2. split; [exact Hrun1|]. split; [exact Hrun2|].
  rewrite Hu2, Hu1. split; vm_compute; reflexivity.
Defined.

(** In one process the same job gives the same keys twice, and the
    second run overwrites the records of the first. *)
Lemma embed_twice_in_one_process :
  let E0 := sample_externals hash_of_process_0 in
  ∃ w1 w2,
    @process_embedding_job E0 3 staged_job staged_world = (Return true, w1)
    ∧ @process_embedding_job E0 4 staged_job w1 = (Return true, w2)
    ∧ upserts (history w2)
      = ["doc_1234577_0"; "doc_1234577_1"; "doc_1234577_0"; "doc_1234577_1"]
    ∧ size (collection w1) = 2%nat
    ∧ size (collection w2) = 2%nat.
Proof.
  cbv zeta. eexists. eexists.
  split; [vm_compute; reflexivity|].
  split; [vm_compute; reflexivity|].
  vm_compute. repeat split.
Qed.

End EmbeddingFacts.

(** ** The supervisor's monitor loop *)

Module BackendPipelineFacts.
Import BackendPipeline.

Lemma dict_get_set_eq {V} k (v : V) l : dict_get k (dict_set k v l) = Some v.
Proof.
  induction l as [|[k' v'] l IH]; cbn; [by rewrite String.eqb_refl|].
  destruct (String.eqb_spec k k') as [->|Hne]; cbn.
  - by rewrite String.eqb_refl.
  - by apply String.eqb_neq in Hne as ->.
Qed.

Lemma dict_get_set_ne {V} k k' (v : V) l :
  k ≠ k' → dict_get k' (dict_set k v l) = dict_get k' l.
Proof.
  intros Hne. induction l as [|[k0 v0] l IH]; cbn.
  - apply not_eq_sym in Hne. by apply String.eqb_neq in Hne as ->.
  - destruct (String.eqb_spec k k0) as [->|Hk]; cbn.
    + apply not_eq_sym in Hne. by apply String.eqb_neq in Hne as ->.
    + by rewrite IH.
Qed.

Lemma dict_get_del_ne {V} k k' (l : list (string * V)) :
  k ≠ k' → dict_get k' (dict_del k l) = dict_get k' l.
Proof.
  intros Hne. induction l as [|[k0 v0] l IH]; cbn; [done|].
  destruct (String.eqb_spec k k0) as [->|Hk]; cbn.
  - apply not_eq_sym in Hne. by apply String.eqb_neq in Hne as ->.
  - by rewrite IH.
Qed.

Lemma dict_get_elem {V} k (v : V) l :
  NoDup (fst <$> l) → (k, v) ∈ l → dict_get k l = Some v.
Proof.
  induction l as [|[k0 v0] l IH]; intros Hnd Hin; [by apply elem_of_nil in Hin|].
  cbn in Hnd. apply NoDup_cons in Hnd as [Hk0 Hnd].
  apply elem_of_cons in Hin as [Heq|Hin]; cbn.
  - injection Heq as -> ->. by rewrite String.eqb_refl.
  - destruct (String.eqb_spec k k0) as [->|Hk]; [|by apply IH].
    exfalso. apply Hk0. apply list_elem_of_fmap. by exists (k0, v).
Qed.

(** No child is started by this event. *)
Definition starts_nothing (e : event) : Prop :=
  match e with
  | Popen _ _ _ => False
  | _ => True
  end.

(** The table's keys are the components' keys, each once. *)
Definition well_keyed (l : list (string * proc_info)) : Prop :=
  NoDup (fst <$> l)
  ∧ ∀ k info, (k, info) ∈ l → k = process_key (name info) (worker_id info).

Lemma dict_set_elem {V} k (v : V) l x :
  x ∈ dict_set k v l → x = (k, v) ∨ x ∈ l.
Proof.
  induction l as [|[k0 v0] l IH]; cbn.
  - intros Hin. apply elem_of_cons in Hin as [->|Hin]; [by left|].
    by apply elem_of_nil in Hin.
  - destruct (String.eqb k k0); intros Hin;
      apply elem_of_cons in Hin as [->|Hin].
    + by left.
    + right. by apply list_elem_of_further.
    + right. by apply list_elem_of_here.
    + destruct (IH Hin) as [->|Hl]; [by left|].
      right. by apply list_elem_of_further.
Qed.

Lemma dict_set_key {V} k (v : V) l k' :
  k' ∈ fst <$> dict_set k v l → k' = k ∨ k' ∈ fst <$> l.
Proof.
  intros Hin. apply list_elem_of_fmap in Hin as ([k1 v1] & -> & Hin).
  apply dict_set_elem in Hin as [Heq|Hin].
  - injection Heq as -> ->. by left.
  - right. apply list_elem_of_fmap. by exists (k1, v1).
Qed.

Lemma dict_set_NoDup {V} k (v : V) l :
  NoDup (fst <$> l) → NoDup (fst <$> dict_set k v l).
Proof.
  induction l as [|[k0 v0] l IH]; cbn; intros Hnd.
  - apply NoDup_singleton.
  - apply NoDup_cons in Hnd as [Hk0 Hnd].
    destruct (String.eqb_spec k k0) as [->|Hne]; cbn.
    + by apply NoDup_cons.
    + apply NoDup_cons. split; [|by apply IH].
      intros Hin. apply dict_set_key in Hin as [->|Hin]; done.
Qed.

Lemma dict_del_elem {V} k (l : list (string * V)) x :
  x ∈ dict_del k l → x ∈ l.
Proof.
  induction l as [|[k0 v0] l IH]; cbn; [done|].
  destruct (String.eqb k k0); intros Hin.
  - by apply list_elem_of_further.
  - apply elem_of_cons in Hin as [->|Hin]; [by apply list_elem_of_here|].
    apply list_elem_of_further. by apply IH.
Qed.

Lemma dict_del_key {V} k (l : list (string * V)) k' :
  k' ∈ fst <$> dict_del k l → k' ∈ fst <$> l.
Proof.
  intros Hin. apply list_elem_of_fmap in Hin as (x & -> & Hin).
  apply list_elem_of_fmap. exists x. split; [done|].
  by apply dict_del_elem in Hin.
Qed.

Lemma dict_del_NoDup {V} k (l : list (string * V)) :
  NoDup (fst <$> l) → NoDup (fst <$> dict_del k l) ∧ k ∉ fst <$> dict_del k l.
Proof.
  induction l as [|[k0 v0] l IH]; cbn; intros Hnd.
  - split; [done|]. apply not_elem_of_nil.
  - apply NoDup_cons in Hnd as [Hk0 Hnd].
    destruct (String.eqb_spec k k0) as [->|Hne]; cbn; [done|].
    destruct (IH Hnd) as [Hnd' Hout]. split.
    + apply NoDup_cons. split; [|done].
      intros Hin. by apply dict_del_key in Hin.
    + by apply not_elem_of_cons.
Qed.

Lemma dict_get_None {V} k (l : list (string * V)) :
  k ∉ fst <$> l → dict_get k l = None.
Proof.
  induction l as [|[k0 v0] l IH]; cbn; [done|].
  intros Hout. apply not_elem_of_cons in Hout as [Hne Hout].
  apply String.eqb_neq in Hne as ->. by apply IH.
Qed.

Lemma well_keyed_set k info l :
  k = process_key (name info) (worker_id info) →
  well_keyed l → well_keyed (dict_set k info l).
Proof.
  intros Hk [Hnd Hkeys]. split; [by apply dict_set_NoDup|].
  intros k' info' Hin. apply dict_set_elem in Hin as [Heq|Hin].
  - by injection Heq as -> ->.
  - by apply Hkeys.
Qed.

Lemma well_keyed_del k l : well_keyed l → well_keyed (dict_del k l).
Proof.
  intros [Hnd Hkeys]. split; [by apply dict_del_NoDup|].
  intros k' info' Hin. apply Hkeys. by apply dict_del_elem in Hin.
Qed.

(** The settings a pass never changes. *)
Definition same_settings (p p' : pipeline) : Prop :=
  venv_path p' = venv_path p ∧ base_dir p' = base_dir p
  ∧ running p' = running p.

Section monitor_facts.
Variable popen_ok : string → bool.
Variable poll : Z → option Z.

Lemma start_component_table p n c w :
  let r := start_component popen_ok p n c w in
  same_settings p (fst r)
  ∧ (well_keyed (processes p) → well_keyed (processes (fst r)))
  ∧ (∀ k, k ∈ fst <$> processes (fst r) →
          k ∈ fst <$> processes p ∨ k = process_key n w)
  ∧ (snd r = false → processes (fst r) = processes p).
Proof.
  cbn zeta. unfold start_component.
  match goal with |- context [popen_ok ?c] => destruct (popen_ok c) end;
    cbn [fst snd];
    [|split; [done|]; split; [done|]; split; [by left|done]].
  split; [done|]. split; [|split; [|done]].
  - intros Hwk. by apply well_keyed_set.
  - intros k Hin. cbn in Hin. apply dict_set_key in Hin as [->|Hin]; auto.
Qed.

Lemma start_component_same p p' n c w :
  same_settings p p' →
  snd (start_component popen_ok p' n c w)
  = snd (start_component popen_ok p n c w).
Proof.
  intros (Hv & Hb & _). unfold start_component. rewrite Hv, Hb.
  match goal with |- context [popen_ok ?c] => by destruct (popen_ok c) end.
Qed.

Lemma monitor_entry_table p k info :
  well_keyed (processes p) →
  let p' := monitor_entry popen_ok poll p (k, info) in
  same_settings p p'
  ∧ well_keyed (processes p')
  ∧ (∀ k', k' ∈ fst <$> processes p' →
           k' ∈ fst <$> processes p
           ∨ k' = process_key (name info) (worker_id info))
  ∧ (is_Some (poll (process info)) →
     name info ≠ "redis" →
     snd (start_component popen_ok p (name info) (command info)
            (worker_id info)) = false →
     k ∉ fst <$> processes p').
Proof.
  intros Hwk. cbn zeta. unfold monitor_entry.
  destruct (poll (process info)) as [code|].
  2: { split; [done|]. split; [done|]. split; [by left|]. by intros [? ?]. }
  set (p1 := if (code =? 0)%Z then p
             else emit (ExitWarning
                          (display_name (name info) (worker_id info)) code) p).
  assert (same_settings p p1 ∧ processes p1 = processes p) as [Hs1 Hp1]
    by (unfold p1; by destruct (code =? 0)%Z).
  destruct (String.eqb_spec (name info) "redis") as [Hr|Hr].
  { rewrite Hp1. split; [done|]. split; [done|]. split; [by left|]. done. }
  set (p2 := set_processes
               (dict_del k (processes (emit (LogClosed (log_file info)) p1)))
               (emit (LogClosed (log_file info)) p1)).
  assert (same_settings p p2) as Hs2 by (destruct Hs1 as (? & ? & ?); done).
  assert (processes p2 = dict_del k (processes p)) as Hp2
    by (cbn; by rewrite Hp1).
  destruct (start_component_table p2 (name info) (command info)
              (worker_id info)) as (Hs3 & Hwk3 & Hk3 & Hfail).
  cbn zeta in *. split; [|split; [|split]].
  - destruct Hs2 as (? & ? & ?), Hs3 as (? & ? & ?).
    repeat split; congruence.
  - apply Hwk3. rewrite Hp2. by apply well_keyed_del.
  - intros k' Hin. apply Hk3 in Hin as [Hin|Hin]; [left|by right].
    rewrite Hp2 in Hin. by apply dict_del_key in Hin.
  - intros _ _ Hfalse.
    rewrite <- (start_component_same p p2) in Hfalse by done.
    rewrite (Hfail Hfalse), Hp2. apply dict_del_NoDup, Hwk.
Qed.

Lemma monitor_fold_table l p :
  well_keyed (processes p) →
  (∀ k info, (k, info) ∈ l → k = process_key (name info) (worker_id info)) →
  let p' := foldl (monitor_entry popen_ok poll) p l in
  same_settings p p'
  ∧ well_keyed (processes p')
  ∧ ∀ k, k ∈ fst <$> processes p' →
         k ∈ fst <$> processes p ∨ k ∈ fst <$> l.
Proof.
  revert p. induction l as [|[k info] l IH]; intros p Hwk Hkeys; cbn zeta.
  - repeat split; auto. apply Hwk. apply Hwk.
  - cbn [foldl].
    destruct (monitor_entry_table p k info Hwk) as (Hs1 & Hwk1 & Hk1 & _).
    destruct (IH (monitor_entry popen_ok poll p (k, info)) Hwk1)
      as (Hs2 & Hwk2 & Hk2).
    { intros; apply Hkeys; by apply list_elem_of_further. }
    cbn zeta in *. split; [|split; [done|]].
    + destruct Hs1 as (? & ? & ?), Hs2 as (? & ? & ?).
      repeat split; congruence.
    + intros k' Hin. cbn [fmap list_fmap fst].
      apply Hk2 in Hin as [Hin|Hin].
      * apply Hk1 in Hin as [Hin| ->]; [by left|right].
        rewrite <- (Hkeys k info) by apply list_elem_of_here.
        apply list_elem_of_here.
      * right. by apply list_elem_of_further.
Qed.

(** What one pass leaves under the key of an entry of its snapshot: the
    entry itself for a running child and for the broker; for any other
    exited child, whatever its exit code, a new child with the same stage
    name, worker id and command when starting it succeeds, and nothing
    when starting it fails. *)
Definition after_pass (p : pipeline) (info : proc_info)
    (o : option proc_info) : Prop :=
  match poll (process info) with
  | None => o = Some info
  | Some exit_code =>
      if String.eqb (name info) "redis" then o = Some info
      else if snd (start_component popen_ok p (name info) (command info)
                     (worker_id info))
           then ∃ pid, (next_pid p ≤ pid)%Z
                       ∧ o = Some (ProcInfo pid (name info) (worker_id info)
                                     (command info)
                                     (log_name p (name info) (worker_id info)))
           else o = None
  end.

Lemma monitor_entry_frame p k info :
  let p' := monitor_entry popen_ok poll p (k, info) in
  timestamp p' = timestamp p
  ∧ (next_pid p ≤ next_pid p')%Z
  ∧ ∀ k', k = process_key (name info) (worker_id info) → k' ≠ k →
      dict_get k' (processes p') = dict_get k' (processes p).
Proof.
  unfold monitor_entry. destruct (poll (process info)) as [code|]; [|done].
  destruct (String.eqb (name info) "redis").
  - destruct (code =? 0)%Z; cbn; repeat split; done.
  - unfold start_component.
    destruct (code =? 0)%Z; cbn;
      match goal with |- context [popen_ok ?c] => destruct (popen_ok c) end;
      cbn; (split; [done|]; split; [lia|]); intros k' -> Hne;
      rewrite ?dict_get_set_ne by done; by rewrite dict_get_del_ne.
Qed.

Lemma monitor_entry_self p k info :
  well_keyed (processes p) →
  k = process_key (name info) (worker_id info) →
  dict_get k (processes p) = Some info →
  after_pass p info
    (dict_get k (processes (monitor_entry popen_ok poll p (k, info)))).
Proof.
  intros [Hnd _] -> Hget. unfold after_pass, monitor_entry.
  destruct (poll (process info)) as [code|]; [|done].
  destruct (String.eqb (name info) "redis").
  - by destruct (code =? 0)%Z.
  - unfold start_component.
    destruct (code =? 0)%Z; cbn;
      match goal with |- context [popen_ok ?c] => destruct (popen_ok c) end;
      cbn;
      try (exists (next_pid p); split; [lia|]; apply dict_get_set_eq);
      apply dict_get_None; by apply dict_del_NoDup.
Qed.

Lemma after_pass_mono p p1 info o :
  timestamp p1 = timestamp p → (next_pid p ≤ next_pid p1)%Z →
  same_settings p p1 →
  after_pass p1 info o → after_pass p info o.
Proof.
  intros Ht Hn Hs. unfold after_pass.
  destruct (poll (process info)); [|done].
  destruct (String.eqb (name info) "redis"); [done|].
  rewrite (start_component_same p p1) by done.
  destruct (snd (start_component popen_ok p _ _ _)); [|done].
  intros (pid & Hpid & ->). exists pid. split; [lia|].
  unfold log_name. by rewrite Ht.
Qed.

Lemma monitor_fold_other l p k' :
  (∀ k info, (k, info) ∈ l → k = process_key (name info) (worker_id info)) →
  k' ∉ fst <$> l →
  dict_get k' (processes (foldl (monitor_entry popen_ok poll) p l))
  = dict_get k' (processes p).
Proof.
  revert p. induction l as [|[k info] l IH]; intros p Hkeys Hnot; [done|].
  cbn in Hnot. apply not_elem_of_cons in Hnot as [Hne Hnot]. cbn [foldl].
  rewrite IH; [|intros; apply Hkeys; by apply list_elem_of_further|done].
  destruct (monitor_entry_frame p k info) as (_ & _ & Hother).
  apply Hother; [|done]. apply Hkeys. by apply list_elem_of_here.
Qed.

Lemma monitor_fold_self l p k info :
  well_keyed l →
  well_keyed (processes p) →
  (∀ k info, (k, info) ∈ l → dict_get k (processes p) = Some info) →
  (k, info) ∈ l →
  after_pass p info
    (dict_get k (processes (foldl (monitor_entry popen_ok poll) p l))).
Proof.
  revert p. induction l as [|[k0 info0] l IH];
    intros p [Hnd Hkeys] Hwk Hget Hin; [by apply elem_of_nil in Hin|].
  cbn in Hnd. apply NoDup_cons in Hnd as [Hk0 Hnd]. cbn [foldl].
  assert (∀ k info, (k, info) ∈ l
                    → k = process_key (name info) (worker_id info)) as Hkeys'
    by (intros; apply Hkeys; by apply list_elem_of_further).
  destruct (monitor_entry_frame p k0 info0) as (Ht & Hn & Hother).
  destruct (monitor_entry_table p k0 info0 Hwk) as (Hs1 & Hwk1 & _).
  apply elem_of_cons in Hin as [Heq|Hin].
  - injection Heq as -> ->. rewrite monitor_fold_other by done.
    apply monitor_entry_self; [done| |apply Hget]; [apply Hkeys|];
      by apply list_elem_of_here.
  - apply (after_pass_mono p _ info _ Ht Hn Hs1).
    apply IH; [done|done| |done].
    intros k1 info1 Hin1. rewrite Hother.
    + apply Hget. by apply list_elem_of_further.
    + apply Hkeys. by apply list_elem_of_here.
    + intros ->. apply Hk0. apply list_elem_of_fmap. by exists (k0, info1).
Qed.

Lemma shutdown_fold_events (l : list (string * proc_info)) p :
  let p' := foldl (λ p (entry : string * proc_info),
                     emit (LogClosed (log_file (snd entry)))
                          (emit (Terminate (process (snd entry))) p)) p l in
  processes p' = processes p ∧ running p' = running p
  ∧ ∃ es, events p' = (events p ++ es)%list ∧ Forall starts_nothing es.
Proof.
  revert p. induction l as [|e l IH]; intros p; cbn zeta.
  - repeat split. exists []. by rewrite app_nil_r.
  - cbn [foldl]. destruct (IH (emit (LogClosed (log_file (snd e)))
                                 (emit (Terminate (process (snd e))) p)))
      as (Hp & Hr & es & He & Hes).
    split; [done|]. split; [done|].
    eexists. rewrite He. cbn. rewrite <- !app_assoc. split; [done|].
    by repeat apply Forall_cons_2.
Qed.

(** C7 (amended): in a pass of the monitor loop over a well-keyed table,
    every exited child other than the broker is started again under its
    key with the same stage name, worker id and command, whatever its exit
    code (a manager that exited with code 0 included), when starting it
    succeeds; when starting it fails its entry is removed from the table;
    the broker's entry and the entries of running children are left as
    they are; and when the termination signal arrives the loop ends with
    [shutdown], which clears the running flag, keeps the table and starts
    nothing. *)
Theorem monitor_restarts_exited_children p k info :
  well_keyed (processes p) →
  (k, info) ∈ processes p →
  after_pass p info
    (dict_get k (processes (monitor_pass popen_ok poll p)))
  ∧ ∀ rest,
      let p' := monitor popen_ok (Signal :: rest) p in
      running p' = false
      ∧ processes p' = processes p
      ∧ ∃ es, events p' = (events p ++ es)%list ∧ Forall starts_nothing es.
Proof.
  intros Hwk Hin. split.
  - unfold monitor_pass. apply monitor_fold_self; [done|done| |done].
    intros k1 info1 Hin1. apply dict_get_elem; [apply Hwk|done].
  - intros rest. cbn. unfold shutdown.
    destruct (shutdown_fold_events (processes p) (set_running false p))
      as (Hp & Hr & Hes). done.
Qed.

End monitor_facts.

(** The supervisor after [start_pipeline], every spawn succeeding. *)
Definition started : pipeline :=
  fst (start_pipeline (λ _, true) (init "/app" None 6379 "20240101")).

(** The manager (pid 1001) has exited with code 0, every other child is
    running. *)
Definition manager_exited_cleanly (pid : Z) : option Z :=
  if (pid =? 1001)%Z then Some 0%Z else None.

Lemma monitor_restarts_exited_children_witness :
  (∃ pid,
     (1009 ≤ pid)%Z
     ∧ dict_get "extraction-worker:extraction-worker-1"
         (processes (monitor_pass (λ _, true) (λ pid, if (pid =? 1003)%Z
                                                       then Some 1%Z else None)
                                  started))
       = Some (ProcInfo pid "extraction-worker" (Some "extraction-worker-1")
                 ("python3 document_ingestion_platform/ingest_tools/"
                  ++ "extraction.py --worker-id extraction-worker-1")
                 "extraction-worker_extraction-worker-1_20240101.log"))
  ∧ dict_get "extraction-worker:extraction-worker-1"
      (processes (monitor_pass (λ _, false) (λ pid, if (pid =? 1003)%Z
                                                     then Some 1%Z else None)
                               started))
    = None.
Proof.
  assert (well_keyed (processes started)) as Hwk.
  { split.
    - vm_compute. repeat (apply NoDup_cons_2; [
        rewrite ?not_elem_of_cons; repeat split; try discriminate;
        apply not_elem_of_nil|]). apply NoDup_nil_2.
    - intros k info Hin. vm_compute in Hin.
      repeat (apply elem_of_cons in Hin as [Hin|Hin];
              [injection Hin as -> ->; reflexivity|]).
      by apply elem_of_nil in Hin. }
  assert ((("extraction-worker:extraction-worker-1",
            ProcInfo 1003 "extraction-worker" (Some "extraction-worker-1")
              ("python3 document_ingestion_platform/ingest_tools/"
               ++ "extraction.py --worker-id extraction-worker-1")
              "extraction-worker_extraction-worker-1_20240101.log")
           : string * proc_info) ∈ processes started) as Hin.
  { vm_compute. do 3 apply list_elem_of_further. apply list_elem_of_here. }
  split.
  - destruct (monitor_restarts_exited_children (λ _, true)
                (λ pid, if (pid =? 1003)%Z then Some 1%Z else None) started
                _ _ Hwk Hin) as [Hpass _].
    exact Hpass.
  - destruct (monitor_restarts_exited_children (λ _, false)
                (λ pid, if (pid =? 1003)%Z then Some 1%Z else None) started
                _ _ Hwk Hin) as [Hpass _].
    exact Hpass.
Defined.

(** C7, as stated, fails: a manager that exits with code 0 while the
    supervisor is running is started again by the next pass. *)
Lemma clean_manager_exit_is_restarted :
  let p' := monitor_pass (λ _, true) manager_exited_cleanly started in
  running started = true
  ∧ process <$> dict_get "extraction-manager" (processes started) = Some 1001%Z
  ∧ process <$> dict_get "extraction-manager" (processes p') = Some 1009%Z
  ∧ last (events p')
    = Some (Popen ("python3 document_ingestion_platform/ingest_tools/"
                   ++ "extraction_manager.py --scan-interval 30 --lock-ttl 300")
                  "extraction-manager_20240101.log" 1009).
Proof. vm_compute. repeat split. Qed.

End BackendPipelineFacts.

(** * Further properties of the modelled code *)

(** ** Status store: identifiers and lookups *)

Module StoreLaws.
Import DocumentDBHandler.

(** Row identifiers are positive, pairwise different and at most the
    AUTOINCREMENT counter. *)
Definition ids_ok (d : documents) : Prop :=
  NoDup (id <$> rows d)
  ∧ Forall (λ r, (0 < id r ≤ autoinc d)%Z) (rows d)
  ∧ (0 ≤ autoinc d)%Z.

Lemma set_status_id now st err r : id (set_status now st err r) = id r.
Proof. unfold set_status. by destruct (truthy err). Qed.

Lemma update_ids now d fpath st err :
  id <$> rows (fst (update_document_status now d fpath st err))
  = id <$> rows d.
Proof.
  cbn. rewrite <- list_fmap_compose. apply list_fmap_ext.
  intros i r _. cbn. case_bool_decide; [apply set_status_id|done].
Qed.

Lemma exec_ids_ok d c :
  ids_ok d → ids_ok (exec d c) ∧ (autoinc d ≤ autoinc (exec d c))%Z.
Proof.
  intros (Hnd & Hall & Hpos).
  destruct c as [now fname fpath st tr|now fpath st err|[|]].
  - cbn. unfold add_document. case_bool_decide; cbn [fst].
    + split; [|cbn; lia]. unfold ids_ok. cbn [rows autoinc].
      split; [done|]. split; [|lia].
      eapply Forall_impl; [exact Hall|]. intros r Hr. cbn in *. lia.
    + split; [|cbn; lia]. unfold ids_ok. cbn [rows autoinc].
      split; [|split; [|lia]].
      * rewrite fmap_app. apply NoDup_app. split; [done|]. split.
        -- intros x Hx Hx'. cbn in Hx'. apply list_elem_of_singleton in Hx'.
           subst. apply list_elem_of_fmap in Hx as (r & Hr & Hin).
           rewrite Forall_forall in Hall. specialize (Hall r Hin). lia.
        -- apply NoDup_singleton.
      * apply Forall_app. split.
        -- eapply Forall_impl; [exact Hall|]. intros r Hr. cbn in *. lia.
        -- apply Forall_singleton. cbn. lia.
  - split; [|cbn; lia]. unfold exec. split; [|split].
    + by rewrite update_ids.
    + cbn. rewrite Forall_fmap. eapply Forall_impl; [exact Hall|].
      intros r Hr. cbn. case_bool_decide; [rewrite set_status_id|]; done.
    + done.
  - cbn. split; [|lia].
    split; [apply NoDup_nil_2|]. split; [apply Forall_nil_2|done].
  - cbn. split; [by repeat split|lia].
Qed.

Lemma run_ids_ok cs d :
  ids_ok d → ids_ok (run cs d) ∧ (autoinc d ≤ autoinc (run cs d))%Z.
Proof.
  revert d. induction cs as [|c cs IH]; intros d Hd; [split; [done|cbn; lia]|].
  cbn. destruct (exec_ids_ok d c Hd) as [Hd1 Hle1].
  destruct (IH _ Hd1) as [Hd2 Hle2]. split; [done|].
  unfold run in Hle2. lia.
Qed.

(** The two rows are one insertion: the columns that no call changes
    agree. *)
Definition same_insertion (r r' : row) : Prop :=
  id r' = id r ∧ filename r' = filename r ∧ filepath r' = filepath r
  ∧ trace_id r' = trace_id r ∧ created_date r' = created_date r.

Lemma set_status_same_insertion now st err r :
  same_insertion r (set_status now st err r).
Proof. unfold set_status, same_insertion. by destruct (truthy err). Qed.

Lemma exec_origin d c r' :
  r' ∈ rows (exec d c) → (id r' ≤ autoinc d)%Z →
  ∃ r, r ∈ rows d ∧ same_insertion r r'.
Proof.
  destruct c as [now fname fpath st tr|now fpath st err|[|]]; cbn.
  - unfold add_document. case_bool_decide; cbn [fst rows]; intros Hin Hle.
    + exists r'. by repeat split.
    + apply elem_of_app in Hin as [Hin|Hin]; [exists r'; by repeat split|].
      apply list_elem_of_singleton in Hin. subst r'. cbn in Hle. lia.
  - intros Hin _. apply list_elem_of_fmap in Hin as (r & -> & Hin).
    exists r. split; [done|].
    case_bool_decide; [apply set_status_same_insertion|by repeat split].
  - intros Hin. by apply elem_of_nil in Hin.
  - intros Hin _. exists r'. by repeat split.
Qed.

Lemma run_origin cs d r' :
  ids_ok d → r' ∈ rows (run cs d) → (id r' ≤ autoinc d)%Z →
  ∃ r, r ∈ rows d ∧ same_insertion r r'.
Proof.
  revert d. induction cs as [|c cs IH]; intros d Hd Hin Hle.
  - exists r'. by repeat split.
  - cbn in Hin. destruct (exec_ids_ok d c Hd) as [Hd1 Hle1].
    destruct (IH (exec d c) Hd1 Hin ltac:(lia)) as (r1 & Hin1 & Hsame1).
    destruct (exec_origin d c r1 Hin1) as (r & Hr & Hsame).
    { destruct Hsame1 as (<- & _). lia. }
    exists r. split; [done|].
    destruct Hsame as (? & ? & ? & ? & ?), Hsame1 as (? & ? & ? & ? & ?).
    repeat split; congruence.
Qed.

Lemma exec_new_ids d c :
  ∃ kept new,
    id <$> rows (exec d c) = (kept ++ new)%list
    ∧ sublist kept (id <$> rows d)
    ∧ Forall (λ i, (autoinc d < i)%Z) new.
Proof.
  destruct c as [now fname fpath st tr|now fpath st err|[|]].
  - cbn. unfold add_document. case_bool_decide; cbn [fst rows].
    + exists (id <$> rows d), []. by rewrite app_nil_r.
    + exists (id <$> rows d), [(autoinc d + 1)%Z]. rewrite fmap_app.
      split; [done|]. split; [done|]. apply Forall_singleton. lia.
  - exists (id <$> rows d), []. unfold exec.
    by rewrite update_ids, app_nil_r.
  - exists [], []. split; [done|]. split; [apply sublist_nil_l|done].
  - exists (id <$> rows d), []. by rewrite app_nil_r.
Qed.

(** X1: an id is never given to two rows.  After any sequence of calls on
    a new store the row ids are positive, pairwise different and at most
    the AUTOINCREMENT counter, and the counter never goes down, a
    confirmed flush included.  Whatever calls follow, the ids then in the
    table are ids that were in the table before, in their order, followed
    by ids above the value the counter had: every id given after a point
    in time is larger than every id given up to it; and a row found under
    an id that was in the table before is the row of the same insertion
    (same file name, path, trace id and creation date). *)
Theorem ids_never_reused (cs1 cs2 : list call) :
  let d1 := run cs1 create_tables in
  let d2 := run cs2 d1 in
  ids_ok d1 ∧ ids_ok d2 ∧ (autoinc d1 ≤ autoinc d2)%Z
  ∧ (∃ kept new,
       id <$> rows d2 = (kept ++ new)%list
       ∧ sublist kept (id <$> rows d1)
       ∧ Forall (λ i, (autoinc d1 < i)%Z) new)
  ∧ ∀ r1 r2, r1 ∈ rows d1 → r2 ∈ rows d2 → id r1 = id r2 →
             same_insertion r1 r2.
Proof.
  cbn zeta.
  assert (ids_ok create_tables) as H0.
  { split; [apply NoDup_nil_2|]. split; [apply Forall_nil_2|done]. }
  destruct (run_ids_ok cs1 _ H0) as [H1 _].
  destruct (run_ids_ok cs2 _ H1) as [H2 Hle].
  split; [done|]. split; [done|]. split; [done|]. split.
  - generalize (run cs1 create_tables) H1. clear. intros d Hd.
    induction cs2 as [|c cs IH] using rev_ind.
    + exists (id <$> rows d), []. by rewrite app_nil_r.
    + destruct IH as (kept & new & Hids & Hsub & Hnew).
      unfold run in *. rewrite foldl_snoc.
      destruct (exec_new_ids (foldl exec d cs) c)
        as (kept' & new' & Hids' & Hsub' & Hnew').
      rewrite Hids in Hsub'.
      apply sublist_app_r in Hsub' as (ka & kb & -> & Hka & Hkb).
      exists ka, (kb ++ new')%list. rewrite Hids', <- app_assoc.
      split; [done|]. split; [by etrans|].
      apply Forall_app. split.
      * rewrite Forall_forall in Hnew. apply Forall_forall. intros i Hi.
        apply Hnew. eapply sublist_submseteq, elem_of_submseteq in Hkb; done.
      * destruct (run_ids_ok cs d Hd) as [_ Hmono]. unfold run in Hmono.
        eapply Forall_impl; [exact Hnew'|]. intros i Hi. cbn in *. lia.
  - intros r1 r2 Hr1 Hr2 Heq.
    destruct (run_origin cs2 _ r2 H1 Hr2) as (r & Hr & Hsame).
    { destruct H1 as (_ & Hall & _). rewrite Forall_forall in Hall.
      destruct (Hall r1 Hr1). lia. }
    destruct H1 as (Hnd & _).
    assert (r = r1) as ->; [|done].
    apply list_elem_of_lookup in Hr as [i Hi].
    apply list_elem_of_lookup in Hr1 as [j Hj].
    assert (i = j) as ->; [|congruence].
    apply (NoDup_lookup (id <$> rows (run cs1 create_tables)) i j (id r1));
      [done| |].
    + rewrite list_lookup_fmap, Hi. cbn. destruct Hsame as (<- & _).
      by rewrite Heq.
    + by rewrite list_lookup_fmap, Hj.
Qed.

Lemma get_status_nil n fp : get_document_status (Db [] n) fp = None.
Proof. done. Qed.

Lemma get_status_cons r rs n fp :
  get_document_status (Db (r :: rs) n) fp
  = if bool_decide (filepath r = fp) then Some (status r)
    else get_document_status (Db rs n) fp.
Proof.
  unfold get_document_status. cbn. case_decide.
  - by rewrite bool_decide_eq_true_2.
  - rewrite bool_decide_eq_false_2 by done.
    by destruct (list_find _ rs).
Qed.

Lemma get_status_autoinc rs n m fp :
  get_document_status (Db rs n) fp = get_document_status (Db rs m) fp.
Proof. done. Qed.

Lemma get_status_snoc rs r n fp :
  get_document_status (Db (rs ++ [r]) n) fp
  = match get_document_status (Db rs n) fp with
    | Some s => Some s
    | None => if bool_decide (filepath r = fp) then Some (status r) else None
    end.
Proof.
  induction rs as [|r0 rs IH].
  - cbn [app]. rewrite get_status_cons, !get_status_nil. done.
  - cbn [app]. rewrite !get_status_cons.
    destruct (bool_decide (filepath r0 = fp)); [done|apply IH].
Qed.

(** X2: what [get_document_status] answers after an addition.  A status
    already on record for the path stays; otherwise the new status is
    answered for the added path, unless the addition was ignored because
    the file name is taken. *)
Theorem get_status_after_add now d fname fpath st tr fp :
  get_document_status (fst (add_document now d fname fpath st tr)) fp
  = match get_document_status d fp with
    | Some s => Some s
    | None =>
        if bool_decide (fname ∈ filename <$> rows d) then None
        else if bool_decide (fpath = fp) then Some st else None
    end.
Proof.
  unfold add_document. destruct d as [rs n]. cbn [rows autoinc].
  case_bool_decide; cbn [fst].
  - rewrite (get_status_autoinc _ _ n).
    by destruct (get_document_status (Db rs n) fp).
  - rewrite (get_status_autoinc _ _ n), get_status_snoc. done.
Qed.

Lemma set_status_path_status now st err r :
  filepath (set_status now st err r) = filepath r
  ∧ status (set_status now st err r) = st.
Proof. unfold set_status. by destruct (truthy err). Qed.

Lemma get_status_update_same now d fpath st err :
  get_document_status (fst (update_document_status now d fpath st err)) fpath
  = match get_document_status d fpath with
    | Some _ => Some st
    | None => None
    end.
Proof.
  destruct d as [rs n]. unfold update_document_status. cbn [fst rows autoinc].
  induction rs as [|r rs IH]; [done|].
  cbn [fmap list_fmap] in *. rewrite !get_status_cons.
  destruct (decide (filepath r = fpath)) as [Hr|Hr].
  - rewrite (bool_decide_eq_true_2 (filepath r = fpath)) by done.
    destruct (set_status_path_status now st err r) as [-> ->].
    by rewrite bool_decide_eq_true_2.
  - rewrite !(bool_decide_eq_false_2 (filepath r = fpath)) by done.
    exact IH.
Qed.

(** X3: what [get_document_status] answers after an update: the new
    status for the updated path when it has a record, nothing when it has
    none, and the former answer for every other path. *)
Theorem get_status_after_update now d fpath st err fp :
  get_document_status (fst (update_document_status now d fpath st err)) fp
  = if bool_decide (fpath = fp)
    then match get_document_status d fp with
         | Some _ => Some st
         | None => None
         end
    else get_document_status d fp.
Proof.
  destruct d as [rs n]. unfold update_document_status. cbn [fst rows autoinc].
  induction rs as [|r rs IH]; [by case_bool_decide|].
  cbn [fmap list_fmap] in *. rewrite !get_status_cons.
  destruct (decide (filepath r = fpath)) as [Hr|Hr].
  - rewrite (bool_decide_eq_true_2 (filepath r = fpath)) by done.
    assert (filepath (set_status now st err r) = filepath r) as ->
      by (unfold set_status; by destruct (truthy err)).
    assert (status (set_status now st err r) = st) as ->
      by (unfold set_status; by destruct (truthy err)).
    destruct (decide (fpath = fp)) as [Hf|Hf].
    + rewrite !bool_decide_eq_true_2 by congruence. done.
    + rewrite (bool_decide_eq_false_2 (filepath r = fp)) by congruence.
      rewrite (bool_decide_eq_false_2 (fpath = fp)) by done.
      rewrite IH. by rewrite (bool_decide_eq_false_2 (fpath = fp)).
  - rewrite (bool_decide_eq_false_2 (filepath r = fpath)) by done.
    destruct (decide (filepath r = fp)) as [Hp|Hp].
    + rewrite !(bool_decide_eq_true_2 (filepath r = fp)) by done.
      by rewrite (bool_decide_eq_false_2 (fpath = fp)) by congruence.
    + rewrite !(bool_decide_eq_false_2 (filepath r = fp)) by done.
      apply IH.
Qed.

End StoreLaws.

(** ** Paths and suffixes *)

Module PathLaws.
Import os_path.

Lemma append_cons c (s t : string) : String c s ++ t = String c (s ++ t).
Proof. reflexivity. Qed.


Lemma length_append (s t : string) :
  String.length (s ++ t) = (String.length s + String.length t)%nat.
Proof.
  induction s as [|c s IH]; [done|]. rewrite append_cons. simpl.
  by rewrite IH.
Qed.

Lemma substring_all (s : string) : substring 0 (String.length s) s = s.
Proof. induction s as [|c s IH]; [done|]. simpl. by rewrite IH. Qed.

Lemma substring_split (s : string) (n : nat) :
  substring 0 n s ++ substring n (String.length s - n) s = s.
Proof.
  revert n. induction s as [|c s IH]; intros [|n]; simpl; try done.
  - by rewrite substring_all.
  - by rewrite append_cons, IH.
Qed.

Lemma substring_skip (pre suf : string) :
  substring (String.length pre) (String.length suf) (pre ++ suf) = suf.
Proof.
  induction pre as [|c pre IH]; [apply substring_all|].
  rewrite append_cons. simpl. exact IH.
Qed.




Lemma contains_append c (a b : string) :
  contains c (a ++ b) = contains c a || contains c b.
Proof.
  induction a as [|x a IH]; [done|]. rewrite append_cons. cbn [contains].
  rewrite IH. by rewrite orb_assoc.
Qed.

Lemma basename_no_sep (b : string) : contains sep b = false → basename b = b.
Proof. destruct b as [|c b]; [done|]. intros Hb. cbn [basename]. by rewrite Hb. Qed.

Lemma basename_after_sep (a b : string) :
  basename (a ++ String sep b) = basename b.
Proof.
  induction a as [|c a IH].
  - change ("" ++ String sep b) with (String sep b).
    cbn [basename contains]. by rewrite Ascii.eqb_refl.
  - rewrite append_cons. cbn [basename].
    assert (contains sep (String c (a ++ String sep b)) = true) as ->.
    { cbn [contains]. rewrite contains_append. cbn [contains].
      rewrite Ascii.eqb_refl. by rewrite !orb_true_r. }
    exact IH.
Qed.

Lemma endswith_sep_split (a : string) :
  endswith_sep a = true → ∃ a', a = a' ++ String sep "".
Proof.
  induction a as [|c a IH]; [done|]. cbn [endswith_sep].
  destruct a as [|c' a].
  - intros Hc. apply Ascii.eqb_eq in Hc as ->. by exists "".
  - intros Ha. destruct (IH Ha) as [a' ->]. by exists (String c a').
Qed.

(** The base name of a path has no separator in it. *)
Lemma basename_plain (p : string) : contains sep (basename p) = false.
Proof.
  induction p as [|c p IH]; [done|]. cbn [basename].
  destruct (contains sep (String c p)) eqn:Hc; [exact IH|exact Hc].
Qed.

(** For a directory entry (a name without separator) the base name of
    [join directory name] is the name, whatever the directory. *)
Lemma basename_join (a b : string) :
  contains sep b = false → basename (join a b) = b.
Proof.
  intros Hb. unfold join.
  assert (startswith_sep b = false) as ->.
  { destruct b as [|c b]; [done|]. cbn in *.
    by apply orb_false_iff in Hb as [-> _]. }
  destruct (String.eqb_spec a "") as [->|Ha]; cbn [orb].
  - cbn. by apply basename_no_sep.
  - destruct (endswith_sep a) eqn:He.
    + destruct (endswith_sep_split a He) as [a' ->].
      assert ((a' ++ String sep "") ++ b = a' ++ String sep b) as ->.
      { clear. induction a' as [|c a' IH]; [done|].
        by rewrite !append_cons, IH. }
      rewrite basename_after_sep. by apply basename_no_sep.
    + change (a ++ "/" ++ b) with (a ++ String sep b).
      rewrite basename_after_sep. by apply basename_no_sep.
Qed.

(** [endswith] holds exactly of the strings that are the suffix with
    something before it. *)
Lemma endswith_spec (s suffix : string) :
  endswith s suffix = true ↔ ∃ pre, s = pre ++ suffix.
Proof.
  unfold endswith. split.
  - intros Hs. apply andb_true_iff in Hs as [Hle Heq].
    apply Nat.leb_le in Hle. apply String.eqb_eq in Heq.
    exists (substring 0 (String.length s - String.length suffix) s).
    pose proof (substring_split s (String.length s - String.length suffix))
      as Hsplit.
    replace (String.length s - (String.length s - String.length suffix))%nat
      with (String.length suffix) in Hsplit by lia.
    by rewrite Heq in Hsplit.
  - intros [pre ->]. rewrite length_append. apply andb_true_iff. split.
    + apply Nat.leb_le. lia.
    + replace (String.length pre + String.length suffix
               - String.length suffix)%nat with (String.length pre) by lia.
      rewrite substring_skip. apply String.eqb_refl.
Qed.

End PathLaws.

(** ** Claim locks *)

Module LockLaws.
Import ExtractionManager.

(** X7: the claim protocol.  A claim succeeds exactly when the file is
    not locked; afterwards the file is locked, under the lock the first
    claimer set; a second claim fails and changes no key; the locks of
    other files are not touched; and after the lock is deleted, or has
    expired, the file can be claimed again. *)
Theorem claim_is_exclusive (ttl ttl' : Z) (w : world) (f : string) :
  let r := claim_file ttl w f in
  let r' := claim_file ttl' (fst r) f in
  snd r = negb (is_file_locked w f)
  ∧ is_file_locked (fst r) f = true
  ∧ (∀ g, g ≠ f → redis_keys (fst r) !! lock_key g = redis_keys w !! lock_key g)
  ∧ snd r' = false
  ∧ redis_keys (fst r') = redis_keys (fst r)
  ∧ (∀ ks, ks = Redis.delete (redis_keys (fst r)) (lock_key f)
           ∨ ks = Redis.expire (redis_keys (fst r)) (lock_key f) →
       snd (claim_file ttl' (set_redis_keys ks (fst r)) f) = true).
Proof.
  assert (∀ t w0,
            claim_file t w0 f
            = match redis_keys w0 !! lock_key f with
              | Some _ =>
                  (log (RedisSetNx (lock_key f) false)
                       (set_redis_keys (redis_keys w0) w0), false)
              | None =>
                  (log (RedisSetNx (lock_key f) true)
                       (set_redis_keys
                          (<[lock_key f := (manager_id, t)]> (redis_keys w0))
                          w0), true)
              end) as Hc.
  { intros t w0. unfold claim_file, Redis.set_nx_ex.
    by destruct (redis_keys w0 !! lock_key f). }
  assert (∀ w0 ks, redis_keys (set_redis_keys ks w0) = ks) as Hset by done.
  assert (∀ e w0, redis_keys (log e w0) = redis_keys w0) as Hlog by done.
  cbn zeta. rewrite (Hc ttl w). unfold is_file_locked, Redis.exists_.
  destruct (redis_keys w !! lock_key f) as [v|] eqn:Hk; cbn [fst snd].
  - rewrite Hlog, Hset, Hk, Hc, Hlog, Hset, Hk. cbn [fst snd].
    rewrite Hlog, Hset. repeat split; try done.
    intros ks [-> | ->]; rewrite Hc, Hset; unfold Redis.delete, Redis.expire;
      by rewrite lookup_delete_eq.
  - rewrite Hlog, Hset, lookup_insert_eq, Hc, Hlog, Hset, lookup_insert_eq.
    cbn [fst snd]. rewrite Hlog, Hset.
    split; [done|]. split; [done|]. split.
    + intros g Hg. rewrite lookup_insert_ne; [done|].
      intros Heq. by apply ExtractionManagerFacts.lock_key_inj in Heq.
    + split; [done|]. split; [done|].
      intros ks [-> | ->]; rewrite Hc, Hset;
        unfold Redis.delete, Redis.expire; by rewrite lookup_delete_eq.
Qed.

End LockLaws.

(** ** The worker loops *)

Module LoopLaws.
Import extraction chunking embedding.

#[local] Arguments DocumentDBHandler.update_document_status : simpl never.

Section loops.
Context `{Externals}.
Variable worker_id : string.

Lemma process_extraction_job_keeps_queue now job w :
  ∃ b w', process_extraction_job worker_id now job w = (Return b, w')
          ∧ EXTRACTION_JOBS w' = EXTRACTION_JOBS w.
Proof.
  unfold process_extraction_job, try_except, bind, external,
    extract_metadata, bind, external.
  cbn [db_update effectful].
  destruct (convert (ej_file_path job)) as [e|[document|]]; cbn;
    [| destruct (getsize (ej_file_path job)) as [e|size]; cbn |];
    eexists; eexists; (split; [reflexivity|done]).
Qed.

(** X8: the outcome of a job of the extract worker, for a job that
    carries its file path and file name and as long as the calls on the
    broker and on the status store themselves succeed (they cannot fail
    in the model).  An exception of the conversion or of reading the
    file's size is caught: the job answers [True] exactly when the
    conversion returned a document and the size could be read, and
    [False] otherwise.  It pushes exactly one chunk job, for the job's
    file and trace id, when it answers [True], and none when it answers
    [False].  A registered file ends as processed in the first case and
    as error in the second; a file without a record gets none.  The
    other queues, the staging directory and the vector store are not
    touched. *)
Theorem extraction_job_outcome now job w :
  ∃ b w', process_extraction_job worker_id now job w = (Return b, w')
          ∧ b = match convert (ej_file_path job) with
                | inr (Some _) =>
                    match getsize (ej_file_path job) with
                    | inr _ => true
                    | inl _ => false
                    end
                | _ => false
                end
          ∧ EXTRACTION_JOBS w' = EXTRACTION_JOBS w
          ∧ EMBEDDING_QUEUE w' = EMBEDDING_QUEUE w
          ∧ staging w' = staging w ∧ collection w' = collection w
          ∧ (if b then ∃ payload, REDIS_QUEUE w' = (REDIS_QUEUE w ++ [payload])%list
                                  ∧ cj_file_path payload = ej_file_path job
                                  ∧ cj_trace_id payload = ej_trace_id job
             else REDIS_QUEUE w' = REDIS_QUEUE w)
          ∧ DocumentDBHandler.get_document_status (db w') (ej_file_path job)
            = match DocumentDBHandler.get_document_status (db w)
                      (ej_file_path job) with
              | Some _ => Some (if b then "processed" else "error")
              | None => None
              end.
Proof.
  unfold process_extraction_job, try_except, bind, external,
    extract_metadata, bind, external.
  cbn [db_update effectful].
  destruct (convert (ej_file_path job)) as [e|[document|]]; cbn.
  - exists false. eexists. split; [reflexivity|]. cbn.
    repeat split; try done.
    rewrite !StoreLaws.get_status_update_same.
    by destruct (DocumentDBHandler.get_document_status _ _).
  - destruct (getsize (ej_file_path job)) as [e|size]; cbn.
    + exists false. eexists. split; [reflexivity|]. cbn.
      repeat split; try done.
      rewrite !StoreLaws.get_status_update_same.
      by destruct (DocumentDBHandler.get_document_status _ _).
    + exists true. eexists. split; [reflexivity|]. cbn.
      split; [done|].
      split; [done|]. split; [done|]. split; [done|]. split; [done|].
      split; [by eexists|].
      rewrite !StoreLaws.get_status_update_same.
      by destruct (DocumentDBHandler.get_document_status _ _).
  - exists false. eexists. split; [reflexivity|]. cbn.
    repeat split; try done.
    rewrite !StoreLaws.get_status_update_same.
    by destruct (DocumentDBHandler.get_document_status _ _).
Qed.


(** The [while] loop of [process_extraction_queue], one turn per clock
    reading, until the shutdown event. *)
Fixpoint process_extraction_queue (nows : list Z) (w : world) : world :=
  match nows with
  | [] => w
  | now :: rest =>
      process_extraction_queue rest
        (snd (process_extraction_queue_turn worker_id now w))
  end.

Lemma turn_takes_last now w :
  EXTRACTION_JOBS (snd (process_extraction_queue_turn worker_id now w))
  = take (List.length (EXTRACTION_JOBS w) - 1) (EXTRACTION_JOBS w).
Proof.
  unfold process_extraction_queue_turn, Redis.brpop.
  destruct (EXTRACTION_JOBS w) as [|j q] eqn:Hq using rev_ind.
  - cbn. by rewrite Hq.
  - rewrite reverse_snoc. unfold bind.
    match goal with
    | |- context [process_extraction_job worker_id now ?j0 ?w0] =>
        destruct (process_extraction_job_keeps_queue now j0 w0)
          as (b & w' & -> & Hq')
    end.
    cbn. rewrite Hq'. cbn. rewrite reverse_involutive, length_app. cbn.
    replace (List.length q + 1 - 1)%nat with (List.length q) by lia.
    by rewrite take_app_length.
Qed.

(** X9: the extract worker never puts a job back: whatever the outcomes
    of the jobs, after [k] turns the extract queue is what it was without
    its last [k] jobs (it is empty once [k] reaches its length). *)
Theorem extraction_loop_consumes (nows : list Z) (w : world) :
  EXTRACTION_JOBS (process_extraction_queue nows w)
  = take (List.length (EXTRACTION_JOBS w) - List.length nows)
         (EXTRACTION_JOBS w).
Proof.
  revert w. induction nows as [|now nows IH]; intros w.
  - cbn. rewrite Nat.sub_0_r. by rewrite firstn_all.
  - cbn [process_extraction_queue]. rewrite IH, turn_takes_last.
    rewrite length_take, take_take. f_equal. cbn [List.length]. lia.
Qed.

End loops.
End LoopLaws.

(** ** The chunk stage *)

Module ChunkLaws.
Import chunking.

Section chunk_stage.
Context `{Externals}.

(** X10: the outcome of a chunk job, as long as the write of the staging
    file and the push on the broker themselves succeed (they cannot fail
    in the model).  The document is the one the job carries, or else the
    conversion of its markdown; an exception of that conversion or of the
    chunker is caught: the job answers [False] and nothing has changed.
    Otherwise the job answers [True]: the chunks the chunker returned for
    the document are written, in order, to the staging file named after
    the base name of the source file, and one embed job is pushed that
    refers to that file and carries the same metadata: the job's metadata
    (or, when that is empty, the file path alone) with the number of
    chunks, the chunking timestamp and the chunking time set.  These two
    are the only effects; the status store is not told. *)
Theorem chunking_job_outcome now job w :
  let document :=
    match cj_document_json job with
    | Some document => inr document
    | None => convert_markdown (cj_markdown_output job)
    end in
  let chunked :=
    match document with
    | inl e => inl e
    | inr document => chunker document
    end in
  match chunked with
  | inl _ => process_chunking_job now job w = (Return false, w)
  | inr chunks =>
      ∃ w' metadata,
        let path := os_path.join PROCESSED_DIR
                      (os_path.basename (cj_file_path job) ++ "_chunks.json") in
        process_chunking_job now job w = (Return true, w')
        ∧ staging w'
          = <[path := ChunksFile (ChunkStr <$> chunks) metadata]> (staging w)
        ∧ EMBEDDING_QUEUE w'
          = (EMBEDDING_QUEUE w ++ [EmbedJob path metadata])%list
        ∧ history w'
          = (history w ++ [WriteChunks path;
                           RpushEmbedding (EmbedJob path metadata)])%list
        ∧ metadata !! "chunks_count"
          = Some (VInt (Z.of_nat (List.length chunks)))
        ∧ metadata !! "chunking_timestamp" = Some (VFloat now)
        ∧ metadata !! "chunking_time" = Some (VStr (strftime now))
        ∧ (∀ k, k ∉ ["chunks_count"; "chunking_timestamp"; "chunking_time"] →
                metadata !! k
                = if nonempty (cj_metadata job) then cj_metadata job !! k
                  else if bool_decide (k = "file_path")
                       then Some (VStr (cj_file_path job)) else None)
        ∧ db w' = db w ∧ redis_keys w' = redis_keys w
        ∧ EXTRACTION_JOBS w' = EXTRACTION_JOBS w
        ∧ REDIS_QUEUE w' = REDIS_QUEUE w
        ∧ collection w' = collection w
  end.
Proof.
  cbn zeta. unfold process_chunking_job, try_except. unfold bind at 1.
  assert (∀ document,
            match chunker document with
            | inl _ =>
                match
                  bind (chunk_document now document (cj_file_path job)
                          (cj_trace_id job) (cj_metadata job))
                    (λ chunked,
                       bind (save_chunks (cj_file_path job) (fst chunked)
                               (snd chunked) (cj_trace_id job))
                         (λ chunks_file,
                            bind (add_to_embedding_queue chunks_file
                                    (snd chunked) (cj_trace_id job))
                              (λ _, ret true))) w
                with
                | (Return a, w') => (Return a, w')
                | (Raise e, w') => ret false w'
                end = (Return false, w)
            | inr chunks =>
                ∃ w' metadata,
                  let path := os_path.join PROCESSED_DIR
                                (os_path.basename (cj_file_path job)
                                 ++ "_chunks.json") in
                  match
                    bind (chunk_document now document (cj_file_path job)
                            (cj_trace_id job) (cj_metadata job))
                      (λ chunked,
                         bind (save_chunks (cj_file_path job) (fst chunked)
                                 (snd chunked) (cj_trace_id job))
                           (λ chunks_file,
                              bind (add_to_embedding_queue chunks_file
                                      (snd chunked) (cj_trace_id job))
                                (λ _, ret true))) w
                  with
                  | (Return a, w') => (Return a, w')
                  | (Raise e, w') => ret false w'
                  end = (Return true, w')
                  ∧ staging w'
                    = <[path := ChunksFile (ChunkStr <$> chunks) metadata]>
                        (staging w)
                  ∧ EMBEDDING_QUEUE w'
                    = (EMBEDDING_QUEUE w ++ [EmbedJob path metadata])%list
                  ∧ history w'
                    = (history w ++ [WriteChunks path;
                                     RpushEmbedding (EmbedJob path metadata)])%list
                  ∧ metadata !! "chunks_count"
                    = Some (VInt (Z.of_nat (List.length chunks)))
                  ∧ metadata !! "chunking_timestamp" = Some (VFloat now)
                  ∧ metadata !! "chunking_time" = Some (VStr (strftime now))
                  ∧ (∀ k, k ∉ ["chunks_count"; "chunking_timestamp";
                                "chunking_time"] →
                          metadata !! k
                          = if nonempty (cj_metadata job)
                            then cj_metadata job !! k
                            else if bool_decide (k = "file_path")
                                 then Some (VStr (cj_file_path job)) else None)
                  ∧ db w' = db w ∧ redis_keys w' = redis_keys w
                  ∧ EXTRACTION_JOBS w' = EXTRACTION_JOBS w
                  ∧ REDIS_QUEUE w' = REDIS_QUEUE w
                  ∧ collection w' = collection w
            end) as Hdoc.
  { intros document.
    unfold bind, chunk_document, save_chunks, add_to_embedding_queue, bind,
      external, effectful.
    destruct (chunker document) as [e|chunks]; cbn; [done|].
    eexists. eexists. split; [reflexivity|]. cbn.
    split; [reflexivity|]. split; [reflexivity|].
    split; [by rewrite <- app_assoc|].
    split; [destruct (nonempty (cj_metadata job)); by simplify_map_eq|].
    split; [destruct (nonempty (cj_metadata job)); by simplify_map_eq|].
    split; [destruct (nonempty (cj_metadata job)); by simplify_map_eq|].
    split; [|done]. intros k Hk.
    rewrite !not_elem_of_cons in Hk. destruct Hk as (Hk1 & Hk2 & Hk3 & _).
    destruct (nonempty (cj_metadata job)) eqn:Hne.
    - by rewrite !lookup_insert_ne.
    - rewrite !(lookup_insert_ne _ "chunking_time"),
        !(lookup_insert_ne _ "chunking_timestamp"),
        !(lookup_insert_ne _ "chunks_count") by done.
      case_bool_decide as Hfp.
      + subst k. by rewrite lookup_insert_eq.
      + by rewrite lookup_insert_ne. }
  destruct (cj_document_json job) as [document|].
  - cbn [ret]. apply Hdoc.
  - unfold external. destruct (convert_markdown (cj_markdown_output job))
      as [e|document]; cbn [ret raise]; [done|apply Hdoc].
Qed.

End chunk_stage.
End ChunkLaws.

(** ** The embed stage *)

Module EmbedLaws.
Import embedding PipelineFacts.

Lemma append_inj_l (s a b : string) : s ++ a = s ++ b → a = b.
Proof.
  induction s as [|c s IH]; [done|].
  rewrite !PathLaws.append_cons. intros Heq. injection Heq as Heq. by apply IH.
Qed.

Lemma to_int_proper (z : Z) :
  Z.to_int z ≠ Decimal.Pos Decimal.Nil ∧ Z.to_int z ≠ Decimal.Neg Decimal.Nil.
Proof.
  destruct z as [|p|p]; cbn; split; try discriminate;
    intros Heq; injection Heq as Heq;
    by apply DecimalPos.Unsigned.to_uint_nonnil in Heq.
Qed.

Lemma py_str_int_inj (a b : Z) : py_str_int a = py_str_int b → a = b.
Proof.
  unfold py_str_int. intros Heq.
  apply DecimalZ.to_int_inj.
  destruct (to_int_proper a) as [Ha1 Ha2], (to_int_proper b) as [Hb1 Hb2].
  pose proof (NilZero.isi _ Ha1 Ha2) as Ha.
  pose proof (NilZero.isi _ Hb1 Hb2) as Hb.
  rewrite Heq, Hb in Ha. by injection Ha.
Qed.

Section embed_stage.
Context `{Externals}.

Lemma record_key_inj (doc_id : pyval) (i j : nat) :
  record_key doc_id i = record_key doc_id j → i = j.
Proof.
  unfold record_key. intros Heq.
  apply append_inj_l, (append_inj_l "_") in Heq.
  apply py_str_int_inj in Heq. lia.
Qed.

Lemma record_keys_NoDup (doc_id : pyval) (i n : nat) :
  NoDup (record_keys doc_id i n).
Proof.
  unfold record_keys. apply NoDup_fmap_2; [|apply NoDup_seq].
  intros a b. apply record_key_inj.
Qed.

(** The dictionary a chunk starts from in [embed_chunks]. *)
Definition chunk_base (c : chunk) : gmap string pyval :=
  match c with
  | ChunkDict d => d
  | ChunkStr s => <["text" := VStr s]> ∅
  end.

(** What [embed_chunks] makes of chunk [c] with vector [e]. *)
Definition enriched_from (c : chunk) (e : list Z) (ec : gmap string pyval)
    : Prop :=
  ec !! "embedding" = Some (VVec e)
  ∧ ec !! "text" = chunk_base c !! "text".

Lemma enrich_cases now metadata embeddings i c w :
  ∃ r, enrich now metadata embeddings i c w = (r, w)
       ∧ match r with
         | Return ec => ∃ e, embeddings !! i = Some e ∧ enriched_from c e ec
         | Raise _ => True
         end.
Proof.
  unfold enrich, enriched_from. fold (chunk_base c).
  destruct (embeddings !! i) as [e|]; [|by eexists].
  destruct (nonempty metadata).
  - destruct (metadata !! "document_id") as [v|].
    + eexists. split; [reflexivity|]. exists e. split; [done|].
      rewrite !(lookup_insert_ne _ "document_id") by done.
      rewrite !copy_fold_other by not_among.
      by simplify_map_eq.
    + destruct (metadata !! "file_path") as [p|].
      * unfold bind, derive_document_id.
        destruct p; try (by eexists);
          (eexists; split; [reflexivity|]; exists e; split; [done|];
           rewrite !(lookup_insert_ne _ "document_id") by done;
           rewrite !copy_fold_other by not_among;
           by simplify_map_eq).
      * eexists. split; [reflexivity|]. exists e. split; [done|].
        rewrite !copy_fold_other by not_among.
        by simplify_map_eq.
  - eexists. split; [reflexivity|]. exists e. split; [done|].
    by simplify_map_eq.
Qed.

Lemma enrich_from_cases now metadata embeddings chunks i w :
  ∃ r, enrich_from now metadata embeddings i chunks w = (r, w)
       ∧ match r with
         | Return ecs =>
             List.length ecs = List.length chunks
             ∧ ∀ j ec, ecs !! j = Some ec →
                 ∃ c e, chunks !! j = Some c
                        ∧ embeddings !! (i + j)%nat = Some e
                        ∧ enriched_from c e ec
         | Raise _ => True
         end.
Proof.
  revert i. induction chunks as [|c chunks IH]; intros i.
  - exists (Return []). repeat split. intros j ec Hj. by destruct j.
  - cbn [enrich_from]. unfold bind at 1.
    destruct (enrich_cases now metadata embeddings i c w)
      as ([ec|msg] & -> & Hec); [|eexists; split; [reflexivity|exact I]].
    destruct Hec as (e & He & Hec).
    unfold bind at 1.
    destruct (IH (S i)) as ([ecs|msg] & -> & Hecs);
      [|eexists; split; [reflexivity|exact I]].
    destruct Hecs as [Hlen Hall].
    exists (Return (ec :: ecs)). split; [reflexivity|].
    split; [cbn; by rewrite Hlen|].
    intros [|j] ec' Hj; cbn in Hj.
    + injection Hj as <-. exists c, e. rewrite Nat.add_0_r.
      split; [done|]. by split.
    + destruct (Hall j ec' Hj) as (c' & e' & Hc' & He' & Hec').
      exists c', e'. replace (i + S j)%nat with (S i + j)%nat by lia.
      split; [done|]. by split.
Qed.

(** What [save_to_mongodb] stores for chunk [j], enriched as [ec]. *)
Definition stored_as (doc_id : pyval) (j : nat) (ec : gmap string pyval)
    (rec : vector_record) : Prop :=
  vr_document_id rec = record_key doc_id j
  ∧ vr_metadata rec !! "chunk_index" = Some (VInt (Z.of_nat j))
  ∧ vr_metadata rec !! "document_id" = Some doc_id
  ∧ vr_vectors_count rec = 1%Z
  ∧ ∃ cd, vr_embedded_chunks rec = [cd]
          ∧ ec !! "embedding" = Some (VVec (cd_embedding cd))
          ∧ cd_text cd = default (VStr "") (ec !! "text")
          ∧ vr_vectors_dimensions rec
            = Z.of_nat (List.length (cd_embedding cd)).

Lemma save_from_records now metadata doc_id ecs i w :
  Forall has_embedding ecs →
  ∃ w' rs,
    save_from now metadata doc_id i ecs w = (Return rs, w')
    ∧ (∀ k, k ∉ record_keys doc_id i (List.length ecs) →
            collection w' !! k = collection w !! k)
    ∧ (∀ j ec, ecs !! j = Some ec →
         ∃ rec, collection w' !! record_key doc_id (i + j) = Some rec
                ∧ stored_as doc_id (i + j) ec rec)
    ∧ db w' = db w ∧ redis_keys w' = redis_keys w
    ∧ EXTRACTION_JOBS w' = EXTRACTION_JOBS w ∧ REDIS_QUEUE w' = REDIS_QUEUE w
    ∧ EMBEDDING_QUEUE w' = EMBEDDING_QUEUE w ∧ staging w' = staging w.
Proof.
  intros Hall. revert i w.
  induction Hall as [|ec ecs [e He] _ IH]; intros i w.
  - exists w, []. split; [done|]. split; [done|]. split; [|done].
    intros j ec Hj. by destruct j.
  - cbn [save_from]. unfold bind at 1.
    unfold save_chunk. rewrite He.
    unfold MongoDBHelper.store_embeddings, bind at 1, effectful, ret.
    match goal with
    | |- context [bind (save_from now metadata doc_id (S i) ecs) _ ?w1] =>
        destruct (IH (S i) w1)
          as (w' & rs & Hrun & Hframe & Hrec & Hdb & Hk & Hq1 & Hq2 & Hq3 & Hst)
    end.
    unfold bind. rewrite Hrun. eexists. eexists. split; [reflexivity|].
    cbn in Hframe, Hrec, Hdb, Hk, Hq1, Hq2, Hq3, Hst.
    split; [|split; [|done]].
    + intros k Hk'. unfold record_keys in Hk'. cbn in Hk'.
      apply not_elem_of_cons in Hk' as [Hne Hk'].
      rewrite Hframe by done. by rewrite lookup_insert_ne.
    + intros [|j] ec' Hj; cbn in Hj.
      * injection Hj as <-. rewrite Nat.add_0_r. eexists.
        rewrite Hframe.
        -- rewrite lookup_insert_eq. split; [reflexivity|].
           unfold stored_as. cbn. repeat split; try by simplify_map_eq.
           eexists. repeat split. by rewrite He.
        -- unfold record_keys. intros Hin.
           apply list_elem_of_fmap in Hin as (j & Hj & Hin).
           apply record_key_inj in Hj. subst j.
           apply elem_of_seq in Hin. lia.
      * replace (i + S j)%nat with (S i + j)%nat by lia. by apply Hrec.
Qed.

(** The metadata a job is processed with, given its staging file. *)
Definition job_metadata (job : embed_job) (data : chunks_file)
    : gmap string pyval :=
  combine_metadata (mj_metadata job)
    (loaded_metadata (mj_chunks_file job) data).

(** X11: an embed job never raises and, the writes to the store
    themselves succeeding, writes all of its records or none.  When it
    answers [False] (the staging file is missing, the model
    returned fewer vectors than there are chunks, or the file path cannot
    be hashed) the world is unchanged.  When it answers [True] it has
    stored, for every chunk [j] of the staging file, a record under
    [<document_id>_<j>] that carries chunk index [j], the chunk's text and
    the [j]-th vector of the model, these keys are pairwise different,
    every other record of the collection is as it was, and the queues,
    the staging directory and the status store are untouched. *)
Theorem embedding_job_all_or_nothing now job w :
  ∃ b w', process_embedding_job now job w = (Return b, w')
    ∧ if b then
        ∃ data d,
          let chunks := cf_chunks data in
          let vectors := encode (chunk_text <$> chunks) in
          staging w !! mj_chunks_file job = Some data
          ∧ document_id_of (job_metadata job data) = Some d
          ∧ NoDup (record_keys d 0 (List.length chunks))
          ∧ (∀ j c, chunks !! j = Some c →
               ∃ rec cd e,
                 collection w' !! record_key d j = Some rec
                 ∧ vr_metadata rec !! "chunk_index" = Some (VInt (Z.of_nat j))
                 ∧ vr_embedded_chunks rec = [cd]
                 ∧ vectors !! j = Some e
                 ∧ cd_embedding cd = e
                 ∧ cd_text cd = default (VStr "") (chunk_base c !! "text"))
          ∧ (∀ k, k ∉ record_keys d 0 (List.length chunks) →
                  collection w' !! k = collection w !! k)
          ∧ db w' = db w ∧ redis_keys w' = redis_keys w
          ∧ EXTRACTION_JOBS w' = EXTRACTION_JOBS w
          ∧ REDIS_QUEUE w' = REDIS_QUEUE w
          ∧ EMBEDDING_QUEUE w' = EMBEDDING_QUEUE w
          ∧ staging w' = staging w
      else w' = w.
Proof.
  unfold process_embedding_job, try_except.
  unfold bind at 1, load_chunks_file.
  destruct (staging w !! mj_chunks_file job) as [data|] eqn:Hfile;
    [|exists false, w; by split].
  cbn [fst snd]. fold (loaded_metadata (mj_chunks_file job) data).
  fold (job_metadata job data). set (combined := job_metadata job data).
  unfold bind at 1, embed_chunks.
  destruct (enrich_from_cases now combined
              (encode (chunk_text <$> cf_chunks data)) (cf_chunks data) 0%nat w)
    as ([ecs|msg] & -> & Hecs); [|exists false, w; by split].
  destruct Hecs as [Hlen Hecs].
  unfold bind at 1, save_to_mongodb, bind at 1.
  assert ((∃ d, document_id_of combined = Some d
                ∧ match combined !! "document_id" with
                  | Some v => ret v
                  | None => derive_document_id
                              (default (VStr "unknown") (combined !! "file_path"))
                  end w = (Return d, w))
          ∨ (∃ msg, match combined !! "document_id" with
                    | Some v => ret v
                    | None => derive_document_id
                                (default (VStr "unknown")
                                   (combined !! "file_path"))
                    end w = (Raise msg, w))) as [(d & Hd & ->)|[msg ->]].
  { unfold document_id_of. destruct (combined !! "document_id");
      [left; by eexists|].
    unfold derive_document_id.
    destruct (default (VStr "unknown") (combined !! "file_path"));
      try (left; by eexists). right. by eexists. }
  2: { exists false, w. by split. }
  assert (Forall has_embedding ecs) as Hall.
  { apply Forall_lookup. intros j ec Hj.
    destruct (Hecs j ec Hj) as (c & e & _ & _ & He & _). by exists e. }
  destruct (save_from_records now (<["document_id" := d]> combined) d ecs 0%nat
              w Hall)
    as (w' & rs & -> & Hframe & Hrec & Hdb & Hk & Hq1 & Hq2 & Hq3 & Hst).
  exists true, w'. split; [reflexivity|]. exists data, d. cbn zeta.
  rewrite <- Hlen. split; [done|]. split; [done|].
  split; [apply record_keys_NoDup|]. split; [|done].
  intros j c Hc.
  destruct (lookup_lt_is_Some_2 ecs j) as [ec Hec].
  { rewrite Hlen. by eapply lookup_lt_Some. }
  destruct (Hecs j ec Hec) as (c' & e & Hc' & He & Hemb & Htext).
  rewrite Hc in Hc'. injection Hc' as <-.
  destruct (Hrec j ec Hec)
    as (rec & Hlook & _ & Hidx & _ & _ & cd & Hcd & Hcde & Hcdt & _).
  exists rec, cd, e. split; [done|]. split; [done|]. split; [done|].
  split; [done|]. split.
  - rewrite Hemb in Hcde. by injection Hcde.
  - by rewrite Hcdt, Htext.
Qed.

(** X6: record keys of derived document ids.  When the document id is
    derived from the file path, two record keys are the same exactly when
    the hashes of the two paths agree modulo ten million and the chunk
    indices are the same: documents whose hashes agree share every key,
    chunk by chunk, and no key is shared otherwise. *)
Theorem derived_keys_collide p q w i j a b :
  derive_document_id p w = (Return a, w) →
  derive_document_id q w = (Return b, w) →
  record_key a i = record_key b j
  ↔ (py_hash p mod 10000000 = py_hash q mod 10000000)%Z ∧ i = j.
Proof.
  intros Hp Hq.
  assert (a = VStr ("doc_" ++ format_07d (py_hash p mod 10000000))) as ->.
  { unfold derive_document_id in Hp. destruct p; try discriminate;
      by injection Hp. }
  assert (b = VStr ("doc_" ++ format_07d (py_hash q mod 10000000))) as ->.
  { unfold derive_document_id in Hq. destruct q; try discriminate;
      by injection Hq. }
  split.
  - intros Heq.
    assert (py_hash p mod 10000000 = py_hash q mod 10000000)%Z as Hmod.
    { unfold record_key in Heq. cbn in Heq. injection Heq as Heq.
      apply split_at_underscore in Heq;
        [|apply format_07d_no_underscore; by apply Z.mod_pos_bound..].
      apply format_07d_inj in Heq; [done|by apply Z.mod_pos_bound..]. }
    split; [done|]. rewrite Hmod in Heq. by apply record_key_inj in Heq.
  - by intros [-> ->].
Qed.

End embed_stage.

Lemma derived_keys_collide_witness :
  let E := sample_externals hash_of_process_0 in
  let d := VStr ("doc_" ++ format_07d
                            (@py_hash E (VStr "/lib/a.pdf") mod 10000000)) in
  @record_key E d 0 = @record_key E d 1
  ↔ (@py_hash E (VStr "/lib/a.pdf") mod 10000000
     = @py_hash E (VStr "/lib/a.pdf") mod 10000000)%Z ∧ 0%nat = 1%nat.
Proof.
  intros E d.
  apply (@derived_keys_collide E (VStr "/lib/a.pdf") (VStr "/lib/a.pdf")
           empty_world 0%nat 1%nat d d eq_refl eq_refl).
Defined.

End EmbedLaws.

(** ** The manager's scan *)

Module ScanLaws.
Import ExtractionManager.

Section scans.
Context `{Externals}.

(** The file is skipped by a scan: its record is processed or
    processing, or its lock is held. *)
Definition settled (w : world) (filename : string) : bool :=
  is_file_processed w (os_path.join MASTER_LIBRARY filename)
  || is_file_locked w filename.

(** A job the manager pushed for [filename] in a scan that started in
    [w] and ended in [w']. *)
Definition dispatched (ttl : Z) (names : list string) (w w' : world)
    (job : extract_job) : Prop :=
  let f := ej_filename job in
  f ∈ names
  ∧ endswith f ".pdf" = true
  ∧ ej_file_path job = os_path.join MASTER_LIBRARY f
  ∧ settled w f = false
  ∧ redis_keys w' !! lock_key f = Some (manager_id, ttl).

Lemma scan_file_step now ttl w c name :
  let r := scan_file now ttl (w, c) name in
  (r = (w, c) ∧ (endswith name ".pdf" = true → settled w name = true))
  ∨ (endswith name ".pdf" = true
     ∧ settled w name = false
     ∧ snd r = (c + 1)%Z
     ∧ (∃ job, EXTRACTION_JOBS (fst r) = (EXTRACTION_JOBS w ++ [job])%list
               ∧ ej_filename job = name
               ∧ ej_file_path job = os_path.join MASTER_LIBRARY name
               ∧ ej_trace_id job = generate_trace_id (minted w))
     ∧ minted (fst r) = S (minted w)
     ∧ redis_keys (fst r)
       = <[lock_key name := (manager_id, ttl)]> (redis_keys w)
     ∧ db (fst r)
       = fst (DocumentDBHandler.add_document now (db w) name
                (os_path.join MASTER_LIBRARY name) "queued"
                (Some (generate_trace_id (minted w))))
     ∧ REDIS_QUEUE (fst r) = REDIS_QUEUE w
     ∧ EMBEDDING_QUEUE (fst r) = EMBEDDING_QUEUE w
     ∧ staging (fst r) = staging w
     ∧ collection (fst r) = collection w).
Proof.
  cbn zeta. unfold scan_file, settled.
  destruct (endswith name ".pdf"); cbn [negb]; [|by left].
  destruct (is_file_processed w (os_path.join MASTER_LIBRARY name));
    [by left|].
  unfold is_file_locked, Redis.exists_, claim_file, Redis.set_nx_ex.
  destruct (redis_keys w !! lock_key name) eqn:Hl; [by left|].
  right. cbn. repeat split; try done. by eexists.
Qed.

Lemma settled_step now ttl w c name f :
  settled w f = true →
  settled (fst (scan_file now ttl (w, c) name)) f = true.
Proof.
  intros Hs.
  destruct (scan_file_step now ttl w c name)
    as [[-> _]|(_ & _ & _ & _ & _ & Hk & Hdb & _)]; [done|].
  unfold settled, is_file_processed, is_file_locked, Redis.exists_ in *.
  rewrite Hk, Hdb.
  apply orb_true_iff in Hs as [Hs|Hs]; apply orb_true_iff.
  - left.
    destruct (DocumentDBHandler.get_document_status (db w) _) as [s|] eqn:Hst;
      [|done].
    by rewrite (ExtractionManagerFacts.get_document_status_add
                  _ _ _ _ _ _ _ _ Hst).
  - right. destruct (decide (lock_key name = lock_key f)) as [->|Hne].
    + by rewrite lookup_insert_eq.
    + by rewrite lookup_insert_ne.
Qed.

Lemma keys_step now ttl w c name k v :
  redis_keys w !! k = Some v →
  redis_keys (fst (scan_file now ttl (w, c) name)) !! k = Some v.
Proof.
  intros Hv.
  destruct (scan_file_step now ttl w c name)
    as [[-> _]|(_ & Hs & _ & _ & _ & Hk & _)]; [done|].
  rewrite Hk. rewrite lookup_insert_ne; [done|].
  intros <-. unfold settled, is_file_locked, Redis.exists_ in Hs.
  rewrite Hv in Hs. by rewrite orb_true_r in Hs.
Qed.

Lemma scan_fold now ttl names w c :
  let r := foldl (scan_file now ttl) (w, c) names in
  let w' := fst r in
  (∃ jobs,
     EXTRACTION_JOBS w' = (EXTRACTION_JOBS w ++ jobs)%list
     ∧ snd r = (c + Z.of_nat (List.length jobs))%Z
     ∧ minted w' = (minted w + List.length jobs)%nat
     ∧ NoDup (ej_filename <$> jobs)
     ∧ Forall (dispatched ttl names w w') jobs
     ∧ ej_trace_id <$> jobs
       = generate_trace_id <$> seq (minted w) (List.length jobs))
  ∧ (∀ f, settled w f = true → settled w' f = true)
  ∧ (∀ f, f ∈ names → endswith f ".pdf" = true → settled w' f = true)
  ∧ (∀ k v, redis_keys w !! k = Some v → redis_keys w' !! k = Some v)
  ∧ REDIS_QUEUE w' = REDIS_QUEUE w
  ∧ EMBEDDING_QUEUE w' = EMBEDDING_QUEUE w
  ∧ staging w' = staging w
  ∧ collection w' = collection w.
Proof.
  revert w c. induction names as [|name names IH]; intros w c; cbn zeta.
  - cbn [foldl fst snd]. split.
    + exists []. rewrite app_nil_r, Z.add_0_r, Nat.add_0_r.
      repeat split; try done. apply NoDup_nil_2.
    + repeat split; try done. intros f Hf. by apply elem_of_nil in Hf.
  - cbn [foldl].
    pose proof (settled_step now ttl w c name) as Hmono.
    pose proof (keys_step now ttl w c name) as Hkeys.
    pose proof (scan_file_step now ttl w c name) as Hstep.
    destruct (scan_file now ttl (w, c) name) as [w1 c1] eqn:Hr.
    cbn [fst snd] in Hmono, Hkeys, Hstep.
    destruct (IH w1 c1)
      as ((jobs & Hq & Hc & Hm & Hnd & Hall & Htr)
          & Hs' & Hin' & Hk' & Hq1 & Hq2 & Hst & Hcol).
    cbn zeta in *.
    set (w' := fst (foldl (scan_file now ttl) (w1, c1) names)) in *.
    assert (∀ f, settled w f = true → settled w' f = true) as Hsettled
      by (intros f Hf; by apply Hs', Hmono).
    assert (∀ k v, redis_keys w !! k = Some v → redis_keys w' !! k = Some v)
      as Hkept by (intros k v Hv; by apply Hk', Hkeys).
    assert (Forall (dispatched ttl (name :: names) w w') jobs) as Hall'.
    { eapply Forall_impl; [exact Hall|].
      intros j (Hj1 & Hj2 & Hj3 & Hj4 & Hj5).
      split; [by right|]. split; [done|]. split; [done|]. split; [|done].
      destruct (settled w (ej_filename j)) eqn:Hsj; [|done].
      apply Hmono in Hsj. congruence. }
    destruct Hstep
      as [[Heq Hskip]
         |(Hpdf & Hns & Hc1 & (job & Hjq & Hjf & Hjp & Hjt) & Hm1 & Hk1 & Hdb1
           & Hr1 & Hr2 & Hr3 & Hr4)].
    + injection Heq as -> ->. split.
      * exists jobs. by repeat split.
      * split; [done|]. split; [|by repeat split].
        intros f Hf Hp. apply elem_of_cons in Hf as [->|Hf];
          [|by apply Hin'].
        by apply Hs', Hskip.
    + assert (settled w1 name = true) as Hnow.
      { unfold settled, is_file_locked, Redis.exists_.
        rewrite Hk1, lookup_insert_eq. apply orb_true_r. }
      split.
      * exists (job :: jobs). cbn [List.length fmap list_fmap seq].
        split; [by rewrite Hq, Hjq, <- app_assoc|].
        split; [lia|]. split; [lia|]. split.
        { apply NoDup_cons. split; [|done].
          intros Hin. apply list_elem_of_fmap in Hin as (j & Hj & Hin).
          rewrite Forall_forall in Hall.
          destruct (Hall j Hin) as (_ & _ & _ & Hsj & _).
          rewrite <- Hj, Hjf in Hsj. congruence. }
        split.
        { apply Forall_cons. split; [|done].
          unfold dispatched. rewrite Hjf.
          split; [by left|]. split; [done|]. split; [done|].
          split; [done|]. apply Hk'. by rewrite Hk1, lookup_insert_eq. }
        rewrite Htr, Hjt, Hm1. done.
      * split; [done|]. split; [|by rewrite Hq1, Hq2, Hst, Hcol].
        intros f Hf Hp. apply elem_of_cons in Hf as [->|Hf];
          [by apply Hs'|by apply Hin'].
Qed.

Lemma scan_fold_settled now ttl names w c :
  (∀ f, f ∈ names → endswith f ".pdf" = true → settled w f = true) →
  foldl (scan_file now ttl) (w, c) names = (w, c).
Proof.
  induction names as [|name names IH]; intros Hall; [done|].
  cbn [foldl].
  destruct (scan_file_step now ttl w c name)
    as [[-> _]|(Hpdf & Hns & _)].
  - apply IH. intros f Hf. apply Hall. by right.
  - rewrite Hall in Hns; [done|by left|done].
Qed.

Lemma settled_back now ttl w c name f :
  endswith name ".pdf" = true → settled w name = false →
  f ≠ name → settled w f = false →
  settled (fst (scan_file now ttl (w, c) name)) f = false.
Proof.
  intros Hpdf Hname Hne Hf.
  destruct (scan_file_step now ttl w c name)
    as [[_ Hskip]|(_ & _ & _ & _ & _ & Hk & Hdb & _)];
    [rewrite Hskip in Hname; done|].
  unfold settled, is_file_processed, is_file_locked, Redis.exists_ in *.
  rewrite Hk, Hdb.
  apply orb_false_iff in Hf as [Hp Hl]. apply orb_false_iff. split.
  - unfold DocumentDBHandler.add_document.
    destruct (db w) as [rs n]. cbn [DocumentDBHandler.rows
      DocumentDBHandler.autoinc] in *.
    case_bool_decide; cbn [fst].
    + by rewrite (StoreLaws.get_status_autoinc _ _ n).
    + rewrite (StoreLaws.get_status_autoinc _ _ n), StoreLaws.get_status_snoc.
      destruct (DocumentDBHandler.get_document_status
                  (DocumentDBHandler.Db rs n) (os_path.join MASTER_LIBRARY f))
        as [s|] eqn:Hs; [exact Hp|].
      cbn. by case_bool_decide.
  - rewrite lookup_insert_ne; [done|].
    intros Heq. by apply ExtractionManagerFacts.lock_key_inj in Heq.
Qed.

Lemma scan_fold_order now ttl names w c :
  ∃ jobs,
    EXTRACTION_JOBS (fst (foldl (scan_file now ttl) (w, c) names))
    = (EXTRACTION_JOBS w ++ jobs)%list
    ∧ sublist (ej_filename <$> jobs) names
    ∧ ∀ f, f ∈ names → endswith f ".pdf" = true → settled w f = false →
           f ∈ ej_filename <$> jobs.
Proof.
  revert w c. induction names as [|name names IH]; intros w c.
  - exists []. rewrite app_nil_r. split; [done|]. split; [done|].
    intros f Hf. by apply elem_of_nil in Hf.
  - cbn [foldl].
    pose proof (settled_back now ttl w c name) as Hback.
    pose proof (scan_file_step now ttl w c name) as Hstep.
    destruct (scan_file now ttl (w, c) name) as [w1 c1] eqn:Hr.
    cbn [fst snd] in Hback, Hstep.
    destruct (IH w1 c1) as (jobs & Hq & Hsub & Hall).
    destruct Hstep
      as [[Heq Hskip]|(Hpdf & Hns & _ & (job & Hjq & Hjf & _) & _)].
    + injection Heq as -> ->. exists jobs. split; [done|].
      split; [by apply sublist_cons|].
      intros f Hf Hp Hs. apply elem_of_cons in Hf as [->|Hf];
        [|by apply Hall].
      rewrite Hskip in Hs; done.
    + exists (job :: jobs). rewrite Hq, Hjq, <- app_assoc.
      split; [done|]. cbn [fmap list_fmap]. rewrite Hjf.
      split; [by apply sublist_skip|].
      intros f Hf Hp Hs. destruct (decide (f = name)) as [->|Hne];
        [apply list_elem_of_here|].
      apply list_elem_of_further.
      apply elem_of_cons in Hf as [->|Hf]; [done|].
      apply Hall; [done|done|]. by apply Hback.
Qed.

(** A duplicate-free list has one sublist with given elements. *)
Lemma sublist_is_filter {A} (P : A → Prop) `{∀ x, Decision (P x)}
    (l names : list A) :
  sublist l names → NoDup names →
  (∀ x, x ∈ l ↔ x ∈ names ∧ P x) →
  l = filter P names.
Proof.
  intros Hsub. induction Hsub as [|x l names Hsub IH|x l names Hsub IH];
    intros Hnd Hiff.
  - done.
  - apply NoDup_cons in Hnd as [Hx Hnd].
    assert (P x) as HP.
    { apply (Hiff x). apply list_elem_of_here. }
    rewrite filter_cons_True by done. f_equal. apply IH; [done|].
    intros y. split.
    + intros Hy. split.
      * eapply sublist_submseteq, elem_of_submseteq in Hsub; done.
      * apply (Hiff y). by apply list_elem_of_further.
    + intros [Hy HPy].
      assert (y ∈ x :: l) as Hin
        by (apply Hiff; split; [by apply list_elem_of_further|done]).
      apply elem_of_cons in Hin as [->|Hin]; done.
  - apply NoDup_cons in Hnd as [Hx Hnd].
    assert (x ∉ l) as Hxl.
    { intros Hin. apply Hx.
      eapply sublist_submseteq, elem_of_submseteq in Hsub; done. }
    assert (¬ P x) as HP.
    { intros HP. apply Hxl, Hiff. split; [apply list_elem_of_here|done]. }
    rewrite filter_cons_False by done. apply IH; [done|].
    intros y. split.
    + intros Hy. destruct (proj1 (Hiff y) Hy) as [Hin HPy].
      split; [|done]. apply elem_of_cons in Hin as [->|Hin]; done.
    + intros [Hy HPy]. apply Hiff. split; [by apply list_elem_of_further|done].
Qed.

(** X12: what a scan dispatches.  The jobs a scan pushes are appended to
    the extract queue in listing order and counted by the answer: their
    file names are a subsequence of the listing, and for a listing
    without repetition exactly the listed names that end in [.pdf] and
    were neither processed, processing nor locked when the scan began,
    in the order of the listing.  Each job carries the path of its file
    in the library and holds the manager's lock when the scan ends; no
    file is dispatched twice in one scan, even when it is listed twice;
    the trace ids are the next ones of the generator, in order; no lock
    that was held is lost or changed; and the chunk and embed queues, the
    staging directory and the collection are untouched. *)
Theorem scan_dispatches now ttl listing w :
  let r := scan_master_library now ttl listing w in
  let w' := fst r in
  let names := default [] listing in
  ∃ jobs,
    EXTRACTION_JOBS w' = (EXTRACTION_JOBS w ++ jobs)%list
    ∧ snd r = Z.of_nat (List.length jobs)
    ∧ NoDup (ej_filename <$> jobs)
    ∧ Forall (dispatched ttl names w w') jobs
    ∧ Forall (λ j, ∃ stem, ej_filename j = stem ++ ".pdf") jobs
    ∧ ej_trace_id <$> jobs
      = generate_trace_id <$> seq (minted w) (List.length jobs)
    ∧ (∀ k v, redis_keys w !! k = Some v → redis_keys w' !! k = Some v)
    ∧ REDIS_QUEUE w' = REDIS_QUEUE w
    ∧ EMBEDDING_QUEUE w' = EMBEDDING_QUEUE w
    ∧ staging w' = staging w
    ∧ collection w' = collection w
    ∧ sublist (ej_filename <$> jobs) names
    ∧ (∀ f, f ∈ ej_filename <$> jobs
            ↔ f ∈ names ∧ endswith f ".pdf" = true ∧ settled w f = false)
    ∧ (NoDup names →
       ej_filename <$> jobs
       = filter (λ f, endswith f ".pdf" = true ∧ settled w f = false) names).
Proof.
  destruct listing as [names|]; cbn zeta; cbn [scan_master_library default].
  - destruct (scan_fold now ttl names w 0)
      as ((jobs & Hq & Hc & _ & Hnd & Hall & Htr)
          & _ & _ & Hk & Hq1 & Hq2 & Hst & Hcol).
    destruct (scan_fold_order now ttl names w 0)
      as (jobs' & Hq' & Hsub & Hcomplete).
    rewrite Hq in Hq'. apply app_inv_head in Hq'. subst jobs'.
    assert (∀ f, f ∈ ej_filename <$> jobs
                 ↔ f ∈ names ∧ endswith f ".pdf" = true ∧ settled w f = false)
      as Hiff.
    { intros f. split.
      - intros Hin. apply list_elem_of_fmap in Hin as (j & -> & Hj).
        rewrite Forall_forall in Hall.
        by destruct (Hall j Hj) as (? & ? & _ & ? & _).
      - intros (Hin & Hpdf & Hs). by apply Hcomplete. }
    exists jobs. rewrite Z.add_0_l in Hc.
    split; [done|]. split; [done|]. split; [done|]. split; [done|].
    split.
    { eapply Forall_impl; [exact Hall|]. intros j (_ & Hpdf & _).
      by apply PathLaws.endswith_spec in Hpdf. }
    split; [done|]. split; [done|]. split; [done|]. split; [done|].
    split; [done|]. split; [done|]. split; [done|]. split; [done|].
    intros Hnames. by apply sublist_is_filter.
  - exists []. cbn [fst snd]. rewrite app_nil_r.
    split; [done|]. split; [done|]. split; [apply NoDup_nil_2|].
    split; [done|]. split; [done|]. split; [done|]. split; [done|].
    split; [done|]. split; [done|]. split; [done|]. split; [done|].
    split; [done|]. split; [|done].
    intros f. split; [intros Hf; by apply elem_of_nil in Hf|].
    intros [Hf _]. by apply elem_of_nil in Hf.
Qed.

(** X5: a dispatched job names its file.  When the entries of the
    listing are plain names (no separator, as [os.listdir] gives them),
    the base name of the path in every job a scan pushes is the job's
    file name, whatever the library directory: the file name the extract
    worker reads back from the path is the one the manager's lock and the
    status record are kept under. *)
Theorem dispatched_job_names_its_file now ttl names w :
  Forall (λ f, os_path.contains os_path.sep f = false) names →
  ∃ jobs,
    EXTRACTION_JOBS (fst (scan_master_library now ttl (Some names) w))
    = (EXTRACTION_JOBS w ++ jobs)%list
    ∧ Forall (λ j, os_path.basename (ej_file_path j) = ej_filename j) jobs.
Proof.
  intros Hplain. cbn [scan_master_library].
  destruct (scan_fold now ttl names w 0)
    as ((jobs & Hq & _ & _ & _ & Hall & _) & _).
  exists jobs. split; [done|].
  eapply Forall_impl; [exact Hall|]. intros j (Hin & _ & -> & _).
  apply PathLaws.basename_join.
  rewrite Forall_forall in Hplain. by apply Hplain.
Qed.

(** X13: a scan is idempotent.  Scanning the same listing again, at any
    later time and with any lock time-to-live, while the locks of the
    first scan are still held and no record has changed, dispatches
    nothing and changes nothing: no key, no record, no queue, no
    effect. *)
Theorem rescan_changes_nothing now ttl now' ttl' listing w :
  let w' := fst (scan_master_library now ttl listing w) in
  scan_master_library now' ttl' listing w' = (w', 0%Z).
Proof.
  destruct listing as [names|]; cbn zeta; cbn [scan_master_library]; [|done].
  apply scan_fold_settled.
  by destruct (scan_fold now ttl names w 0) as (_ & _ & Hin & _).
Qed.

End scans.

Lemma dispatched_job_names_its_file_witness :
  let E := sample_externals hash_of_process_0 in
  ∃ jobs,
    EXTRACTION_JOBS
      (fst (@scan_master_library E 0 300 (Some ["a.pdf"; "notes.txt"])
              empty_world)) = jobs
    ∧ Forall (λ j, os_path.basename (ej_file_path j) = ej_filename j) jobs.
Proof.
  intros E.
  destruct (@dispatched_job_names_its_file E 0%Z 300%Z ["a.pdf"; "notes.txt"]
              empty_world) as (jobs & Hq & Hall).
  - repeat apply Forall_cons_2; [reflexivity|reflexivity|apply Forall_nil_2].
  - exists jobs. split; [exact Hq|exact Hall].
Defined.

End ScanLaws.

(** ** The supervisor's process table *)

Module SupervisorLaws.
Import BackendPipeline BackendPipelineFacts.

Section table.
Variable popen_ok : string → bool.

Section pass.
Variable poll : Z → option Z.

Lemma monitor_fold_drops l p k info :
  well_keyed (processes p) →
  well_keyed l →
  (k, info) ∈ l →
  is_Some (poll (process info)) →
  name info ≠ "redis" →
  snd (start_component popen_ok p (name info) (command info)
         (worker_id info)) = false →
  k ∉ fst <$> processes (foldl (monitor_entry popen_ok poll) p l).
Proof.
  revert p. induction l as [|[k0 info0] l IH];
    intros p Hwk [Hnd Hkeys] Hin Hex Hr Hfail;
    [by apply elem_of_nil in Hin|].
  cbn in Hnd. apply NoDup_cons in Hnd as [Hk0 Hnd]. cbn [foldl].
  assert (∀ k info, (k, info) ∈ l
                    → k = process_key (name info) (worker_id info)) as Hkeys'
    by (intros; apply Hkeys; by apply list_elem_of_further).
  destruct (monitor_entry_table popen_ok poll p k0 info0 Hwk) as (Hs1 & Hwk1 & Hk1 & Hdrop).
  apply elem_of_cons in Hin as [Heq|Hin].
  - injection Heq as <- <-.
    destruct (monitor_fold_table popen_ok poll l _ Hwk1 Hkeys') as (_ & _ & Hk2).
    intros Hin. apply Hk2 in Hin as [Hin|Hin]; [|done].
    by apply (Hdrop Hex Hr Hfail).
  - apply (IH _ Hwk1); try done.
    by rewrite (start_component_same popen_ok p).
Qed.

End pass.

Lemma monitor_table ticks p :
  well_keyed (processes p) →
  well_keyed (processes (monitor popen_ok ticks p))
  ∧ ∀ k, k ∈ fst <$> processes (monitor popen_ok ticks p) →
         k ∈ fst <$> processes p.
Proof.
  revert p. induction ticks as [|[poll|] ticks IH]; intros p Hwk;
    cbn [monitor]; [done| |].
  - destruct (running p); [|done].
    destruct (monitor_fold_table popen_ok poll (processes p) p Hwk) as (_ & Hwk1 & Hk1);
      [apply Hwk|].
    destruct (IH _ Hwk1) as [Hwk2 Hk2]. split; [done|].
    intros k Hin. apply Hk2, Hk1 in Hin. tauto.
  - unfold shutdown.
    destruct (shutdown_fold_events (processes p) (set_running false p))
      as (-> & _). done.
Qed.

Lemma start_workers_table stage script n p :
  well_keyed (processes p) →
  well_keyed (processes (start_workers popen_ok stage script n p)).
Proof.
  unfold start_workers. generalize (seq 0 n). intros l. revert p.
  induction l as [|i l IH]; intros p Hwk; [done|]. cbn [foldl].
  apply IH. by apply start_component_table.
Qed.

Lemma start_pipeline_table p :
  well_keyed (processes p) →
  well_keyed (processes (fst (start_pipeline popen_ok p))).
Proof.
  intros Hwk. unfold start_pipeline.
  set (p1 := start_redis (set_running true p)).
  assert (well_keyed (processes p1)) as Hwk1 by (by apply well_keyed_set).
  pose proof (start_component_table popen_ok p1 "extraction-manager"
    ("python3 document_ingestion_platform/ingest_tools/extraction_manager.py "
     ++ "--scan-interval " ++ py_str_int MANAGER_SCAN_INTERVAL ++ " "
     ++ "--lock-ttl " ++ py_str_int EXTRACTION_LOCK_TTL) None)
    as (_ & Hwk2 & _).
  unfold start_extraction_manager.
  destruct (start_component popen_ok p1 _ _ None) as [p2 ok].
  cbn [fst] in Hwk2. specialize (Hwk2 Hwk1).
  destruct ok; [|done]. cbn [fst].
  by do 3 apply start_workers_table.
Qed.

Lemma well_keyed_nil : well_keyed [].
Proof.
  split; [apply NoDup_nil_2|].
  intros k info Hin. by apply elem_of_nil in Hin.
Qed.

(** X14: the process table stays well keyed and never grows.  From the
    constructor on, whatever spawns succeed or fail, after
    [start_pipeline] and after any run of the monitor loop (any polls,
    with or without a termination signal) every component stands in the
    table once, under the key made of its stage name and worker id; and
    the monitor loop never adds a key to the table that
    [start_pipeline] had not put there. *)
Theorem table_stays_well_keyed base venv port stamp ticks :
  let p := fst (start_pipeline popen_ok (init base venv port stamp)) in
  let p' := monitor popen_ok ticks p in
  well_keyed (processes p)
  ∧ well_keyed (processes p')
  ∧ ∀ k, k ∈ fst <$> processes p' → k ∈ fst <$> processes p.
Proof.
  cbn zeta.
  assert (well_keyed
            (processes (fst (start_pipeline popen_ok
                               (init base venv port stamp))))) as Hwk
    by apply start_pipeline_table, well_keyed_nil.
  split; [done|]. by apply monitor_table.
Qed.

(** X15: a child whose restart fails is dropped.  When a pass finds
    that a child other than the broker has exited, and starting its
    command fails, the component is no longer in the table after the
    pass, and no later pass of the monitor loop starts it again. *)
Theorem failed_restart_drops_component poll p k info :
  well_keyed (processes p) →
  (k, info) ∈ processes p →
  is_Some (poll (process info)) →
  name info ≠ "redis" →
  snd (start_component popen_ok p (name info) (command info)
         (worker_id info)) = false →
  ∀ ticks,
    dict_get k (processes (monitor popen_ok ticks
                             (monitor_pass popen_ok poll p))) = None.
Proof.
  intros Hwk Hin Hex Hr Hfail ticks. apply dict_get_None.
  destruct (monitor_fold_table popen_ok poll (processes p) p Hwk) as (_ & Hwk1 & _);
    [apply Hwk|].
  intros Hk. apply (monitor_table ticks _ Hwk1) in Hk.
  by apply (monitor_fold_drops poll (processes p) p k info) in Hk.
Qed.

End table.

Lemma failed_restart_drops_component_witness :
  dict_get "chunking-worker:chunking-worker-0"
    (processes
       (monitor (λ _, false) [Poll (λ _, None)]
          (monitor_pass (λ _, false)
             (λ pid, if (pid =? 1005)%Z then Some 1%Z else None)
             started))) = None.
Proof.
  assert (well_keyed (processes started)) as Hwk.
  { apply start_pipeline_table, well_keyed_nil. }
  apply (failed_restart_drops_component (λ _, false)
           (λ pid, if (pid =? 1005)%Z then Some 1%Z else None) started
           "chunking-worker:chunking-worker-0"
           (ProcInfo 1005 "chunking-worker" (Some "chunking-worker-0")
              ("python3 document_ingestion_platform/ingest_tools/"
               ++ "chunking.py --worker-id chunking-worker-0")
              "chunking-worker_chunking-worker-0_20240101.log")
           Hwk).
  - vm_compute. do 5 apply list_elem_of_further. apply list_elem_of_here.
  - vm_compute. by eexists.
  - discriminate.
  - reflexivity.
Defined.

End SupervisorLaws.

(** ** The stages together *)

Module PipelineLaws.
Import DocumentDBHandler ExtractionManager extraction chunking embedding.

#[local] Arguments DocumentDBHandler.update_document_status : simpl never.
#[local] Arguments DocumentDBHandler.add_document : simpl never.

Lemma brpop_Some {A} (l : list A) x rest :
  Redis.brpop l = Some (x, rest) → l = (rest ++ [x])%list.
Proof.
  unfold Redis.brpop. destruct (reverse l) as [|y r] eqn:Hr; [done|].
  intros [= -> <-]. apply (f_equal reverse) in Hr.
  rewrite reverse_involutive in Hr. by rewrite Hr, reverse_cons.
Qed.

(** Properties of the world that a computation keeps. *)
Section preserved.
Variable P : world → Prop.

Definition preserves {A} (m : M A) : Prop := ∀ w, P w → P (snd (m w)).

Lemma preserves_ret {A} (a : A) : preserves (ret a).
Proof. by intros w. Qed.

Lemma preserves_raise {A} e : preserves (@raise A e).
Proof. by intros w. Qed.

Lemma preserves_bind {A B} (m : M A) (k : A → M B) :
  preserves m → (∀ a, preserves (k a)) → preserves (bind m k).
Proof.
  intros Hm Hk w Hw. unfold bind. specialize (Hm w Hw).
  destruct (m w) as [[a|e] w1]; cbn in *; [by apply Hk|done].
Qed.

Lemma preserves_try_except {A} (m : M A) (h : string → M A) :
  preserves m → (∀ e, preserves (h e)) → preserves (try_except m h).
Proof.
  intros Hm Hh w Hw. unfold try_except. specialize (Hm w Hw).
  destruct (m w) as [[a|e] w1]; cbn in *; [done|by apply Hh].
Qed.

End preserved.

Section stages.
Context `{Externals}.

(** What the embed worker calls keeps everything that [store_embeddings]
    keeps. *)
Section embed_frame.
Variable P : world → Prop.
Hypothesis upsert_keeps :
  ∀ k c w, P w → P (log (MongoUpsert k) (set_collection c w)).

Lemma derive_preserves p : preserves P (derive_document_id p).
Proof. destruct p; by intros w. Qed.

Lemma enrich_preserves now metadata embeddings i c :
  preserves P (enrich now metadata embeddings i c).
Proof.
  unfold enrich. destruct (embeddings !! i); [|apply preserves_raise].
  destruct (nonempty metadata); [|apply preserves_ret].
  destruct (metadata !! "document_id"); [apply preserves_ret|].
  destruct (metadata !! "file_path"); [|apply preserves_ret].
  apply preserves_bind; [apply derive_preserves|].
  intros v. apply preserves_ret.
Qed.

Lemma enrich_from_preserves now metadata embeddings i chunks :
  preserves P (enrich_from now metadata embeddings i chunks).
Proof.
  revert i. induction chunks as [|c chunks IH]; intros i;
    [apply preserves_ret|].
  cbn [enrich_from]. apply preserves_bind; [apply enrich_preserves|].
  intros e. apply preserves_bind; [apply IH|]. intros es. apply preserves_ret.
Qed.

Lemma save_chunk_preserves now metadata doc_id i c :
  preserves P (save_chunk now metadata doc_id i c).
Proof.
  unfold save_chunk.
  destruct (c !! "embedding") as [[| | |e]|]; try apply preserves_raise.
  intros w Hw. cbn. by apply upsert_keeps.
Qed.

Lemma save_from_preserves now metadata doc_id i ecs :
  preserves P (save_from now metadata doc_id i ecs).
Proof.
  revert i. induction ecs as [|c ecs IH]; intros i; [apply preserves_ret|].
  cbn [save_from]. apply preserves_bind; [apply save_chunk_preserves|].
  intros r. apply preserves_bind; [apply IH|]. intros rs. apply preserves_ret.
Qed.

Lemma embedding_job_preserves now job :
  preserves P (process_embedding_job now job).
Proof.
  unfold process_embedding_job.
  apply preserves_try_except; [|intros e; apply preserves_ret].
  apply preserves_bind.
  { intros w Hw. unfold load_chunks_file.
    by destruct (staging w !! mj_chunks_file job). }
  intros loaded. apply preserves_bind; [apply enrich_from_preserves|].
  intros ecs. apply preserves_bind; [|intros rs; apply preserves_ret].
  unfold save_to_mongodb. apply preserves_bind; [|intros d; apply save_from_preserves].
  destruct (_ !! "document_id"); [apply preserves_ret|apply derive_preserves].
Qed.

End embed_frame.

(** What one of the processes does between two steps of another. *)
Inductive action :=
| Scan (now lock_ttl : Z) (listing : option (list string))
| ExtractTurn (worker_id : string) (now : Z)
| ChunkTurn (now : Z)
| EmbedTurn (now : Z)
| LockExpires (filename : string).

Definition step (w : world) (a : action) : world :=
  match a with
  | Scan now lock_ttl listing =>
      fst (scan_master_library now lock_ttl listing w)
  | ExtractTurn worker_id now =>
      snd (process_extraction_queue_turn worker_id now w)
  | ChunkTurn now => snd (process_chunking_queue_turn now w)
  | EmbedTurn now => snd (process_embedding_queue_turn now w)
  | LockExpires filename =>
      set_redis_keys (Redis.expire (redis_keys w) (lock_key filename)) w
  end.

(** The manager and the workers taking turns in any order, from a new
    store, an empty broker and an empty staging directory. *)
Definition interleaving (actions : list action) : world :=
  foldl step empty_world actions.

(** A record as the manager writes it and the extract worker updates
    it; [n] is the number of trace ids handed out so far. *)
Definition managed (n : nat) (r : row) : Prop :=
  status r ∈ ["queued"; "processing"; "processed"; "error"]
  ∧ endswith (filename r) ".pdf" = true
  ∧ filepath r = os_path.join MASTER_LIBRARY (filename r)
  ∧ ∃ i, (i < n)%nat ∧ trace_id r = Some (generate_trace_id i).

Definition store_ok (d : documents) (n : nat) : Prop :=
  Forall (managed n) (rows d) ∧ NoDup (filename <$> rows d).

(** The file has a status record. *)
Definition registered (d : documents) (fpath : string) : Prop :=
  is_Some (get_document_status d fpath).

Definition extract_job_ok (d : documents) (j : extract_job) : Prop :=
  ej_file_path j = os_path.join MASTER_LIBRARY (ej_filename j)
  ∧ registered d (ej_file_path j).

Definition chunk_job_ok (d : documents) (j : chunk_job) : Prop :=
  is_Some (cj_document_json j)
  ∧ cj_metadata j !! "file_path" = Some (VStr (cj_file_path j))
  ∧ registered d (cj_file_path j).

Definition embed_job_ok (d : documents) (files : gmap string chunks_file)
    (j : embed_job) : Prop :=
  is_Some (files !! mj_chunks_file j)
  ∧ ∃ fpath, mj_metadata j !! "file_path" = Some (VStr fpath)
             ∧ registered d fpath.

Definition sound (w : world) : Prop :=
  store_ok (db w) (minted w)
  ∧ Forall (extract_job_ok (db w)) (EXTRACTION_JOBS w)
  ∧ Forall (chunk_job_ok (db w)) (REDIS_QUEUE w)
  ∧ Forall (embed_job_ok (db w) (staging w)) (EMBEDDING_QUEUE w).

Lemma registered_iff d fp :
  registered d fp ↔ ∃ r, r ∈ rows d ∧ filepath r = fp.
Proof.
  unfold registered, get_document_status. split.
  - intros [s Hs].
    destruct (list_find _ (rows d)) as [[i r]|] eqn:Hf; [|done].
    apply list_find_Some in Hf as (Hi & Hp & _). exists r.
    split; [by eapply list_elem_of_lookup_2|done].
  - intros (r & Hin & Hp).
    destruct (list_find _ (rows d)) as [[i r']|] eqn:Hf; [by eexists|].
    apply list_find_None in Hf. rewrite Forall_forall in Hf.
    by specialize (Hf r Hin).
Qed.

Lemma set_status_keeps now st err r :
  filename (set_status now st err r) = filename r
  ∧ filepath (set_status now st err r) = filepath r
  ∧ trace_id (set_status now st err r) = trace_id r
  ∧ status (set_status now st err r) = st.
Proof. unfold set_status. by destruct (truthy err). Qed.

Lemma registered_update now d fp' st err fp :
  registered d fp →
  registered (fst (update_document_status now d fp' st err)) fp.
Proof.
  rewrite !registered_iff. intros (r & Hin & Hp).
  unfold update_document_status. cbn [fst rows].
  eexists. split; [apply list_elem_of_fmap; by eexists|].
  cbn. case_bool_decide; [|done].
  by destruct (set_status_keeps now st err r) as (_ & -> & _).
Qed.

Lemma registered_add now d fname fpath st tr fp :
  registered d fp → registered (fst (add_document now d fname fpath st tr)) fp.
Proof.
  intros [s Hs]. exists s.
  by apply ExtractionManagerFacts.get_document_status_add.
Qed.

Lemma registered_new now d n fname st tr :
  store_ok d n →
  registered (fst (add_document now d fname
                     (os_path.join MASTER_LIBRARY fname) st tr))
             (os_path.join MASTER_LIBRARY fname).
Proof.
  intros [Hall _]. apply registered_iff. unfold add_document.
  case_bool_decide as Hin; cbn [fst rows].
  - apply list_elem_of_fmap in Hin as (r & -> & Hin). exists r.
    split; [done|]. rewrite Forall_forall in Hall.
    by destruct (Hall r Hin) as (_ & _ & -> & _).
  - eexists. split; [apply elem_of_app; right; apply list_elem_of_here|done].
Qed.

Lemma store_ok_update now d n fp st err :
  st ∈ ["queued"; "processing"; "processed"; "error"] →
  store_ok d n → store_ok (fst (update_document_status now d fp st err)) n.
Proof.
  intros Hst [Hall Hnd]. unfold store_ok, update_document_status.
  cbn [fst rows]. split.
  - rewrite Forall_fmap. eapply Forall_impl; [exact Hall|].
    intros r (Hs & Hpdf & Hp & Htr). cbn. case_bool_decide; [|done].
    destruct (set_status_keeps now st err r) as (Hf & Hfp & Ht & Hs').
    unfold managed. by rewrite Hf, Hfp, Ht, Hs'.
  - rewrite <- list_fmap_compose.
    erewrite list_fmap_ext; [exact Hnd|].
    intros i r _. cbn. case_bool_decide; [|done].
    by destruct (set_status_keeps now st err r) as (-> & _).
Qed.

Lemma store_ok_add now d n fname :
  endswith fname ".pdf" = true →
  store_ok d n →
  store_ok (fst (add_document now d fname (os_path.join MASTER_LIBRARY fname)
                   "queued" (Some (generate_trace_id n)))) (S n).
Proof.
  intros Hpdf [Hall Hnd].
  assert (Forall (managed (S n)) (rows d)) as Hall'.
  { eapply Forall_impl; [exact Hall|].
    intros r (Hs & Hp & Hfp & i & Hi & Htr).
    repeat split; try done. exists i. split; [lia|done]. }
  unfold store_ok, add_document.
  case_bool_decide as Hin; cbn [fst rows]; [done|].
  split.
  - apply Forall_app. split; [done|]. apply Forall_singleton.
    split; [cbn; apply list_elem_of_here|]. split; [done|]. split; [done|].
    exists n. split; [lia|done].
  - rewrite fmap_app. apply NoDup_app. split; [done|]. split.
    + intros x Hx Hx'. cbn in Hx'. apply list_elem_of_singleton in Hx'.
      by subst.
    + apply NoDup_singleton.
Qed.

Lemma jobs_keep (d d' : documents) files files' w :
  (∀ fp, registered d fp → registered d' fp) →
  (∀ f, is_Some (files !! f) → is_Some (files' !! f)) →
  Forall (extract_job_ok d) (EXTRACTION_JOBS w)
  ∧ Forall (chunk_job_ok d) (REDIS_QUEUE w)
  ∧ Forall (embed_job_ok d files) (EMBEDDING_QUEUE w) →
  Forall (extract_job_ok d') (EXTRACTION_JOBS w)
  ∧ Forall (chunk_job_ok d') (REDIS_QUEUE w)
  ∧ Forall (embed_job_ok d' files') (EMBEDDING_QUEUE w).
Proof.
  intros Hd Hf (H1 & H2 & H3). split; [|split].
  - eapply Forall_impl; [exact H1|]. intros j [? ?]. split; auto.
  - eapply Forall_impl; [exact H2|]. intros j (? & ? & ?). repeat split; auto.
  - eapply Forall_impl; [exact H3|]. intros j (? & fp & ? & ?).
    split; [auto|]. exists fp. auto.
Qed.

Lemma scan_file_sound now ttl w c fname :
  sound w → sound (fst (scan_file now ttl (w, c) fname)).
Proof.
  intros (Hst & Hjobs).
  destruct (ScanLaws.scan_file_step now ttl w c fname)
    as [[-> _]
       |(Hpdf & _ & _ & (job & Hq & Hf & Hp & Ht) & Hm & _ & Hdb & Hq1 & Hq2
         & Hfiles & _)]; [done|].
  unfold sound. rewrite Hdb, Hm, Hq, Hq1, Hq2, Hfiles.
  split; [by apply store_ok_add|].
  pose proof (jobs_keep (db w) _ (staging w) (staging w) w
                (λ fp, registered_add now (db w) fname
                         (os_path.join MASTER_LIBRARY fname) "queued"
                         (Some (generate_trace_id (minted w))) fp)
                (λ f Hf, Hf) Hjobs) as (H1 & H2 & H3).
  split; [|done]. apply Forall_app. split; [done|].
  apply Forall_singleton. split; [by rewrite Hp, Hf|].
  rewrite Hp. by eapply registered_new.
Qed.

Lemma scan_sound now ttl listing w :
  sound w → sound (fst (scan_master_library now ttl listing w)).
Proof.
  destruct listing as [names|]; cbn [scan_master_library]; [|done].
  generalize 0%Z. revert w.
  induction names as [|fname names IH]; intros w c Hw; [done|].
  cbn [foldl].
  pose proof (scan_file_sound now ttl w c fname Hw) as Hw1.
  destruct (scan_file now ttl (w, c) fname) as [w1 c1]. by apply IH.
Qed.

Lemma extraction_job_sound worker_id now job w :
  sound w → registered (db w) (ej_file_path job) →
  sound (snd (process_extraction_job worker_id now job w)).
Proof.
  intros (Hst & Hjobs) Hreg.
  assert (∀ st err,
            st ∈ ["queued"; "processing"; "processed"; "error"] →
            let d' := fst (update_document_status now
                             (fst (update_document_status now (db w)
                                     (ej_file_path job) "processing" None))
                             (ej_file_path job) st err) in
            store_ok d' (minted w)
            ∧ (∀ fp, registered (db w) fp → registered d' fp)) as Hupd.
  { intros st err Hin. cbn zeta. split.
    - apply store_ok_update; [done|]. apply store_ok_update; [|done].
      right; left.
    - intros fp Hfp. by do 2 apply registered_update. }
  assert ("error" ∈ ["queued"; "processing"; "processed"; "error"]) as Herr
    by (do 3 right; left).
  assert ("processed" ∈ ["queued"; "processing"; "processed"; "error"])
    as Hdone by (do 2 right; left).
  unfold process_extraction_job, try_except.
  unfold bind at 1. cbn [db_update effectful].
  unfold bind at 1, external at 1.
  destruct (convert (ej_file_path job)) as [e|[document|]]; cbn [ret raise].
  - cbn. destruct (Hupd "error" (Some ("Exception during processing: " ++ e))
                     Herr) as [Hs Hr].
    split; [exact Hs|]. by apply (jobs_keep (db w) _ (staging w) _ w).
  - unfold bind at 1.
    destruct (getsize (ej_file_path job)) as [e|size] eqn:Hsize.
    + match goal with
      | |- context [extract_metadata ?n ?d ?f ?t ?w0] =>
          assert (extract_metadata n d f t w0 = (Raise e, w0)) as ->
            by (unfold extract_metadata, bind, external; by rewrite Hsize)
      end.
      cbn. destruct (Hupd "error"
                       (Some ("Exception during processing: " ++ e)) Herr)
        as [Hs Hr].
      split; [exact Hs|]. by apply (jobs_keep (db w) _ (staging w) _ w).
    + match goal with
      | |- context [extract_metadata ?n ?d ?f ?t ?w0] =>
          destruct (ExtractionFacts.extract_metadata_spec n d f t w0 size
                      Hsize) as (metadata & -> & Hfp & _)
      end.
      cbn. destruct (Hupd "processed" None Hdone) as [Hs Hr].
      split; [exact Hs|].
      destruct (jobs_keep (db w) _ (staging w) (staging w) w Hr (λ f Hf, Hf)
                  Hjobs) as (H1 & H2 & H3).
      split; [done|]. split; [|done]. apply Forall_app. split; [done|].
      apply Forall_singleton. split; [by eexists|]. split; [done|].
      by apply Hr.
  - cbn. destruct (Hupd "error"
                     (Some "Failed to convert document - no document returned")
                     Herr) as [Hs Hr].
    split; [exact Hs|]. by apply (jobs_keep (db w) _ (staging w) _ w).
Qed.

Lemma chunking_job_sound now job w :
  sound w → chunk_job_ok (db w) job →
  sound (snd (process_chunking_job now job w)).
Proof.
  intros Hw (_ & Hfp & Hreg).
  unfold process_chunking_job, try_except. unfold bind at 1.
  assert (∀ document,
            sound (snd
              match
                bind (chunk_document now document (cj_file_path job)
                        (cj_trace_id job) (cj_metadata job))
                  (λ chunked,
                     bind (save_chunks (cj_file_path job) (fst chunked)
                             (snd chunked) (cj_trace_id job))
                       (λ chunks_file,
                          bind (add_to_embedding_queue chunks_file
                                  (snd chunked) (cj_trace_id job))
                            (λ _, ret true))) w
              with
              | (Return a, w') => (Return a, w')
              | (Raise e, w') => ret false w'
              end)) as Hdoc.
  { intros document.
    unfold bind, chunk_document, save_chunks, add_to_embedding_queue, bind,
      external, effectful.
    destruct (chunker document) as [e|chunks]; cbn; [done|].
    destruct Hw as (Hst & H1 & H2 & H3).
    split; [done|]. split; [done|]. split; [done|].
    apply Forall_app. split.
    - eapply Forall_impl; [exact H3|]. intros j (Hfile & Hmeta).
      split; [|done]. apply lookup_insert_is_Some'. by right.
    - apply Forall_singleton. split; [cbn; by rewrite lookup_insert_eq|].
      exists (cj_file_path job). split; [|done]. cbn.
      destruct (nonempty (cj_metadata job)); by simplify_map_eq. }
  destruct (cj_document_json job) as [document|].
  - cbn [ret]. apply Hdoc.
  - unfold external. destruct (convert_markdown (cj_markdown_output job))
      as [e|document]; cbn [ret raise]; [done|apply Hdoc].
Qed.

Lemma step_sound w a : sound w → sound (step w a).
Proof.
  intros Hw. destruct a as [now ttl listing|worker_id now|now|now|fname].
  - by apply scan_sound.
  - cbn [step]. unfold process_extraction_queue_turn.
    destruct (Redis.brpop (EXTRACTION_JOBS w)) as [[job rest]|] eqn:Hpop;
      [|done].
    apply brpop_Some in Hpop. destruct Hw as (Hst & H1 & H23).
    rewrite Hpop in H1. apply Forall_app in H1 as [H1 Hjob].
    rewrite Forall_singleton in Hjob. destruct Hjob as [_ Hreg].
    destruct H23 as [H2 H3].
    pose proof (extraction_job_sound worker_id now job
                  (log BrpopExtraction (set_EXTRACTION_JOBS rest w))
                  (conj Hst (conj H1 (conj H2 H3))) Hreg) as Hrun.
    unfold bind.
    by destruct (process_extraction_job worker_id now job _) as [[b|e] w'].
  - cbn [step]. unfold process_chunking_queue_turn.
    destruct (Redis.brpop (REDIS_QUEUE w)) as [[job rest]|] eqn:Hpop; [|done].
    apply brpop_Some in Hpop. destruct Hw as (Hst & H1 & H2 & H3).
    rewrite Hpop in H2. apply Forall_app in H2 as [H2 Hjob].
    rewrite Forall_singleton in Hjob.
    pose proof (chunking_job_sound now job
                  (log BrpopChunking (set_REDIS_QUEUE rest w))
                  (conj Hst (conj H1 (conj H2 H3))) Hjob) as Hrun.
    unfold bind.
    by destruct (process_chunking_job now job _) as [[b|e] w'].
  - cbn [step]. unfold process_embedding_queue_turn.
    destruct (Redis.brpop (EMBEDDING_QUEUE w)) as [[job rest]|] eqn:Hpop;
      [|done].
    apply brpop_Some in Hpop. destruct Hw as (Hst & H1 & H2 & H3).
    rewrite Hpop in H3. apply Forall_app in H3 as [H3 _].
    pose proof (embedding_job_preserves sound (λ k c w0 Hw0, Hw0) now job
                  (log BrpopEmbedding (set_EMBEDDING_QUEUE rest w))
                  (conj Hst (conj H1 (conj H2 H3)))) as Hrun.
    unfold bind.
    by destruct (process_embedding_job now job _) as [[b|e] w'].
  - done.
Qed.

Lemma interleaving_sound actions : sound (interleaving actions).
Proof.
  unfold interleaving.
  assert (sound empty_world) as Hw.
  { repeat split; try apply Forall_nil_2. apply NoDup_nil_2. }
  revert Hw. generalize empty_world.
  induction actions as [|a actions IH]; intros w Hw; [done|].
  cbn [foldl]. by apply IH, step_sound.
Qed.

(** X16: the status store of the running pipeline.  However the scans
    of the manager, the turns of the workers and the expiry of locks
    interleave, every record of the store is one the manager wrote for a
    [.pdf] file of the library: its path is the file's path in the
    library, its trace id is one the generator handed out, and its status
    is queued, processing, processed or error; no file has two records;
    and no record is ever pending, so [get_pending_documents] answers
    the empty list. *)
Theorem store_of_the_pipeline actions :
  let w := interleaving actions in
  Forall (managed (minted w)) (rows (db w))
  ∧ NoDup (filename <$> rows (db w))
  ∧ get_pending_documents (db w) = [].
Proof.
  cbn zeta. destruct (interleaving_sound actions) as ((Hall & Hnd) & _).
  split; [done|]. split; [done|].
  unfold get_pending_documents.
  generalize (rows (db (interleaving actions))) Hall. clear Hall Hnd.
  intros l Hl. induction Hl as [|r l (Hs & _) _ IH]; [done|].
  rewrite filter_cons.
  destruct (decide (status r = "pending")) as [Hp|_]; [|exact IH].
  rewrite Hp in Hs.
  repeat (apply elem_of_cons in Hs as [Hs|Hs]; [discriminate|]).
  by apply elem_of_nil in Hs.
Qed.

(** X17: the queues of the running pipeline.  However the processes
    interleave, every job waiting in a queue is for a file that has a
    status record: an extract job carries the file's path in the library;
    a chunk job carries the converted document (the markdown fallback is
    not needed) and metadata that names the file; an embed job names a
    staging file that exists and carries metadata that names the file. *)
Theorem queues_of_the_pipeline actions :
  let w := interleaving actions in
  Forall (extract_job_ok (db w)) (EXTRACTION_JOBS w)
  ∧ Forall (chunk_job_ok (db w)) (REDIS_QUEUE w)
  ∧ Forall (embed_job_ok (db w) (staging w)) (EMBEDDING_QUEUE w).
Proof.
  cbn zeta. by destruct (interleaving_sound actions) as (_ & Hjobs).
Qed.

End stages.
End PipelineLaws.

(** ** The metadata of the extract worker *)

Module MetadataLaws.
Import extraction.

Section metadata.
Context `{Externals}.


End metadata.
End MetadataLaws.

(** ** Statistics of the status store *)

Module StatsLaws.
Import DocumentDBHandler.

(** The number of rows with the given status. *)
Definition count_status (d : documents) (st : string) : nat :=
  List.length (filter (λ r, status r = st) (rows d)).

(** SELECT status, COUNT( * ) ... GROUP BY status: one row per status
    present in the table; [order] is the order in which the engine
    returns the groups, which SQL leaves open. *)
Definition group_by_status (d : documents) (order : list string)
    : list (string * Z) :=
  (λ st, (st, Z.of_nat (count_status d st))) <$> order.

(** The dictionary [get_stats] starts from. *)
Definition initial_stats : gmap string Z :=
  <["total" := 0%Z]>
    (<["pending" := 0%Z]>
       (<["processing" := 0%Z]>
          (<["processed" := 0%Z]> (<["error" := 0%Z]> ∅)))).

(** The body of the loop of [get_stats]:
    [stats[status] = count; stats["total"] += count]. *)
Definition add_group (stats : gmap string Z) (group : string * Z)
    : gmap string Z :=
  let stats := <[fst group := snd group]> stats in
  <["total" := (default 0%Z (stats !! "total") + snd group)%Z]> stats.

(** [get_stats]. *)
Definition get_stats (d : documents) (order : list string) : gmap string Z :=
  foldl add_group initial_stats (group_by_status d order).

(** The orders in which the groups of a table can come. *)
Definition groups_of (d : documents) (order : list string) : Prop :=
  NoDup order ∧ ∀ st, st ∈ order ↔ st ∈ status <$> rows d.

Lemma add_groups (cnt : string → Z) (order : list string) stats acc :
  NoDup order → "total" ∉ order → stats !! "total" = Some acc →
  let stats' := foldl add_group stats ((λ st, (st, cnt st)) <$> order) in
  stats' !! "total" = Some (acc + foldr Z.add 0 (cnt <$> order))%Z
  ∧ ∀ st, st ≠ "total" →
      stats' !! st
      = if bool_decide (st ∈ order) then Some (cnt st) else stats !! st.
Proof.
  revert stats acc. induction order as [|a order IH];
    intros stats acc Hnd Hnot Hacc; cbn zeta.
  - cbn. rewrite Z.add_0_r. split; [done|]. intros st _.
    by rewrite bool_decide_eq_false_2 by apply not_elem_of_nil.
  - apply NoDup_cons in Hnd as [Ha Hnd].
    apply not_elem_of_cons in Hnot as [Hne Hnot].
    cbn [fmap list_fmap foldl foldr].
    destruct (IH (add_group stats (a, cnt a)) (acc + cnt a)%Z Hnd Hnot)
      as [Htotal Hother].
    { unfold add_group. cbn [fst snd]. rewrite lookup_insert_eq.
      by rewrite lookup_insert_ne, Hacc by done. }
    cbn zeta in Htotal, Hother. split.
    + rewrite Htotal. f_equal. lia.
    + intros st Hst. rewrite (Hother st Hst). unfold add_group. cbn [fst snd].
      destruct (decide (st = a)) as [->|Hsa].
      * rewrite (bool_decide_eq_true_2 (a ∈ a :: order))
          by apply list_elem_of_here.
        rewrite bool_decide_eq_false_2 by done.
        rewrite lookup_insert_ne by done. by rewrite lookup_insert_eq.
      * rewrite !lookup_insert_ne by done.
        destruct (decide (st ∈ order)) as [Hin|Hout].
        -- rewrite !bool_decide_eq_true_2; [done| |done].
           by apply list_elem_of_further.
        -- rewrite !bool_decide_eq_false_2; [done| |done].
           by apply not_elem_of_cons.
Qed.

Lemma one_group (order : list string) (f : string → nat) (x : string) :
  NoDup order → x ∈ order →
  sum_list ((λ st, (f st + if bool_decide (x = st) then 1 else 0)%nat)
              <$> order)
  = S (sum_list (f <$> order)).
Proof.
  induction order as [|a order IH]; intros Hnd Hin;
    [by apply elem_of_nil in Hin|].
  apply NoDup_cons in Hnd as [Ha Hnd]. cbn [fmap list_fmap sum_list].
  apply elem_of_cons in Hin as [->|Hin].
  - rewrite bool_decide_eq_true_2 by done.
    assert ((λ st, (f st + if bool_decide (a = st) then 1 else 0)%nat)
              <$> order = f <$> order) as ->; [|cbn; lia].
    apply list_fmap_ext. intros i st Hi.
    rewrite bool_decide_eq_false_2; [lia|].
    intros <-. apply Ha. by eapply list_elem_of_lookup_2.
  - rewrite bool_decide_eq_false_2 by (by intros ->).
    cbn. rewrite (IH Hnd Hin). cbn. lia.
Qed.

Lemma counts_add_up (l : list row) (order : list string) :
  NoDup order → (∀ r, r ∈ l → status r ∈ order) →
  sum_list ((λ st, List.length (filter (λ r, status r = st) l)) <$> order)
  = List.length l.
Proof.
  intros Hnd. induction l as [|r l IH]; intros Hall.
  - cbn. clear. induction order as [|a order IHo]; [done|]. exact IHo.
  - cbn [List.length]. rewrite <- IH
      by (intros r' Hr'; apply Hall; by apply list_elem_of_further).
    rewrite <- (one_group order _ (status r) Hnd)
      by (apply Hall; apply list_elem_of_here).
    apply f_equal, list_fmap_ext. intros i st _.
    rewrite filter_cons.
    destruct (decide (status r = st)) as [Heq|Hne].
    + rewrite bool_decide_eq_true_2 by done. cbn. lia.
    + rewrite bool_decide_eq_false_2 by done. lia.
Qed.

Lemma sum_of_nat (f : string → nat) (order : list string) :
  foldr Z.add 0%Z ((λ st, Z.of_nat (f st)) <$> order)
  = Z.of_nat (sum_list (f <$> order)).
Proof. induction order as [|a order IH]; [done|]. cbn. rewrite IH. lia. Qed.

(** X18: the statistics of the status store.  As long as no row has the
    status [total], in whatever order the engine returns the groups,
    [get_stats] counts right: [total] is the number of rows, every status
    that occurs in the table has its number of rows (a status outside the
    four preset ones, such as the manager's [queued], gets a key of its
    own), a preset status that does not occur is 0, and there is no other
    key. *)
Theorem get_stats_counts (d : documents) (order : list string) :
  groups_of d order →
  "total" ∉ status <$> rows d →
  let stats := get_stats d order in
  stats !! "total" = Some (Z.of_nat (List.length (rows d)))
  ∧ ∀ st, st ≠ "total" →
      stats !! st
      = if bool_decide (st ∈ status <$> rows d)
        then Some (Z.of_nat (count_status d st))
        else if bool_decide (st ∈ ["pending"; "processing"; "processed";
                                    "error"])
             then Some 0%Z else None.
Proof.
  intros [Hnd Horder] Hnot. cbn zeta. unfold get_stats, group_by_status.
  assert ("total" ∉ order) as Hnot' by (by rewrite Horder).
  destruct (add_groups (λ st, Z.of_nat (count_status d st)) order
              initial_stats 0%Z Hnd Hnot' eq_refl) as [Htotal Hother].
  cbn zeta in Htotal, Hother. split.
  - rewrite Htotal, Z.add_0_l, sum_of_nat. do 2 f_equal.
    apply counts_add_up; [done|].
    intros r Hr. apply Horder, list_elem_of_fmap. by exists r.
  - intros st Hst. rewrite (Hother st Hst).
    destruct (decide (st ∈ order)) as [Hin|Hout].
    + rewrite !bool_decide_eq_true_2; [done| |done]. by apply Horder.
    + rewrite (bool_decide_eq_false_2 (st ∈ order)) by done.
      rewrite (bool_decide_eq_false_2 (st ∈ status <$> rows d))
        by (by rewrite <- Horder).
      unfold initial_stats. rewrite lookup_insert_ne by done.
      case_bool_decide as Hpre.
      * repeat (apply elem_of_cons in Hpre as [->|Hpre]; [done|]).
        by apply elem_of_nil in Hpre.
      * rewrite !not_elem_of_cons in Hpre.
        destruct Hpre as (? & ? & ? & ? & _).
        by rewrite !lookup_insert_ne.
Qed.

Lemma get_stats_counts_witness :
  let d := run [Add 0 "a.pdf" "/lib/a.pdf" "queued" (Some "trace-0");
                Add 1 "b.pdf" "/lib/b.pdf" "queued" (Some "trace-1");
                Update 2 "/lib/a.pdf" "processed" None] create_tables in
  let stats := get_stats d ["queued"; "processed"] in
  stats !! "total" = Some 2%Z
  ∧ stats !! "queued" = Some 1%Z
  ∧ stats !! "pending" = Some 0%Z.
Proof.
  intros d.
  assert (status <$> rows d = ["processed"; "queued"]) as Hst
    by (vm_compute; reflexivity).
  assert (groups_of d ["queued"; "processed"]) as Hgroups.
  { split.
    - repeat (apply NoDup_cons_2;
              [rewrite ?not_elem_of_cons; repeat split; try discriminate;
               apply not_elem_of_nil|]).
      apply NoDup_nil_2.
    - intros st. rewrite Hst. rewrite !elem_of_cons. tauto. }
  assert ("total" ∉ status <$> rows d) as Hnot.
  { rewrite Hst, !not_elem_of_cons.
    repeat split; try discriminate. apply not_elem_of_nil. }
  destruct (get_stats_counts d ["queued"; "processed"] Hgroups Hnot)
    as [Htotal Hother].
  split; [exact Htotal|].
  split; [exact (Hother "queued" ltac:(discriminate))
         |exact (Hother "pending" ltac:(discriminate))].
Defined.

End StatsLaws.
